(** * Lightning-strike report service: a shallow embedding of [app.py]

    The service has three request handlers:
    - [random_number]            (GET /api/random),
    - [kma_lightning_simulator]  (GET /api/kma/lightning-strikes),
    - [gmp_lightning_report]     (GET /api/gmp/lightning-report),
    and one helper, [is_within_radius].

    Python values are embedded as the inductive type [pyval]; Python floats are
    IEEE-754 binary64 numbers and are embedded as Rocq's primitive floats, so
    every arithmetic step rounds exactly as the interpreter does.  Raising an
    exception is a result in the error monad [result]; the calls into the
    [random] module are nodes of the tree type [Rand]. *)

From Stdlib Require Import ZArith List String Ascii Bool Lia.
From Stdlib Require Import Floats DecimalString DecimalPos DecimalZ.
From Stdlib Require Import QArith Qcanon.
Import ListNotations.

#[local] Set Warnings "-inexact-float,-register-all".
#[local] Open Scope string_scope.
#[local] Open Scope Z_scope.

(** ** Python values and exceptions *)

(** The values [response.json()] can produce, and the values the handlers
    build.  A [dict] keeps its items in insertion order, as Python's does, and
    a lookup takes the first item with the key. *)
Inductive pyval : Type :=
| PNone
| PBool (b : bool)
| PInt (z : Z)
| PFloat (f : float)
| PStr (s : string)
| PList (l : list pyval)
| PDict (d : list (string * pyval)).

(** The exceptions that the handlers can meet.  [ConnectionError], [HTTPError]
    and [JSONDecodeError] are classes of the [requests] package and derive from
    [requests.exceptions.RequestException]; the others are built-in. *)
Inductive exn : Type :=
| ConnectionError (msg : string)
| HTTPError (msg : string)
| JSONDecodeError (msg : string)
| ValueError (msg : string)
| KeyError (key : string)
| TypeError
| AttributeError
| OverflowError.

(** [isinstance(e, requests.exceptions.RequestException)]. *)
Definition is_RequestException (e : exn) : bool :=
  match e with
  | ConnectionError _ | HTTPError _ | JSONDecodeError _ => true
  | ValueError _ | KeyError _ | TypeError | AttributeError | OverflowError => false
  end.

(** [str(e)], as the f-string of the handler formats it.  Only exceptions of
    [requests] reach the f-string; the texts of the built-in ones are given for
    completeness. *)
Definition exn_str (e : exn) : string :=
  match e with
  | ConnectionError msg | HTTPError msg | JSONDecodeError msg | ValueError msg => msg
  | KeyError key => "'" ++ key ++ "'"
  | TypeError => "unsupported operand"
  | AttributeError => "object has no attribute 'get'"
  | OverflowError => "(34, 'Numerical result out of range')"
  end.

(** ** The error monad *)

Inductive result (A : Type) : Type :=
| Ok (a : A)
| Raise (e : exn).
Arguments Ok {A} a.
Arguments Raise {A} e.

Definition bind {A B : Type} (r : result A) (k : A -> result B) : result B :=
  match r with
  | Ok a => k a
  | Raise e => Raise e
  end.

Notation "x <- e ;; k" := (bind e (fun x => k))
  (at level 61, e at next level, right associativity).

(** ** Floats of the interpreter *)

(** [float(n)] for a Python [int]: the nearest binary64 number, ties to even;
    an [int] beyond the range of a double rounds to an infinity here and is
    refused by [py_float_of_int]. *)
Definition Z2float (z : Z) : float := SF2Prim (binary_normalize prec emax z 0 false).

Definition py_float_of_int (z : Z) : result float :=
  let f := Z2float z in
  if is_infinity f then Raise OverflowError else Ok f.

(** The C library's [pow(x, 2.0)].  The C standard does not ask for a correctly
    rounded [pow]; the libraries CPython is built on return, on a finite
    argument, one of the two doubles that enclose the exact square, which is
    the product [x * x] or one of its two neighbours. *)
Class Libm : Type := {
  libm_pow2 : float -> float;
  libm_pow2_faithful : forall x : float,
    libm_pow2 x = (x * x)%float \/
    libm_pow2 x = next_up (x * x)%float \/
    libm_pow2 x = next_down (x * x)%float;
  (** The range error of [pow]: when even half of the square is beyond every
      double, the result is [HUGE_VAL]. *)
  libm_pow2_range : forall x : float,
    (x * x)%float = infinity -> (0.5 * x * x)%float = infinity ->
    libm_pow2 x = infinity
}.

(** A library whose [pow] is correctly rounded. *)
Definition exact_libm : Libm :=
  {| libm_pow2 := fun x => (x * x)%float;
     libm_pow2_faithful := fun x => or_introl eq_refl;
     libm_pow2_range := fun x H _ => H |}.

(** A float that is [+infinity] or NaN. *)
Definition pinf_or_nan (x : float) : Prop :=
  Prim2SF x = S754_infinity false \/ Prim2SF x = S754_nan.

(** ** The monitoring origin *)

Definition GMP_LATITUDE : float := 37.558%float.
Definition GMP_LONGITUDE : float := 126.794%float.
Definition MONITORING_RADIUS_KM : Z := 5.

Section Radius.
Context {libm : Libm}.

(** [x ** 2] on a float [x] (CPython's [float_pow] at the exponent [2.0]): the
    special values are settled first, a negative base is replaced by its
    absolute value, the C library computes the power, and an infinite result of
    the library is an [OverflowError]. *)
Definition float_pow2 (iv : float) : result float :=
  if is_nan iv then Ok iv
  else if is_infinity iv then Ok (abs iv)
  else if (iv =? 0)%float then Ok 0%float
  else
    let iv := if (iv <? 0)%float then (- iv)%float else iv in
    if (iv =? 1)%float then Ok 1%float
    else
      let ix := libm_pow2 iv in
      if is_infinity ix then Raise OverflowError else Ok ix.

(** [v - c] for a value [v] and a float constant [c]: an [int] (or a [bool],
    which is an [int]) is converted to a float first; any other operand type is
    a [TypeError]. *)
Definition py_sub_float (v : pyval) (c : float) : result float :=
  match v with
  | PFloat f => Ok (f - c)%float
  | PInt z => f <- py_float_of_int z ;; Ok (f - c)%float
  | PBool b => f <- py_float_of_int (if b then 1 else 0) ;; Ok (f - c)%float
  | PNone | PStr _ | PList _ | PDict _ => Raise TypeError
  end.

(** ** [is_within_radius] *)

Definition is_within_radius (lat lon : pyval) : result bool :=
  let deg_per_km := (1.0 / 111.0)%float in
  let radius_in_deg := (Z2float MONITORING_RADIUS_KM * deg_per_km)%float in
  dlat <- py_sub_float lat GMP_LATITUDE ;;
  dlat_sq <- float_pow2 dlat ;;
  dlon <- py_sub_float lon GMP_LONGITUDE ;;
  dlon_sq <- float_pow2 dlon ;;
  let distance_sq := (dlat_sq + dlon_sq)%float in
  radius_sq <- float_pow2 radius_in_deg ;;
  Ok (distance_sq <? radius_sq)%float.

(** ** Access to decoded JSON *)

Fixpoint dict_lookup (key : string) (d : list (string * pyval)) : option pyval :=
  match d with
  | [] => None
  | (k, v) :: rest => if String.eqb k key then Some v else dict_lookup key rest
  end.

(** [v[key]] for a string [key]: only a [dict] can be indexed by a string, and
    a missing key is a [KeyError]. *)
Definition py_getitem (v : pyval) (key : string) : result pyval :=
  match v with
  | PDict d =>
      match dict_lookup key d with
      | Some x => Ok x
      | None => Raise (KeyError key)
      end
  | PNone | PBool _ | PInt _ | PFloat _ | PStr _ | PList _ => Raise TypeError
  end.

(** [v.get(key, default)]: a method of [dict] only. *)
Definition py_get (v : pyval) (key : string) (default : pyval) : result pyval :=
  match v with
  | PDict d =>
      match dict_lookup key d with
      | Some x => Ok x
      | None => Ok default
      end
  | PNone | PBool _ | PInt _ | PFloat _ | PStr _ | PList _ => Raise AttributeError
  end.

(** The items a [for] clause takes from [v]: the elements of a list, the keys
    of a dict, the characters of a string; other values are not iterable. *)
Definition py_iter (v : pyval) : result (list pyval) :=
  match v with
  | PList l => Ok l
  | PDict d => Ok (map (fun kv => PStr (fst kv)) d)
  | PStr s => Ok (map (fun c => PStr (String c EmptyString)) (list_ascii_of_string s))
  | PNone | PBool _ | PInt _ | PFloat _ => Raise TypeError
  end.

(** The condition of the comprehension,
    [is_within_radius(strike['latitude'], strike['longitude'])]. *)
Definition strike_within_radius (strike : pyval) : result bool :=
  lat <- py_getitem strike "latitude" ;;
  lon <- py_getitem strike "longitude" ;;
  is_within_radius lat lon.

(** The comprehension [[strike for strike in all_strikes if ...]]: the items are
    taken in order, and the first exception ends it. *)
Fixpoint nearby (all_strikes : list pyval) : result (list pyval) :=
  match all_strikes with
  | [] => Ok []
  | strike :: rest =>
      keep <- strike_within_radius strike ;;
      tail <- nearby rest ;;
      Ok (if keep then strike :: tail else tail)
  end.

(** ** The outbound call *)

(** What [requests.get] hands back: the status line, the final URL, and what
    [response.json()] does with the body, which is to return the decoded value
    or to raise (a [JSONDecodeError] of [requests] from version 2.27 on, a
    plain [ValueError] before). *)
Record Response : Type := {
  status_code : Z;
  reason : string;
  url : string;
  json : result pyval
}.

Definition str_of_int (z : Z) : string := NilZero.string_of_int (Z.to_int z).

(** [response.raise_for_status()]: an [HTTPError] for the 4xx and 5xx codes,
    nothing for any other code. *)
Definition raise_for_status (r : Response) : result unit :=
  if (400 <=? status_code r) && (status_code r <? 500) then
    Raise (HTTPError (str_of_int (status_code r) ++ " Client Error: " ++ reason r
                      ++ " for url: " ++ url r))
  else if (500 <=? status_code r) && (status_code r <? 600) then
    Raise (HTTPError (str_of_int (status_code r) ++ " Server Error: " ++ reason r
                      ++ " for url: " ++ url r))
  else Ok tt.

(** [urljoin(base, path)] where [base] ends with its root path, as
    [request.host_url] does, and [path] is a relative path. *)
Definition urljoin (base path : string) : string := base ++ path.

(** What a handler returns to Flask: the status code and the value given to
    [jsonify]. *)
Record reply : Type := {
  reply_status : Z;
  reply_body : pyval
}.

(** ** [gmp_lightning_report] *)

Section Report.
(** The root URL of the incoming request, and the network as [requests.get]
    sees it: a transport failure is a raised [RequestException]. *)
Variable host_url : string.
Variable requests_get : string -> result Response.

(** The body of the [try] statement. *)
Definition report_try : result reply :=
  let kma_api_url := urljoin host_url "api/kma/lightning-strikes" in
  response <- requests_get kma_api_url ;;
  _ <- raise_for_status response ;;
  decoded <- json response ;;
  data <- py_get decoded "data" (PList []) ;;
  all_strikes <- py_iter data ;;
  nearby_strikes <- nearby all_strikes ;;
  Ok {| reply_status := 200;
        reply_body := PDict [("status", PStr "success");
                             ("report_for", PStr "Gimpo Airport (GMP)");
                             ("nearby_strikes_count", PInt (Z.of_nat (List.length nearby_strikes)));
                             ("strikes", PList nearby_strikes)] |}.

(** The [except requests.exceptions.RequestException as e] clause. *)
Definition report_except (e : exn) : result reply :=
  if is_RequestException e then
    Ok {| reply_status := 500;
          reply_body := PDict [("status", PStr "error");
                               ("message", PStr ("Failed to call KMA API: " ++ exn_str e))] |}
  else Raise e.

Definition gmp_lightning_report : result reply :=
  match report_try with
  | Ok r => Ok r
  | Raise e => report_except e
  end.

End Report.
End Radius.

(** ** [round(x, ndigits)] *)

(** The integer nearest to [a / d] for [0 < d], a tie going to the even one. *)
Definition round_half_even (a d : Z) : Z :=
  let q := a / d in
  match (2 * (a mod d)) ?= d with
  | Lt => q
  | Gt => q + 1
  | Eq => if Z.even q then q else q + 1
  end.

(** The double nearest to [n / d] for positive [n] and [d], with the sign [s]:
    the quotient is taken with more than 64 bits and a sticky last bit, which
    the final rounding to 53 bits cannot tell from the exact ratio. *)
Definition SF_of_ratio (s : bool) (n d : Z) : spec_float :=
  let k := Z.max 0 (64 + Z.log2 d - Z.log2 n) in
  let q := (n * 2 ^ k) / d in
  let sticky := if (n * 2 ^ k) mod d =? 0 then 0 else 1 in
  binary_normalize prec emax (cond_Zopp s (2 * q + sticky)) (- k - 1) false.

(** [round(x, ndigits)] on a float, for [0 <= ndigits]: the exact value of [x]
    is rounded to [ndigits] decimal places, ties to even, and the decimal
    result is converted back to the nearest double.  Infinities, NaN and zeros
    round to themselves, and so does every float when [ndigits] exceeds 323. *)
Definition py_round (x : float) (ndigits : Z) : float :=
  match Prim2SF x with
  | S754_finite s m e =>
      if 323 <? ndigits then x
      else
        let scale := 10 ^ ndigits in
        let n := if 0 <=? e then Zpos m * 2 ^ e * scale
                 else round_half_even (Zpos m * scale) (2 ^ (- e)) in
        if n =? 0 then (if s then (- 0)%float else 0%float)
        else SF2Prim (SF_of_ratio s n scale)
  | S754_zero _ | S754_infinity _ | S754_nan => x
  end.

(** ** The [random] module *)

(** A handler that draws from [random] is a tree: a leaf is its return value
    and a node is one call, [random.randint(a, b)] or [random.uniform(a, b)],
    with the rest of the handler for each number the call may return. *)
Inductive Rand (A : Type) : Type :=
| Ret (a : A)
| Randint (a b : Z) (k : Z -> Rand A)
| Uniform (a b : float) (k : float -> Rand A).
Arguments Ret {A} a.
Arguments Randint {A} a b k.
Arguments Uniform {A} a b k.

Fixpoint rbind {A B : Type} (p : Rand A) (f : A -> Rand B) : Rand B :=
  match p with
  | Ret a => f a
  | Randint a b k => Randint a b (fun n => rbind (k n) f)
  | Uniform a b k => Uniform a b (fun x => rbind (k x) f)
  end.

Definition randint (a b : Z) : Rand Z := Randint a b Ret.
Definition uniform (a b : float) : Rand float := Uniform a b Ret.

Notation "x <~ e ;; k" := (rbind e (fun x => k))
  (at level 61, e at next level, right associativity).

(** One call into [random] with the number it returned. *)
Inductive draw : Type :=
| IntDraw (a b n : Z)
| FloatDraw (a b x : float).

(** [runs p t r]: the handler [p] returns [r] when the calls it makes into
    [random] return, in order, the numbers of [t].  The module's contract bounds
    each number: [randint(a, b)] returns an integer [N] with [a <= N <= b], and
    [uniform(a, b)] a float [N] with [a <= N <= b]. *)
Inductive runs {A : Type} : Rand A -> list draw -> A -> Prop :=
| runs_Ret (a : A) : runs (Ret a) [] a
| runs_Randint (a b n : Z) (k : Z -> Rand A) (t : list draw) (r : A) :
    a <= n <= b -> runs (k n) t r -> runs (Randint a b k) (IntDraw a b n :: t) r
| runs_Uniform (a b x : float) (k : float -> Rand A) (t : list draw) (r : A) :
    (a <=? x)%float = true -> (x <=? b)%float = true ->
    runs (k x) t r -> runs (Uniform a b k) (FloatDraw a b x :: t) r.

(** ** [random_number] *)

Definition random_number : Rand reply :=
  number <~ randint 1 99 ;;
  Ret {| reply_status := 200; reply_body := PDict [("number", PInt number)] |}.

(** ** [kma_lightning_simulator] *)

(** The [for] loop, with [todo] iterations left and the list built so far. *)
Fixpoint simulate_strikes (todo : nat) (strikes : list pyval) : Rand (list pyval) :=
  match todo with
  | O => Ret strikes
  | S todo' =>
      lat_offset <~ uniform (- 0.06)%float 0.06%float ;;
      lon_offset <~ uniform (- 0.06)%float 0.06%float ;;
      id_number <~ randint 1000 9999 ;;
      intensity <~ randint 10 100 ;;
      let strike :=
        PDict [("id", PStr ("strike_" ++ str_of_int id_number));
               ("latitude", PFloat (py_round (GMP_LATITUDE + lat_offset)%float 6));
               ("longitude", PFloat (py_round (GMP_LONGITUDE + lon_offset)%float 6));
               ("intensity_kA", PInt intensity)] in
      simulate_strikes todo' (strikes ++ [strike])
  end.

Definition kma_lightning_simulator : Rand reply :=
  num_strikes <~ randint 0 5 ;;
  strikes <~ simulate_strikes (Z.to_nat num_strikes) [] ;;
  Ret {| reply_status := 200;
         reply_body := PDict [("status", PStr "success");
                              ("source", PStr "KMA Virtual Lightning Detector");
                              ("data", PList strikes)] |}.

(** ** The radius predicate as the specification words it *)

(** The specification's test read in the arithmetic of doubles: every
    subtraction, product and sum is rounded to the nearest double, and the
    square of a number is the rounded product of the number with itself. *)
Definition ieee_square (x : float) : float := (x * x)%float.

(** The radius in degrees, [radius_km * (1 / 111)]. *)
Definition spec_radius_in_deg : float :=
  (Z2float MONITORING_RADIUS_KM * (1 / 111))%float.

(** The squared planar distance, in degrees, from the origin (37.558, 126.794). *)
Definition ieee_distance_sq (lat lon : float) : float :=
  (ieee_square (lat - 37.558) + ieee_square (lon - 126.794))%float.

(** Strictly inside the radius. *)
Definition ieee_within_radius (lat lon : float) : bool :=
  (ieee_distance_sq lat lon <? ieee_square spec_radius_in_deg)%float.

(** [v] is the rounded product of [x] with itself or one of the two doubles
    next to it: the values that a [pow] accurate to one unit of the last place
    may return for the square of [x]. *)
Definition near_square (x v : float) : Prop :=
  v = (x * x)%float \/ v = next_up (x * x)%float \/ v = next_down (x * x)%float.

(** The specification's test read in exact arithmetic.  [Q_of_float] is the
    rational that a finite double stands for; the origin is the pair of
    decimals (37.558, 126.794) and the radius is 5/111 of a degree. *)
Definition Q_of_float (x : float) : Q :=
  match Prim2SF x with
  | S754_finite s m e => ((if s then - 1 else 1) * inject_Z (Zpos m) * Qpower 2 e)%Q
  | S754_zero _ | S754_infinity _ | S754_nan => 0%Q
  end.

Definition exact_distance_sq (lat lon : Q) : Q :=
  ((lat - (37558 # 1000)) * (lat - (37558 # 1000))
   + (lon - (126794 # 1000)) * (lon - (126794 # 1000)))%Q.

Definition exact_radius_sq : Q := ((5 # 111) * (5 # 111))%Q.

(** ** Strike records *)

Section RadiusSpec.
Context {libm : Libm}.

(** A strike record of the data model, and the JSON object that carries it. *)
Record StrikeRecord : Type := {
  strike_id : string;
  latitude : float;
  longitude : float;
  intensity_kA : Z
}.

Definition strike_value (s : StrikeRecord) : pyval :=
  PDict [("id", PStr (strike_id s));
         ("latitude", PFloat (latitude s));
         ("longitude", PFloat (longitude s));
         ("intensity_kA", PInt (intensity_kA s))].

(** The radius predicate of a record: what [is_within_radius] returns on its
    two coordinates, and [false] when it returns nothing. *)
Definition strike_inside (s : StrikeRecord) : bool :=
  match is_within_radius (PFloat (latitude s)) (PFloat (longitude s)) with
  | Ok inside => inside
  | Raise _ => false
  end.

(** The squares of the record's two offsets from the origin are doubles: neither
    [(latitude - 37.558) ** 2] nor [(longitude - 126.794) ** 2] overflows. *)
Definition squares_representable (s : StrikeRecord) : bool :=
  match float_pow2 (latitude s - GMP_LATITUDE)%float,
        float_pow2 (longitude s - GMP_LONGITUDE)%float with
  | Ok _, Ok _ => true
  | _, _ => false
  end.

End RadiusSpec.

(** ** The answers of the report as the specification words them *)

(** The body of the success response for the strikes [strikes]. *)
Definition success_reply (strikes : list pyval) : reply :=
  {| reply_status := 200;
     reply_body := PDict [("status", PStr "success");
                          ("report_for", PStr "Gimpo Airport (GMP)");
                          ("nearby_strikes_count", PInt (Z.of_nat (List.length strikes)));
                          ("strikes", PList strikes)] |}.

(** The error response with the message [message]. *)
Definition error_reply (message : string) : reply :=
  {| reply_status := 500;
     reply_body := PDict [("status", PStr "error"); ("message", PStr message)] |}.

(** The address of the simulator on the host of the request. *)
Definition kma_api_url (host_url : string) : string :=
  urljoin host_url "api/kma/lightning-strikes".

(** The three places of the [try] body where a [RequestException] can come
    from: the call itself (a failure of the transport), the status check (a
    4xx or 5xx code) and the decoding of the body. *)
Definition outbound_failure (host_url : string)
    (requests_get : string -> result Response) (e : exn) : Prop :=
  requests_get (kma_api_url host_url) = Raise e \/
  (exists resp : Response,
     requests_get (kma_api_url host_url) = Ok resp /\
     400 <= status_code resp < 600 /\
     raise_for_status resp = Raise e) \/
  (exists resp : Response,
     requests_get (kma_api_url host_url) = Ok resp /\
     raise_for_status resp = Ok tt /\
     json resp = Raise e).

(** A status code of the 2xx class. *)
Definition status_2xx (r : Response) : Prop := 200 <= status_code r < 300.


(** The body the simulator sends for the strikes [data]. *)
Definition simulator_body (data : pyval) : pyval :=
  PDict [("status", PStr "success");
         ("source", PStr "KMA Virtual Lightning Detector");
         ("data", data)].

(** ** The simulator as the specification words it *)

(** The four numbers drawn for one record. *)
Record strike_draws : Type := {
  lat_offset : float;
  lon_offset : float;
  id_number : Z;
  intensity : Z
}.

(** The numbers are in the ranges asked of the [random] module. *)
Definition draws_in_range (d : strike_draws) : Prop :=
  ((- 0.06 <=? lat_offset d)%float = true /\ (lat_offset d <=? 0.06)%float = true) /\
  ((- 0.06 <=? lon_offset d)%float = true /\ (lon_offset d <=? 0.06)%float = true) /\
  1000 <= id_number d <= 9999 /\
  10 <= intensity d <= 100.

(** The record made of the four numbers: the prefix and the drawn number as
    identifier, each coordinate of the origin moved by its offset and rounded
    to 6 decimal places, and the drawn intensity. *)
Definition strike_of_draws (d : strike_draws) : StrikeRecord :=
  {| strike_id := "strike_" ++ str_of_int (id_number d);
     latitude := py_round (37.558 + lat_offset d)%float 6;
     longitude := py_round (126.794 + lon_offset d)%float 6;
     intensity_kA := intensity d |}.

(** The JSON object of the record drawn as [d]. *)
Definition strike_json (d : strike_draws) : pyval := strike_value (strike_of_draws d).

(** The calls into [random] that one record takes, in their order. *)
Definition trace_of_draws (d : strike_draws) : list draw :=
  [FloatDraw (- 0.06)%float 0.06%float (lat_offset d);
   FloatDraw (- 0.06)%float 0.06%float (lon_offset d);
   IntDraw 1000 9999 (id_number d);
   IntDraw 10 100 (intensity d)].

(** The answer of the simulator with the strikes [strikes]. *)
Definition simulator_reply (strikes : list pyval) : reply :=
  {| reply_status := 200; reply_body := simulator_body (PList strikes) |}.

(** The answer of the random-number handler with the number [n]. *)
Definition number_reply (n : Z) : reply :=
  {| reply_status := 200; reply_body := PDict [("number", PInt n)] |}.

(** ** Probabilities of the answers *)

(** The integers [a], [a + 1], ..., [a + len - 1]. *)
Fixpoint Zrange (a : Z) (len : nat) : list Z :=
  match len with
  | O => []
  | S len' => a :: Zrange (a + 1) len'
  end.

(** The number [n] as a rational. *)
Definition Qc_of_nat (n : nat) : Qc := Q2Qc (inject_Z (Z.of_nat n)).

(** The mean of a list of rationals (0 for the empty list). *)
Definition mean (l : list Qc) : Qc :=
  (fold_right Qcplus 0 l / Qc_of_nat (List.length l))%Qc.

(** The expectation of [h] on the answer of a handler: [random.randint(a, b)]
    returns each integer from [a] to [b] with the same probability, and
    [random.uniform(a, b)] each float of the list [uniform_support a b] (in
    CPython the values [a + (b - a) * u] for the 2^53 equally likely values
    [u] of [random()]). *)
Section Expectation.
Variable uniform_support : float -> float -> list float.

Fixpoint expect {A : Type} (p : Rand A) (h : A -> Qc) : Qc :=
  match p with
  | Ret a => h a
  | Randint a b k =>
      mean (map (fun n => expect (k n) h) (Zrange a (Z.to_nat (b - a + 1))))
  | Uniform a b k =>
      mean (map (fun x => expect (k x) h) (uniform_support a b))
  end.

Definition probability {A : Type} (p : Rand A) (event : A -> bool) : Qc :=
  expect p (fun a => if event a then 1%Qc else 0%Qc).

End Expectation.

(** The number in the answer of the random-number handler is [n]. *)
Definition answers_number (n : Z) (r : reply) : bool :=
  match reply_body r with
  | PDict d =>
      match dict_lookup "number" d with
      | Some (PInt m) => m =? n
      | _ => false
      end
  | _ => false
  end.

(** The record [v] carries the identifier [id]. *)
Definition strike_has_id (id : string) (v : pyval) : bool :=
  match v with
  | PDict d =>
      match dict_lookup "id" d with
      | Some (PStr s) => String.eqb s id
      | _ => false
      end
  | _ => false
  end.

(** The list has [k] records and the one at the position [i] carries [id]. *)
Definition lists_id_at (k i : nat) (id : string) (strikes : list pyval) : bool :=
  Nat.eqb (List.length strikes) k &&
  match nth_error strikes i with
  | Some v => strike_has_id id v
  | None => false
  end.

(** The strikes listed in an answer of the simulator. *)
Definition reply_strikes (r : reply) : list pyval :=
  match reply_body r with
  | PDict d =>
      match dict_lookup "data" d with
      | Some (PList l) => l
      | _ => []
      end
  | _ => []
  end.

(** ** Operands, items and statuses *)

(** [isinstance(v, (int, float))]: the operands for which [v - 37.558] is
    defined; a [bool] is an [int]. *)
Definition is_number (v : pyval) : bool :=
  match v with
  | PBool _ | PInt _ | PFloat _ => true
  | PNone | PStr _ | PList _ | PDict _ => false
  end.

(** A NaN or one of the two infinities. *)
Definition not_finite (x : float) : bool := is_nan x || is_infinity x.

(** The condition of the comprehension returns on the item. *)
Definition decides {libm : Libm} (strike : pyval) : bool :=
  match strike_within_radius strike with
  | Ok _ => true
  | Raise _ => false
  end.

(** The condition of the comprehension is [True] on the item. *)
Definition keeps {libm : Libm} (strike : pyval) : bool :=
  match strike_within_radius strike with
  | Ok keep => keep
  | Raise _ => false
  end.

(** [isinstance(v, dict)] and [isinstance(v, list)]. *)
Definition is_dict (v : pyval) : bool :=
  match v with
  | PDict _ => true
  | PNone | PBool _ | PInt _ | PFloat _ | PStr _ | PList _ => false
  end.

Definition is_list (v : pyval) : bool :=
  match v with
  | PList _ => true
  | PNone | PBool _ | PInt _ | PFloat _ | PStr _ | PDict _ => false
  end.

(** A status code that [raise_for_status] lets through: any code that is not
    4xx or 5xx. *)
Definition status_passes (r : Response) : Prop :=
  status_code r < 400 \/ 600 <= status_code r.

(** ** Checks on the grid of rounded coordinates *)

(** The quotient of [SF_of_ratio] with [k] extra bits. *)
Definition ratio_quotient (k n : Z) : Z := n * 2 ^ k / 10 ^ 6.

(** Whether [sf] is the positive finite float [m * 2 ^ e]. *)
Definition SF_is (sf : spec_float) (m : positive) (e : Z) : bool :=
  match sf with
  | S754_finite false m' e' => Pos.eqb m' m && Z.eqb e' e
  | _ => false
  end.

(** Whether [x] is a zero or a finite float of mantissa at most [2 ^ 53] and of
    exponent at most [B], so at most [2 ^ (53 + B)] in magnitude. *)
Definition SF_small (B : Z) (x : spec_float) : bool :=
  match x with
  | S754_zero _ => true
  | S754_finite _ m e => (Zpos m <=? 2 ^ 53) && (e <=? B)
  | S754_infinity _ | S754_nan => false
  end.

(** The arithmetic facts about one coordinate of the origin, [M * 2 ^ (L - 72)]:
    an offset of at most 0.06 moves the mantissa by at most [K]; the sums
    round to the decimals [lo / 10 ^ 6] to [hi / 10 ^ 6]; the doubles nearest to
    these two decimals have the mantissas [Mlo] and [Mhi], and the doubles
    nearest to the decimals between them have mantissas in between. *)
Definition grid_check (M : positive) (K lo hi L : Z) (Mlo Mhi : positive) : bool :=
  let E := L - 72 in
  (-57 <? E) && (E <? 0) && (0 <=? L) &&
  (2 ^ 52 <=? Zpos M - K) && (Zpos M + K <? 2 ^ 53) &&
  (8646911284551352 <? K * 2 ^ (E + 57)) &&
  (round_half_even ((Zpos M - K) * 10 ^ 6) (2 ^ (- E)) =? lo) &&
  (round_half_even ((Zpos M + K) * 10 ^ 6) (2 ^ (- E)) =? hi) &&
  (0 <? lo) && (Z.log2 lo =? L) && (Z.log2 hi =? L) &&
  SF_is (SF_of_ratio false lo (10 ^ 6)) Mlo E &&
  SF_is (SF_of_ratio false hi (10 ^ 6)) Mhi E &&
  (2 ^ 64 <=? 2 * ratio_quotient (83 - L) (lo + 1)) &&
  (2 * ratio_quotient (83 - L) (hi - 1) + 1 <? (2 ^ 53 - 1) * 2 ^ 12) &&
  (Zpos Mlo <=? 2 * ratio_quotient (83 - L) (lo + 1) / 2 ^ 12) &&
  ((2 * ratio_quotient (83 - L) (hi - 1) + 1) / 2 ^ 12 + 1 <=? Zpos Mhi) &&
  (2 ^ 52 <=? Zpos Mlo) && (Zpos Mlo <=? Zpos Mhi) && (Zpos Mhi <? 2 ^ 53).

(** ** Sample inputs *)

(** A network on which the call returns the status [code] and a body that
    [response.json()] treats as [body]. *)
Definition network_returning (code : Z) (phrase : string) (body : result pyval)
  : string -> result Response :=
  fun address => Ok {| status_code := code; reason := phrase; url := address; json := body |}.

Definition sample_host_url : string := "http://localhost:5000/".

(** A record 2 thousandths of a degree north of the origin. *)
Definition near_strike (id : string) : StrikeRecord :=
  {| strike_id := id; latitude := 37.560; longitude := 126.795; intensity_kA := 50 |}.

(** A record 0.142 degrees north of the origin. *)
Definition north_strike : StrikeRecord :=
  {| strike_id := "strike_2000"; latitude := 37.700; longitude := 126.794;
     intensity_kA := 70 |}.

(** A record with finite coordinates far from the origin. *)
Definition far_strike : StrikeRecord :=
  {| strike_id := "strike_1000"; latitude := 1e200; longitude := 126.794;
     intensity_kA := 50 |}.

(** A record that lacks its latitude. *)
Definition strike_without_latitude : pyval :=
  PDict [("id", PStr "strike_1000"); ("longitude", PFloat 126.795);
         ("intensity_kA", PInt 50)].

(** A record that lacks its longitude. *)
Definition strike_without_longitude : pyval :=
  PDict [("id", PStr "strike_1000"); ("latitude", PFloat 37.560);
         ("intensity_kA", PInt 50)].

(** A network on which the call fails before any response. *)
Definition network_down : string -> result Response :=
  fun _ => Raise (ConnectionError "Connection refused").

(** The offset that CPython's [uniform(-0.06, 0.06)], which computes
    [a + (b - a) * random()], returns when the 53-bit number behind [random()]
    is [2^53 - 2^30]. *)
Definition sample_offset : float :=
  (- 0.06 + (0.06 - - 0.06) * (Z2float (2 ^ 53 - 2 ^ 30) * (1.0 / 9007199254740992.0)))%float.

(** Draws of one record whose latitude offset is [sample_offset]. *)
Definition sample_draws : strike_draws :=
  {| lat_offset := sample_offset; lon_offset := 0%float; id_number := 1000;
     intensity := 10 |}.

(** Draws of one record with the identifier number [n] and the intensity [c]. *)
Definition draws_with_id (n c : Z) : strike_draws :=
  {| lat_offset := 0%float; lon_offset := 0%float; id_number := n; intensity := c |}.


(** A point whose squared distance is the squared radius, bit for bit, when
    [pow] is correctly rounded. *)
Definition boundary_latitude : float := 0x1.2cd30947d3dd8p+5.
Definition boundary_longitude : float := 0x1.fb2d0e59e82f3p+6.

(** A library whose [pow] is correctly rounded except on the radius in
    degrees, where it returns the double above the rounded product. *)
Definition libm_above_on_radius : Libm.
Proof.
  refine {| libm_pow2 := fun x => if (x =? spec_radius_in_deg)%float
                                  then next_up (x * x) else (x * x)%float |}.
  - intros x. destruct (x =? spec_radius_in_deg)%float; auto.
  - intros x H _. rewrite H.
    destruct (x =? spec_radius_in_deg)%float; [vm_compute|]; reflexivity.
Defined.

(** Draws of one record at the origin, and of one record 0.06 degrees north of
    it. *)
Definition draws_inside : strike_draws := draws_with_id 1000 10.
Definition draws_outside : strike_draws := sample_draws.

(** The draws of the records of a pattern of inside and outside marks. *)
Definition draws_of_pattern (pattern : list bool) : list strike_draws :=
  map (fun inside : bool => if inside then draws_inside else draws_outside) pattern.

(** The record that one iteration of the simulator's loop builds from its four
    numbers. *)
Definition drawn_strike (lat_offset lon_offset : float) (id_number intensity : Z) : pyval :=
  PDict [("id", PStr ("strike_" ++ str_of_int id_number));
         ("latitude", PFloat (py_round (GMP_LATITUDE + lat_offset)%float 6));
         ("longitude", PFloat (py_round (GMP_LONGITUDE + lon_offset)%float 6));
         ("intensity_kA", PInt intensity)].

(** The record [v] has the intensity [c]. *)
Definition strike_has_intensity (c : Z) (v : pyval) : bool :=
  match v with
  | PDict d =>
      match dict_lookup "intensity_kA" d with
      | Some (PInt m) => m =? c
      | _ => false
      end
  | _ => false
  end.

(** The list has [k] records and the one at the position [i] passes [test]. *)
Definition lists_at (k i : nat) (test : pyval -> bool) (strikes : list pyval) : bool :=
  Nat.eqb (List.length strikes) k &&
  match nth_error strikes i with
  | Some v => test v
  | None => false
  end.

(** A record whose latitude is a string, and a list that holds it after a
    sound record. *)
Definition strike_with_text_latitude : pyval :=
  PDict [("id", PStr "strike_1000"); ("latitude", PStr "37.56");
         ("longitude", PFloat 126.795); ("intensity_kA", PInt 50)].


(** * Properties *)

(** ** The error monad *)

Lemma bind_Ok_inv {A B : Type} (r : result A) (k : A -> result B) (b : B) :
  bind r k = Ok b -> exists a, r = Ok a /\ k a = Ok b.
Proof. destruct r as [a|e]; simpl; [eauto | discriminate]. Qed.

Lemma bind_ret_r {A : Type} (r : result A) : bind r Ok = r.
Proof. now destruct r. Qed.

Lemma bind_assoc {A B C : Type} (r : result A) (f : A -> result B) (g : B -> result C) :
  bind (bind r f) g = bind r (fun a => bind (f a) g).
Proof. now destruct r. Qed.

(** ** Facts about binary64 comparisons and sums *)

Lemma eqb_true_ltb_false (x y : float) :
  (x =? y)%float = true -> (x <? y)%float = false.
Proof.
  rewrite FloatAxioms.eqb_spec, FloatAxioms.ltb_spec. unfold SFeqb, SFltb.
  destruct (SFcompare (Prim2SF x) (Prim2SF y)) as [[ | | ]|]; intros H;
    first [reflexivity | discriminate H].
Qed.

Lemma add_infinity_l (y : float) : pinf_or_nan (infinity + y)%float.
Proof.
  unfold pinf_or_nan. rewrite FloatAxioms.add_spec.
  change (Prim2SF infinity) with (S754_infinity false).
  destruct (Prim2SF y) as [s|[|]| |s m e]; simpl; auto.
Qed.

Lemma add_infinity_r (x : float) : pinf_or_nan (x + infinity)%float.
Proof.
  unfold pinf_or_nan. rewrite FloatAxioms.add_spec.
  change (Prim2SF infinity) with (S754_infinity false).
  destruct (Prim2SF x) as [s|[|]| |s m e]; simpl; auto.
Qed.

Lemma add_pinf_or_nan_l (x y : float) : pinf_or_nan x -> pinf_or_nan (x + y)%float.
Proof.
  intros [H|H]; unfold pinf_or_nan; rewrite FloatAxioms.add_spec, H.
  - destruct (Prim2SF y) as [s|[|]| |s m e]; simpl; auto.
  - auto.
Qed.

Lemma add_pinf_or_nan_r (x y : float) : pinf_or_nan y -> pinf_or_nan (x + y)%float.
Proof.
  intros [H|H]; unfold pinf_or_nan; rewrite FloatAxioms.add_spec, H.
  - destruct (Prim2SF x) as [s|[|]| |s m e]; simpl; auto.
  - destruct (Prim2SF x) as [s|[|]| |s m e]; simpl; auto.
Qed.

Lemma pinf_or_nan_ltb (x z : float) : pinf_or_nan x -> (x <? z)%float = false.
Proof.
  intros [H|H]; rewrite FloatAxioms.ltb_spec, H; unfold SFltb.
  - destruct (Prim2SF z) as [s|[|]| |[|] m e]; reflexivity.
  - reflexivity.
Qed.

Lemma pinf_or_nan_eqb (x z : float) :
  pinf_or_nan x -> (x =? z)%float = true -> Prim2SF z = S754_infinity false.
Proof.
  intros [H|H]; rewrite FloatAxioms.eqb_spec, H; unfold SFeqb.
  - destruct (Prim2SF z) as [s|[|]| |[|] m e]; simpl; intros E;
      first [reflexivity | discriminate E].
  - simpl. discriminate.
Qed.

Lemma Prim2SF_inj (x y : float) : Prim2SF x = Prim2SF y -> x = y.
Proof.
  intros H. rewrite <- (FloatAxioms.SF2Prim_Prim2SF x), <- (FloatAxioms.SF2Prim_Prim2SF y).
  now rewrite H.
Qed.

Lemma is_nan_Prim2SF (x : float) : is_nan x = true -> Prim2SF x = S754_nan.
Proof.
  unfold is_nan. rewrite FloatAxioms.eqb_spec. unfold SFeqb, SFcompare.
  destruct (Prim2SF x) as [s|s| |s m e]; try reflexivity.
  - discriminate.
  - destruct s; discriminate.
  - rewrite Z.compare_refl.
    change (PosDef.Pos.compare_cont Eq m m) with (Pos.compare m m).
    rewrite Pos.compare_refl. destruct s; discriminate.
Qed.

Lemma is_infinity_Prim2SF (x : float) :
  is_infinity x = true -> exists s : bool, Prim2SF x = S754_infinity s.
Proof.
  unfold is_infinity. rewrite FloatAxioms.eqb_spec, FloatAxioms.abs_spec.
  change (Prim2SF infinity) with (S754_infinity false).
  destruct (Prim2SF x) as [s|s| |s m e]; cbn; try discriminate. eauto.
Qed.

(** A float equal to a positive finite double is that double. *)
Lemma eqb_finite_eq (x c : float) (m : positive) (e : Z) :
  Prim2SF c = S754_finite false m e -> (x =? c)%float = true -> x = c.
Proof.
  intros Hc H. apply Prim2SF_inj. rewrite Hc.
  rewrite FloatAxioms.eqb_spec, Hc in H. unfold SFeqb, SFcompare in H.
  destruct (Prim2SF x) as [s|s| |s m' e']; try discriminate H.
  - destruct s; discriminate H.
  - destruct s; [discriminate H|].
    destruct (Z.compare_spec e' e) as [He| |]; try discriminate H.
    change (PosDef.Pos.compare_cont Eq m' m) with (Pos.compare m' m) in H.
    destruct (Pos.compare_spec m' m) as [Hm| |]; try discriminate H.
    now rewrite He, Hm.
Qed.

(** A float equal to zero is one of the two zeros. *)
Lemma eqb_zero_Prim2SF (x : float) :
  (x =? 0)%float = true -> exists s : bool, Prim2SF x = S754_zero s.
Proof.
  rewrite FloatAxioms.eqb_spec. change (Prim2SF 0) with (S754_zero false).
  unfold SFeqb, SFcompare.
  destruct (Prim2SF x) as [s|s| |s m e]; try discriminate; [eauto| |];
    destruct s; discriminate.
Qed.

Lemma mul_opp_opp (x : float) : (- x * - x)%float = (x * x)%float.
Proof.
  apply Prim2SF_inj. rewrite !FloatAxioms.mul_spec, FloatAxioms.opp_spec.
  unfold SF64mul, SFmul.
  destruct (Prim2SF x) as [s|s| |s m e]; cbn [SFopp]; try reflexivity;
    destruct s; reflexivity.
Qed.

(** A rounding overflows to the infinity of its own sign. *)
Lemma binary_round_aux_infinity (sx s : bool) (mx ex : Z) (lx : location) :
  binary_round_aux prec emax sx mx ex lx = S754_infinity s -> s = sx.
Proof.
  unfold binary_round_aux.
  destruct (shr_fexp prec emax mx ex lx) as [mrs1 e1].
  destruct (shr_fexp prec emax _ e1 loc_Exact) as [mrs2 e2].
  destruct (shr_m mrs2); try discriminate.
  destruct (e2 <=? emax - prec); [discriminate|]. intros H. now injection H.
Qed.

(** A product of a float with itself that is an infinity is [+infinity]. *)
Lemma square_infinite (x : float) :
  is_infinity (x * x) = true -> Prim2SF (x * x) = S754_infinity false.
Proof.
  intros H. destruct (is_infinity_Prim2SF _ H) as [s Hs]. rewrite Hs. f_equal.
  rewrite FloatAxioms.mul_spec in Hs. unfold SF64mul, SFmul in Hs.
  destruct (Prim2SF x) as [s0|s0| |s0 m e]; try discriminate Hs.
  - injection Hs as <-. now destruct s0.
  - apply binary_round_aux_infinity in Hs. rewrite Hs. now destruct s0.
Qed.

(** ** The radius predicate *)

Section RadiusProperties.
Context {libm : Libm}.

Lemma spec_radius_in_deg_value : spec_radius_in_deg = 0x1.71024e6a17102p-5%float.
Proof. vm_compute. reflexivity. Qed.

(** Squaring the radius never overflows: whatever the C library does within its
    accuracy, the square is one of three adjacent doubles. *)
Lemma float_pow2_radius :
  exists v : float,
    float_pow2 spec_radius_in_deg = Ok v /\
    (v = 0x1.09f3d3099414dp-9 \/ v = 0x1.09f3d3099414ep-9 \/ v = 0x1.09f3d3099414cp-9)%float.
Proof.
  rewrite spec_radius_in_deg_value. unfold float_pow2. cbn.
  destruct (libm_pow2_faithful 0x1.71024e6a17102p-5%float) as [H|[H|H]];
    rewrite H; vm_compute; eexists; split; try reflexivity; auto.
Qed.

Lemma float_pow2_raises (x : float) (e : exn) :
  float_pow2 x = Raise e -> e = OverflowError.
Proof.
  unfold float_pow2.
  repeat match goal with
         | |- context [if ?c then _ else _] => destruct c
         end; intros H; congruence.
Qed.

Lemma radius_sq_finite (v : float) :
  float_pow2 spec_radius_in_deg = Ok v -> Prim2SF v <> S754_infinity false.
Proof.
  intros Hv. destruct float_pow2_radius as (v' & Hv' & Hc).
  assert (v = v') by congruence. subst v'.
  destruct Hc as [-> | [-> | ->]]; vm_compute; discriminate.
Qed.

(** [is_within_radius] on two floats, step by step. *)
Lemma is_within_radius_floats (lat lon : float) :
  is_within_radius (PFloat lat) (PFloat lon) =
  (dlat_sq <- float_pow2 (lat - GMP_LATITUDE)%float ;;
   dlon_sq <- float_pow2 (lon - GMP_LONGITUDE)%float ;;
   radius_sq <- float_pow2 spec_radius_in_deg ;;
   Ok (dlat_sq + dlon_sq <? radius_sq)%float).
Proof. reflexivity. Qed.

(** The square that [float_pow2] computes: either the rounded product, in the
    cases that CPython settles by itself, or what the C library returns on the
    absolute value, whose rounded product is that of the number. *)
Lemma float_pow2_cases (x : float) :
  float_pow2 x = Ok (x * x)%float \/
  exists iv : float,
    (iv * iv)%float = (x * x)%float /\
    float_pow2 x = if is_infinity (libm_pow2 iv) then Raise OverflowError
                   else Ok (libm_pow2 iv).
Proof.
  unfold float_pow2.
  destruct (is_nan x) eqn:En.
  { left. f_equal. apply Prim2SF_inj.
    rewrite FloatAxioms.mul_spec, (is_nan_Prim2SF x En). reflexivity. }
  destruct (is_infinity x) eqn:Ei.
  { left. f_equal. apply Prim2SF_inj. destruct (is_infinity_Prim2SF x Ei) as [s Hs].
    rewrite FloatAxioms.abs_spec, FloatAxioms.mul_spec, Hs. now destruct s. }
  destruct (x =? 0)%float eqn:Ez.
  { left. f_equal. apply Prim2SF_inj. destruct (eqb_zero_Prim2SF x Ez) as [s Hs].
    rewrite FloatAxioms.mul_spec, Hs. now destruct s. }
  cbv zeta.
  assert (Hiv : ((if (x <? 0)%float then (- x)%float else x)
                 * (if (x <? 0)%float then (- x)%float else x))%float = (x * x)%float).
  { destruct (x <? 0)%float; [apply mul_opp_opp|reflexivity]. }
  destruct ((if (x <? 0)%float then (- x)%float else x) =? 1)%float eqn:E1.
  - left. f_equal. rewrite <- Hiv.
    rewrite (eqb_finite_eq _ 1%float 4503599627370496 (-52) eq_refl E1). reflexivity.
  - right. eexists. split; [exact Hiv|reflexivity].
Qed.

(** What [float_pow2] returns is within one unit of the last place of the
    rounded product. *)
Lemma float_pow2_near (x v : float) : float_pow2 x = Ok v -> near_square x v.
Proof.
  intros H. destruct (float_pow2_cases x) as [Hx|(iv & Hiv & Hx)]; rewrite Hx in H.
  - left. congruence.
  - destruct (is_infinity (libm_pow2 iv)); [discriminate H|].
    injection H as <-. unfold near_square. rewrite <- Hiv.
    apply libm_pow2_faithful.
Qed.

(** With a correctly rounded [pow], [float_pow2] returns the rounded product,
    and raises when the product of a finite float overflows. *)
Lemma float_pow2_correctly_rounded (x : float) :
  (forall y : float, libm_pow2 y = (y * y)%float) ->
  float_pow2 x = Ok (x * x)%float \/
  (float_pow2 x = Raise OverflowError /\ Prim2SF (x * x) = S754_infinity false).
Proof.
  intros Hex. destruct (float_pow2_cases x) as [Hx|(iv & Hiv & Hx)]; [now left|].
  rewrite Hex, Hiv in Hx. destruct (is_infinity (x * x)) eqn:Ei; [right|now left].
  split; [exact Hx|]. now apply square_infinite.
Qed.

Lemma radius_square_finite :
  Prim2SF (spec_radius_in_deg * spec_radius_in_deg) <> S754_infinity false.
Proof. vm_compute. discriminate. Qed.

(** C1 (amended).  On every point [(lat, lon)] of doubles, what
    [is_within_radius] returns is the strict comparison
    [(lat - 37.558)^2 + (lon - 126.794)^2 < (5 * (1 / 111))^2] evaluated in
    the arithmetic of doubles, each of the three squares being the value of
    the C library's [pow], which is the rounded product or one of the two
    doubles next to it; and its only exception is the [OverflowError] of a
    square.  With a correctly rounded [pow] it returns [True] exactly when
    that comparison holds with the rounded products, [False] when the two
    sides are the same double, and it raises only when a product overflows,
    where the comparison is false as well. *)
Theorem is_within_radius_iff_strictly_inside (lat lon : float) :
  (forall b : bool,
     is_within_radius (PFloat lat) (PFloat lon) = Ok b ->
     exists a c r : float,
       near_square (lat - 37.558) a /\ near_square (lon - 126.794) c /\
       near_square spec_radius_in_deg r /\ b = (a + c <? r)%float) /\
  (forall e : exn,
     is_within_radius (PFloat lat) (PFloat lon) = Raise e -> e = OverflowError) /\
  ((forall x : float, libm_pow2 x = (x * x)%float) ->
   (is_within_radius (PFloat lat) (PFloat lon) = Ok true <->
    ieee_within_radius lat lon = true) /\
   ((ieee_distance_sq lat lon =? ieee_square spec_radius_in_deg)%float = true ->
    is_within_radius (PFloat lat) (PFloat lon) = Ok false) /\
   (forall b : bool,
      is_within_radius (PFloat lat) (PFloat lon) = Ok b ->
      b = ieee_within_radius lat lon) /\
   (forall e : exn,
      is_within_radius (PFloat lat) (PFloat lon) = Raise e ->
      e = OverflowError /\ ieee_within_radius lat lon = false /\
      (Prim2SF (ieee_square (lat - 37.558)) = S754_infinity false \/
       Prim2SF (ieee_square (lon - 126.794)) = S754_infinity false))).
Proof.
  rewrite is_within_radius_floats.
  change 37.558%float with GMP_LATITUDE. change 126.794%float with GMP_LONGITUDE.
  split; [|split].
  - intros b H.
    destruct (float_pow2 (lat - GMP_LATITUDE)%float) as [a|ea] eqn:Ea; [|discriminate H].
    destruct (float_pow2 (lon - GMP_LONGITUDE)%float) as [c|ec] eqn:Ec; [|discriminate H].
    destruct (float_pow2 spec_radius_in_deg) as [r|er] eqn:Er; [|discriminate H].
    cbn [bind] in H. exists a, c, r.
    repeat split; try (apply float_pow2_near; assumption). congruence.
  - intros e H.
    destruct (float_pow2 (lat - GMP_LATITUDE)%float) as [a|ea] eqn:Ea;
      [|injection H as <-; exact (float_pow2_raises _ _ Ea)].
    destruct (float_pow2 (lon - GMP_LONGITUDE)%float) as [c|ec] eqn:Ec;
      [|injection H as <-; exact (float_pow2_raises _ _ Ec)].
    destruct (float_pow2 spec_radius_in_deg) as [r|er] eqn:Er;
      [discriminate H|injection H as <-; exact (float_pow2_raises _ _ Er)].
  - intros Hex. unfold ieee_within_radius, ieee_distance_sq, ieee_square.
    change 37.558%float with GMP_LATITUDE. change 126.794%float with GMP_LONGITUDE.
    pose proof radius_square_finite as Hfin.
    set (r2 := (spec_radius_in_deg * spec_radius_in_deg)%float) in *.
    assert (Hr : float_pow2 spec_radius_in_deg = Ok r2).
    { destruct (float_pow2_correctly_rounded spec_radius_in_deg Hex) as [H|[_ H]];
        [exact H|contradiction]. }
    rewrite Hr.
    destruct (float_pow2_correctly_rounded (lat - GMP_LATITUDE) Hex) as [->|[-> Ha]];
      destruct (float_pow2_correctly_rounded (lon - GMP_LONGITUDE) Hex) as [->|[-> Hc]];
      cbv beta iota delta [bind].
    + repeat split; intros; try congruence.
      f_equal. now apply eqb_true_ltb_false.
    + assert (Hinf : pinf_or_nan ((lat - GMP_LATITUDE) * (lat - GMP_LATITUDE)
                                  + (lon - GMP_LONGITUDE) * (lon - GMP_LONGITUDE)))
        by (apply add_pinf_or_nan_r; left; exact Hc).
      rewrite (pinf_or_nan_ltb _ r2 Hinf).
      repeat split; intros; try congruence; auto.
      exfalso. apply Hfin. eapply pinf_or_nan_eqb; eassumption.
    + assert (Hinf : pinf_or_nan ((lat - GMP_LATITUDE) * (lat - GMP_LATITUDE)
                                  + (lon - GMP_LONGITUDE) * (lon - GMP_LONGITUDE)))
        by (apply add_pinf_or_nan_l; left; exact Ha).
      rewrite (pinf_or_nan_ltb _ r2 Hinf).
      repeat split; intros; try congruence; auto.
      exfalso. apply Hfin. eapply pinf_or_nan_eqb; eassumption.
    + assert (Hinf : pinf_or_nan ((lat - GMP_LATITUDE) * (lat - GMP_LATITUDE)
                                  + (lon - GMP_LONGITUDE) * (lon - GMP_LONGITUDE)))
        by (apply add_pinf_or_nan_l; left; exact Ha).
      rewrite (pinf_or_nan_ltb _ r2 Hinf).
      repeat split; intros; try congruence; auto.
      exfalso. apply Hfin. eapply pinf_or_nan_eqb; eassumption.
Qed.

End RadiusProperties.

(** ** The filter of the report *)

Section FilterProperties.
Context {libm : Libm}.

Lemma nearby_cons (strike : pyval) (rest : list pyval) :
  nearby (strike :: rest) =
  (keep <- strike_within_radius strike ;;
   tail <- nearby rest ;;
   Ok (if keep then strike :: tail else tail)).
Proof. reflexivity. Qed.

(** Every item the filter keeps satisfies the condition. *)
Lemma nearby_kept (xs ys : list pyval) :
  nearby xs = Ok ys -> Forall (fun y => strike_within_radius y = Ok true) ys.
Proof.
  revert ys. induction xs as [|x xs IH]; intros ys H.
  - injection H as <-. constructor.
  - rewrite nearby_cons in H.
    apply bind_Ok_inv in H as (keep & Hkeep & H).
    apply bind_Ok_inv in H as (tail & Htail & H).
    injection H as <-. specialize (IH tail Htail).
    destruct keep; [constructor|]; assumption.
Qed.

(** A list whose items all satisfy the condition passes unchanged. *)
Lemma nearby_all_inside (xs : list pyval) :
  Forall (fun x => strike_within_radius x = Ok true) xs -> nearby xs = Ok xs.
Proof.
  induction 1 as [|x xs Hx _ IH]; [reflexivity|].
  rewrite nearby_cons, Hx. cbn [bind]. rewrite IH. reflexivity.
Qed.

(** C5.  Filtering by the radius predicate is idempotent: a list whose records
    all satisfy the predicate is returned as it is, and filtering the result of
    a filter returns that result again (the predicate reads the coordinates
    and nothing else, so a second pass decides each record as the first did). *)
Theorem nearby_idempotent :
  (forall xs : list pyval,
     Forall (fun x => strike_within_radius x = Ok true) xs -> nearby xs = Ok xs) /\
  (forall xs : list pyval, (ys <- nearby xs ;; nearby ys) = nearby xs) /\
  (forall xs ys : list pyval, nearby xs = Ok ys -> nearby ys = Ok ys).
Proof.
  assert (Hthird : forall xs ys, nearby xs = Ok ys -> nearby ys = Ok ys).
  { intros xs ys H. apply nearby_all_inside. exact (nearby_kept xs ys H). }
  split; [exact nearby_all_inside|]. split; [|exact Hthird].
  intros xs. destruct (nearby xs) as [ys|e] eqn:E; cbn [bind]; [|reflexivity].
  exact (Hthird xs ys E).
Qed.

End FilterProperties.

(** ** The report *)

Section ReportProperties.
Context {libm : Libm}.
Variable host_url : string.
Variable requests_get : string -> result Response.

Lemma raise_for_status_2xx (r : Response) :
  status_2xx r -> raise_for_status r = Ok tt.
Proof.
  unfold status_2xx, raise_for_status. intros H.
  replace (400 <=? status_code r) with false by (symmetry; apply Z.leb_gt; lia).
  replace (500 <=? status_code r) with false by (symmetry; apply Z.leb_gt; lia).
  reflexivity.
Qed.

Lemma raise_for_status_raises (r : Response) (e : exn) :
  raise_for_status r = Raise e ->
  400 <= status_code r < 600 /\ is_RequestException e = true.
Proof.
  unfold raise_for_status.
  destruct ((400 <=? status_code r) && (status_code r <? 500)) eqn:E4;
    [|destruct ((500 <=? status_code r) && (status_code r <? 600)) eqn:E5];
    intros H; try discriminate H; injection H as <-;
    [apply andb_prop in E4 as [A B] | apply andb_prop in E5 as [A B]];
    apply Z.leb_le in A; apply Z.ltb_lt in B; split; (lia || reflexivity).
Qed.

Lemma raise_for_status_4xx_5xx (r : Response) :
  400 <= status_code r < 600 ->
  exists msg : string, raise_for_status r = Raise (HTTPError msg).
Proof.
  intros H. unfold raise_for_status.
  destruct (Z.lt_ge_cases (status_code r) 500) as [L|G].
  - replace (400 <=? status_code r) with true by (symmetry; apply Z.leb_le; lia).
    replace (status_code r <? 500) with true by (symmetry; apply Z.ltb_lt; lia).
    cbn [andb]. eauto.
  - replace (status_code r <? 500) with false by (symmetry; apply Z.ltb_ge; lia).
    rewrite andb_false_r.
    replace (500 <=? status_code r) with true by (symmetry; apply Z.leb_le; lia).
    replace (status_code r <? 600) with true by (symmetry; apply Z.ltb_lt; lia).
    cbn [andb]. eauto.
Qed.

(** The handler once the call has returned a response that passes
    [raise_for_status] and decodes to an object whose [data] is a list. *)
Lemma report_on_list (resp : Response) (d : list (string * pyval)) (items : list pyval) :
  requests_get (kma_api_url host_url) = Ok resp ->
  raise_for_status resp = Ok tt ->
  json resp = Ok (PDict d) ->
  dict_lookup "data" d = Some (PList items) ->
  gmp_lightning_report host_url requests_get =
  match nearby items with
  | Ok nearby_strikes => Ok (success_reply nearby_strikes)
  | Raise e => report_except e
  end.
Proof.
  intros Hget Hstatus Hjson Hdata.
  unfold gmp_lightning_report, report_try.
  change (urljoin host_url "api/kma/lightning-strikes") with (kma_api_url host_url).
  rewrite Hget. cbn [bind]. rewrite Hstatus. cbn [bind]. rewrite Hjson.
  cbn [bind py_get]. rewrite Hdata. cbn [bind py_iter].
  destruct (nearby items); reflexivity.
Qed.

(** The condition of the comprehension on the JSON object of a record. *)
Lemma strike_within_radius_value (s : StrikeRecord) :
  strike_within_radius (strike_value s) =
  is_within_radius (PFloat (latitude s)) (PFloat (longitude s)).
Proof. reflexivity. Qed.

Lemma strike_within_radius_representable (s : StrikeRecord) :
  squares_representable s = true ->
  strike_within_radius (strike_value s) = Ok (strike_inside s).
Proof.
  unfold squares_representable, strike_inside. intros H.
  rewrite strike_within_radius_value.
  destruct (is_within_radius (PFloat (latitude s)) (PFloat (longitude s)))
    as [b|e] eqn:E; [reflexivity|].
  exfalso. rewrite is_within_radius_floats in E.
  destruct (float_pow2 (latitude s - GMP_LATITUDE)%float); [|discriminate H].
  destruct (float_pow2 (longitude s - GMP_LONGITUDE)%float); [|discriminate H].
  destruct float_pow2_radius as (r2 & Hr & _).
  cbn [bind] in E. rewrite Hr in E. discriminate E.
Qed.

(** On records whose squares are representable the comprehension is the
    order-preserving filter by the radius predicate. *)
Lemma nearby_strike_values (recs : list StrikeRecord) :
  forallb squares_representable recs = true ->
  nearby (map strike_value recs) = Ok (map strike_value (filter strike_inside recs)).
Proof.
  induction recs as [|s recs IH]; intros H; [reflexivity|].
  cbn [forallb] in H. apply andb_prop in H as [Hs Hrecs].
  cbn [map filter]. rewrite nearby_cons.
  rewrite (strike_within_radius_representable s Hs). cbn [bind].
  rewrite (IH Hrecs). cbn [bind].
  destruct (strike_inside s); reflexivity.
Qed.

End ReportProperties.

(** ** Concrete points *)

Ltac libm_cases :=
  repeat match goal with
         | |- context [libm_pow2 ?x] =>
             let H := fresh "Hpow" in
             destruct (libm_pow2_faithful x) as [H|[H|H]]; rewrite H; clear H
         end.

Section ConcretePoints.
Context {libm : Libm}.

Lemma origin_is_inside :
  is_within_radius (PFloat 37.558) (PFloat 126.794) = Ok true.
Proof.
  rewrite is_within_radius_floats. cbv -[libm_pow2]. libm_cases; vm_compute; reflexivity.
Qed.

Lemma north_point_is_outside :
  is_within_radius (PFloat 37.700) (PFloat 126.794) = Ok false.
Proof.
  rewrite is_within_radius_floats. cbv -[libm_pow2]. libm_cases; vm_compute; reflexivity.
Qed.

Lemma near_strike_is_inside (id : string) :
  strike_within_radius (strike_value (near_strike id)) = Ok true.
Proof.
  rewrite strike_within_radius_value, is_within_radius_floats.
  cbv -[libm_pow2]. libm_cases; vm_compute; reflexivity.
Qed.

End ConcretePoints.

(** ** The report on well-formed and on malformed answers *)

Section ReportClaims.
Context {libm : Libm}.
Variable host_url : string.
Variable requests_get : string -> result Response.

(** C8.  A 2xx response whose body is a JSON object without a [data] field is
    read as an empty list of strikes: the handler answers with the success
    response, [strikes] empty and [nearby_strikes_count] zero. *)
Theorem report_without_data_field (resp : Response) (d : list (string * pyval)) :
  requests_get (kma_api_url host_url) = Ok resp ->
  status_2xx resp ->
  json resp = Ok (PDict d) ->
  dict_lookup "data" d = None ->
  gmp_lightning_report host_url requests_get =
  Ok {| reply_status := 200;
        reply_body := PDict [("status", PStr "success");
                             ("report_for", PStr "Gimpo Airport (GMP)");
                             ("nearby_strikes_count", PInt 0);
                             ("strikes", PList [])] |}.
Proof.
  intros Hget Hstatus Hjson Hdata.
  unfold gmp_lightning_report, report_try.
  change (urljoin host_url "api/kma/lightning-strikes") with (kma_api_url host_url).
  rewrite Hget. cbn [bind]. rewrite (raise_for_status_2xx resp Hstatus).
  cbn [bind]. rewrite Hjson. cbn [bind py_get]. rewrite Hdata. reflexivity.
Qed.

(** C6.  With the origin (37.558, 126.794) and the radius of 5 km, which is
    between 0.045045 and 0.045046 degrees: the origin itself is inside, the
    point (37.700, 126.794) is outside, and when the data of the simulator is
    the single record at (37.560, 126.795) with intensity 50 the report holds
    that record and counts one strike. *)
Theorem report_examples :
  (0.045045 <=? spec_radius_in_deg)%float = true /\
  (spec_radius_in_deg <=? 0.045046)%float = true /\
  is_within_radius (PFloat 37.558) (PFloat 126.794) = Ok true /\
  is_within_radius (PFloat 37.700) (PFloat 126.794) = Ok false /\
  (forall (resp : Response) (d : list (string * pyval)) (id : string),
     requests_get (kma_api_url host_url) = Ok resp ->
     status_2xx resp ->
     json resp = Ok (PDict d) ->
     dict_lookup "data" d = Some (PList [strike_value (near_strike id)]) ->
     gmp_lightning_report host_url requests_get =
     Ok {| reply_status := 200;
           reply_body := PDict [("status", PStr "success");
                                ("report_for", PStr "Gimpo Airport (GMP)");
                                ("nearby_strikes_count", PInt 1);
                                ("strikes", PList [strike_value (near_strike id)])] |}).
Proof.
  split; [vm_compute; reflexivity|]. split; [vm_compute; reflexivity|].
  split; [exact origin_is_inside|]. split; [exact north_point_is_outside|].
  intros resp d id Hget Hstatus Hjson Hdata.
  rewrite (report_on_list host_url requests_get resp d _ Hget
             (raise_for_status_2xx resp Hstatus) Hjson Hdata).
  rewrite nearby_cons, near_strike_is_inside. reflexivity.
Qed.

End ReportClaims.

(** ** The error path of the report *)

Section ErrorPath.
Context {libm : Libm}.

Lemma py_sub_float_raises (v : pyval) (c : float) (e : exn) :
  py_sub_float v c = Raise e -> is_RequestException e = false.
Proof.
  destruct v as [ |b|z|f|s|l|d]; cbn [py_sub_float]; intros H;
    try discriminate H; try (injection H as <-; reflexivity);
    unfold py_float_of_int in H;
    match type of H with
    | context [if ?c then _ else _] => destruct c
    end; cbn [bind] in H; try discriminate H; injection H as <-; reflexivity.
Qed.

Lemma is_within_radius_raises (lat lon : pyval) (e : exn) :
  is_within_radius lat lon = Raise e -> is_RequestException e = false.
Proof.
  unfold is_within_radius. cbv zeta.
  destruct (py_sub_float lat GMP_LATITUDE) as [dlat|e1] eqn:E1; cbn [bind];
    [|intros H; injection H as <-; exact (py_sub_float_raises _ _ _ E1)].
  destruct (float_pow2 dlat) as [a|e2] eqn:E2; cbn [bind];
    [|intros H; injection H as <-; now rewrite (float_pow2_raises _ _ E2)].
  destruct (py_sub_float lon GMP_LONGITUDE) as [dlon|e3] eqn:E3; cbn [bind];
    [|intros H; injection H as <-; exact (py_sub_float_raises _ _ _ E3)].
  destruct (float_pow2 dlon) as [b|e4] eqn:E4; cbn [bind];
    [|intros H; injection H as <-; now rewrite (float_pow2_raises _ _ E4)].
  match goal with
  | |- context [float_pow2 ?r] => destruct (float_pow2 r) as [r2|e5] eqn:E5
  end; cbn [bind]; intros H; [discriminate H|].
  injection H as <-. now rewrite (float_pow2_raises _ _ E5).
Qed.

Lemma py_getitem_raises (v : pyval) (key : string) (e : exn) :
  py_getitem v key = Raise e -> is_RequestException e = false.
Proof.
  destruct v as [ |b|z|f|s|l|d]; cbn [py_getitem]; intros H;
    try (injection H as <-; reflexivity).
  destruct (dict_lookup key d); [discriminate H|]. injection H as <-. reflexivity.
Qed.

Lemma strike_within_radius_raises (strike : pyval) (e : exn) :
  strike_within_radius strike = Raise e -> is_RequestException e = false.
Proof.
  unfold strike_within_radius.
  destruct (py_getitem strike "latitude") as [lat|e1] eqn:E1; cbn [bind];
    [|intros H; injection H as <-; exact (py_getitem_raises _ _ _ E1)].
  destruct (py_getitem strike "longitude") as [lon|e2] eqn:E2; cbn [bind];
    [|intros H; injection H as <-; exact (py_getitem_raises _ _ _ E2)].
  apply is_within_radius_raises.
Qed.

Lemma nearby_raises (xs : list pyval) (e : exn) :
  nearby xs = Raise e -> is_RequestException e = false.
Proof.
  induction xs as [|x xs IH]; [discriminate|].
  rewrite nearby_cons.
  destruct (strike_within_radius x) as [keep|e1] eqn:E1; cbn [bind];
    [|intros H; injection H as <-; exact (strike_within_radius_raises _ _ E1)].
  destruct (nearby xs) as [tail|e2]; cbn [bind]; intros H; [discriminate H|].
  injection H as <-. now apply IH.
Qed.

Lemma py_get_raises (v : pyval) (key : string) (default : pyval) (e : exn) :
  py_get v key default = Raise e -> is_RequestException e = false.
Proof.
  destruct v as [ |b|z|f|s|l|d]; cbn [py_get]; intros H;
    try (injection H as <-; reflexivity).
  destruct (dict_lookup key d); discriminate H.
Qed.

Lemma py_iter_raises (v : pyval) (e : exn) :
  py_iter v = Raise e -> is_RequestException e = false.
Proof.
  destruct v as [ |b|z|f|s|l|d]; cbn [py_iter]; intros H;
    try discriminate H; injection H as <-; reflexivity.
Qed.

Variable host_url : string.
Variable requests_get : string -> result Response.

Lemma report_try_outcome :
  (exists strikes : list pyval,
     report_try host_url requests_get = Ok (success_reply strikes)) \/
  (exists e : exn,
     report_try host_url requests_get = Raise e /\
     (is_RequestException e = true -> outbound_failure host_url requests_get e)).
Proof.
  unfold report_try, outbound_failure.
  change (urljoin host_url "api/kma/lightning-strikes") with (kma_api_url host_url).
  destruct (requests_get (kma_api_url host_url)) as [resp|e0] eqn:Hget; cbn [bind];
    [|right; exists e0; auto].
  destruct (raise_for_status resp) as [[]|e1] eqn:Hs; cbn [bind].
  2:{ right. exists e1. split; [reflexivity|]. intros _. right. left.
      exists resp. destruct (raise_for_status_raises resp e1 Hs). auto. }
  destruct (json resp) as [decoded|e2] eqn:Hj; cbn [bind].
  2:{ right. exists e2. split; [reflexivity|]. intros _. right. right.
      exists resp. auto. }
  destruct (py_get decoded "data" (PList [])) as [data|e3] eqn:Hd; cbn [bind].
  2:{ right. exists e3. split; [reflexivity|]. intros He.
      rewrite (py_get_raises _ _ _ _ Hd) in He. discriminate He. }
  destruct (py_iter data) as [items|e4] eqn:Hi; cbn [bind].
  2:{ right. exists e4. split; [reflexivity|]. intros He.
      rewrite (py_iter_raises _ _ Hi) in He. discriminate He. }
  destruct (nearby items) as [kept|e5] eqn:Hn; cbn [bind].
  2:{ right. exists e5. split; [reflexivity|]. intros He.
      rewrite (nearby_raises _ _ Hn) in He. discriminate He. }
  left. exists kept. reflexivity.
Qed.

Lemma report_except_request (e : exn) :
  is_RequestException e = true ->
  report_except e = Ok (error_reply ("Failed to call KMA API: " ++ exn_str e)).
Proof. unfold report_except. intros ->. reflexivity. Qed.

Lemma report_of_try_raise (e : exn) :
  report_try host_url requests_get = Raise e ->
  gmp_lightning_report host_url requests_get = report_except e.
Proof. unfold gmp_lightning_report. intros ->. reflexivity. Qed.

Lemma outbound_failure_try (e : exn) :
  outbound_failure host_url requests_get e ->
  report_try host_url requests_get = Raise e.
Proof.
  unfold outbound_failure, report_try.
  change (urljoin host_url "api/kma/lightning-strikes") with (kma_api_url host_url).
  intros [H|[(resp & Hget & _ & Hs)|(resp & Hget & Hs & Hj)]].
  - rewrite H. reflexivity.
  - rewrite Hget. cbn [bind]. rewrite Hs. reflexivity.
  - rewrite Hget. cbn [bind]. rewrite Hs. cbn [bind]. rewrite Hj. reflexivity.
Qed.

(** C3 (amended).  A failure of the transport (a [RequestException] raised by
    the call) and a 4xx or 5xx status both end in the HTTP status 500 with the
    body [{status: "error", message}], the message being the fixed prefix
    followed by the text of the error, and so does a [RequestException] raised
    by the decoding of the body: every [RequestException] of the call, of the
    status check or of the decoding gives that response.  This is the only
    error response: every answer of the handler is either that one, after such
    a [RequestException], or the success response; and an exception that
    leaves the handler is never a [RequestException]. *)
Theorem report_error_path :
  (forall e : exn,
     requests_get (kma_api_url host_url) = Raise e ->
     is_RequestException e = true ->
     gmp_lightning_report host_url requests_get =
     Ok {| reply_status := 500;
           reply_body := PDict [("status", PStr "error");
                                ("message", PStr ("Failed to call KMA API: " ++ exn_str e))] |}) /\
  (forall resp : Response,
     requests_get (kma_api_url host_url) = Ok resp ->
     400 <= status_code resp < 600 ->
     exists msg : string,
       raise_for_status resp = Raise (HTTPError msg) /\
       gmp_lightning_report host_url requests_get =
       Ok {| reply_status := 500;
             reply_body := PDict [("status", PStr "error");
                                  ("message", PStr ("Failed to call KMA API: " ++ msg))] |}) /\
  (forall (resp : Response) (e : exn),
     requests_get (kma_api_url host_url) = Ok resp ->
     raise_for_status resp = Ok tt ->
     json resp = Raise e ->
     is_RequestException e = true ->
     gmp_lightning_report host_url requests_get =
     Ok {| reply_status := 500;
           reply_body := PDict [("status", PStr "error");
                                ("message", PStr ("Failed to call KMA API: " ++ exn_str e))] |}) /\
  (forall e : exn,
     outbound_failure host_url requests_get e ->
     is_RequestException e = true ->
     gmp_lightning_report host_url requests_get =
     Ok (error_reply ("Failed to call KMA API: " ++ exn_str e))) /\
  (forall r : reply,
     gmp_lightning_report host_url requests_get = Ok r ->
     (exists strikes : list pyval, r = success_reply strikes) \/
     (exists e : exn,
        outbound_failure host_url requests_get e /\
        is_RequestException e = true /\
        r = error_reply ("Failed to call KMA API: " ++ exn_str e))) /\
  (forall e : exn,
     gmp_lightning_report host_url requests_get = Raise e ->
     report_try host_url requests_get = Raise e /\ is_RequestException e = false).
Proof.
  assert (Hfail : forall e : exn,
             outbound_failure host_url requests_get e ->
             is_RequestException e = true ->
             gmp_lightning_report host_url requests_get =
             Ok (error_reply ("Failed to call KMA API: " ++ exn_str e))).
  { intros e Hout He.
    rewrite (report_of_try_raise e (outbound_failure_try e Hout)).
    exact (report_except_request e He). }
  split; [|split; [|split; [|split; [|split]]]].
  - intros e Hget He. apply (Hfail e); [|exact He]. left. exact Hget.
  - intros resp Hget Hcode.
    destruct (raise_for_status_4xx_5xx resp Hcode) as (msg & Hs).
    exists msg. split; [exact Hs|].
    apply (Hfail (HTTPError msg)); [|reflexivity].
    right. left. exists resp. auto.
  - intros resp e Hget Hs Hj He. apply (Hfail e); [|exact He].
    right. right. exists resp. auto.
  - exact Hfail.
  - intros r Hr. unfold gmp_lightning_report in Hr.
    destruct report_try_outcome as [(strikes & Ht)|(e & Ht & Hfrom)];
      rewrite Ht in Hr.
    + left. exists strikes. congruence.
    + right. exists e. unfold report_except in Hr.
      destruct (is_RequestException e) eqn:He; [|discriminate Hr].
      injection Hr as <-. auto.
  - intros e He. unfold gmp_lightning_report in He.
    destruct (report_try host_url requests_get) as [r|e'] eqn:Ht; [discriminate He|].
    unfold report_except in He.
    destruct (is_RequestException e') eqn:He'; [discriminate He|].
    injection He as <-. auto.
Qed.

End ErrorPath.

(** ** Answers that the handler does not catch *)

Section Uncaught.
Context {libm : Libm}.
Variable host_url : string.

Lemma report_on_network (code : Z) (phrase : string) (items : list pyval) :
  200 <= code < 300 ->
  gmp_lightning_report host_url
    (network_returning code phrase (Ok (simulator_body (PList items)))) =
  match nearby items with
  | Ok nearby_strikes => Ok (success_reply nearby_strikes)
  | Raise e => report_except e
  end.
Proof.
  intros Hcode.
  apply (report_on_list host_url _
           {| status_code := code; reason := phrase; url := kma_api_url host_url;
              json := Ok (simulator_body (PList items)) |}
           [("status", PStr "success");
            ("source", PStr "KMA Virtual Lightning Detector");
            ("data", PList items)]); try reflexivity.
  apply raise_for_status_2xx. exact Hcode.
Qed.

(** The comprehension stops at the first record without the key [key]. *)
Lemma nearby_missing_key (goods : list StrikeRecord) (bad : list (string * pyval))
    (rest : list pyval) (key : string) :
  forallb squares_representable goods = true ->
  strike_within_radius (PDict bad) = Raise (KeyError key) ->
  nearby (map strike_value goods ++ PDict bad :: rest) = Raise (KeyError key).
Proof.
  intros Hgoods Hbad. induction goods as [|s goods IH].
  - cbn [map app]. rewrite nearby_cons, Hbad. reflexivity.
  - cbn [forallb] in Hgoods. apply andb_prop in Hgoods as [Hs Hgoods].
    cbn [map app]. rewrite nearby_cons.
    rewrite (strike_within_radius_representable s Hs). cbn [bind].
    rewrite (IH Hgoods). reflexivity.
Qed.

(** C10.  The handler catches [RequestException] and nothing else: an exception
    of another class leaves it, and no error body is produced.  This happens
    on 2xx responses: when the decoding of an invalid body raises a plain
    [ValueError], and when a record of the [data] list, the ones before it
    being sound, lacks the key [latitude] or the key [longitude]
    ([KeyError]). *)
Theorem report_catches_only_request_exceptions :
  (forall (requests_get : string -> result Response) (e : exn),
     report_try host_url requests_get = Raise e ->
     is_RequestException e = false ->
     gmp_lightning_report host_url requests_get = Raise e) /\
  (forall (code : Z) (phrase msg : string),
     200 <= code < 300 ->
     gmp_lightning_report host_url
       (network_returning code phrase (Raise (ValueError msg))) =
     Raise (ValueError msg)) /\
  (forall (code : Z) (phrase : string) (goods : list StrikeRecord)
          (bad : list (string * pyval)) (rest : list pyval),
     200 <= code < 300 ->
     forallb squares_representable goods = true ->
     dict_lookup "latitude" bad = None ->
     gmp_lightning_report host_url
       (network_returning code phrase
          (Ok (simulator_body (PList (map strike_value goods ++ PDict bad :: rest))))) =
     Raise (KeyError "latitude")) /\
  (forall (code : Z) (phrase : string) (goods : list StrikeRecord)
          (bad : list (string * pyval)) (rest : list pyval) (lat : pyval),
     200 <= code < 300 ->
     forallb squares_representable goods = true ->
     dict_lookup "latitude" bad = Some lat ->
     dict_lookup "longitude" bad = None ->
     gmp_lightning_report host_url
       (network_returning code phrase
          (Ok (simulator_body (PList (map strike_value goods ++ PDict bad :: rest))))) =
     Raise (KeyError "longitude")).
Proof.
  split; [|split; [|split]].
  - intros requests_get e Ht He. unfold gmp_lightning_report, report_except.
    rewrite Ht, He. reflexivity.
  - intros code phrase msg Hcode.
    unfold gmp_lightning_report, report_try, network_returning. cbn [bind].
    rewrite raise_for_status_2xx by exact Hcode. reflexivity.
  - intros code phrase goods bad rest Hcode Hgoods Hlat.
    rewrite report_on_network by exact Hcode.
    rewrite (nearby_missing_key goods bad rest "latitude" Hgoods); [reflexivity|].
    unfold strike_within_radius. cbn [py_getitem]. rewrite Hlat. reflexivity.
  - intros code phrase goods bad rest lat Hcode Hgoods Hlat Hlon.
    rewrite report_on_network by exact Hcode.
    rewrite (nearby_missing_key goods bad rest "longitude" Hgoods); [reflexivity|].
    unfold strike_within_radius. cbn [py_getitem]. rewrite Hlat. cbn [bind].
    rewrite Hlon. reflexivity.
Qed.

End Uncaught.

(** ** The claims on sample inputs *)

(** C1 (amended) on a point of the boundary: with a correctly rounded [pow]
    the squared distance of [(boundary_latitude, boundary_longitude)] in the
    arithmetic of doubles is the squared radius, and the point is outside. *)
Lemma is_within_radius_boundary_point :
  (ieee_distance_sq boundary_latitude boundary_longitude
   =? ieee_square spec_radius_in_deg)%float = true /\
  @is_within_radius exact_libm (PFloat boundary_latitude) (PFloat boundary_longitude)
  = Ok false.
Proof.
  split; [vm_compute; reflexivity|].
  apply (proj1 (proj2 (proj2 (proj2 (@is_within_radius_iff_strictly_inside exact_libm
                                      boundary_latitude boundary_longitude))
                         (fun x => eq_refl)))).
  vm_compute. reflexivity.
Defined.

(** C1 as stated fails: the point [(boundary_latitude, boundary_longitude)] is
    strictly inside the radius in exact arithmetic, its squared distance from
    the origin (37.558, 126.794) being less than [(5 / 111)^2], and also when
    the origin and the radius are taken to be the doubles of the program; yet
    [is_within_radius] returns [False] on it when [pow] is correctly rounded,
    the three squares and the sum being rounded to doubles on the way. *)
Lemma boundary_point_inside_in_exact_arithmetic :
  (exact_distance_sq (Q_of_float boundary_latitude) (Q_of_float boundary_longitude)
   < exact_radius_sq)%Q /\
  ((Q_of_float boundary_latitude - Q_of_float GMP_LATITUDE)
   * (Q_of_float boundary_latitude - Q_of_float GMP_LATITUDE)
   + (Q_of_float boundary_longitude - Q_of_float GMP_LONGITUDE)
     * (Q_of_float boundary_longitude - Q_of_float GMP_LONGITUDE)
   < Q_of_float spec_radius_in_deg * Q_of_float spec_radius_in_deg)%Q /\
  @is_within_radius exact_libm (PFloat boundary_latitude) (PFloat boundary_longitude)
  = Ok false.
Proof. repeat split; vm_compute; reflexivity. Qed.

(** Near the boundary the answer depends on the C library: on the same point
    a library within one unit of the last place answers [True]. *)
Lemma boundary_point_depends_on_pow :
  @is_within_radius exact_libm (PFloat boundary_latitude) (PFloat boundary_longitude)
  = Ok false /\
  @is_within_radius libm_above_on_radius (PFloat boundary_latitude)
    (PFloat boundary_longitude)
  = Ok true.
Proof. split; vm_compute; reflexivity. Qed.

(** C5 on a list of two records inside the radius. *)
Lemma nearby_idempotent_witness :
  @nearby exact_libm [strike_value (near_strike "strike_1234");
                      strike_value (near_strike "strike_1234")]
  = Ok [strike_value (near_strike "strike_1234");
        strike_value (near_strike "strike_1234")].
Proof.
  apply (proj1 (@nearby_idempotent exact_libm)).
  repeat constructor.
Defined.

(** C8 on a response whose body is the empty JSON object. *)
Lemma report_without_data_field_witness :
  @gmp_lightning_report exact_libm sample_host_url
    (network_returning 200 "OK" (Ok (PDict [])))
  = Ok {| reply_status := 200;
          reply_body := PDict [("status", PStr "success");
                               ("report_for", PStr "Gimpo Airport (GMP)");
                               ("nearby_strikes_count", PInt 0);
                               ("strikes", PList [])] |}.
Proof.
  apply (@report_without_data_field exact_libm sample_host_url
           (network_returning 200 "OK" (Ok (PDict [])))
           {| status_code := 200; reason := "OK"; url := kma_api_url sample_host_url;
              json := Ok (PDict []) |}
           []).
  - reflexivity.
  - unfold status_2xx. cbn. lia.
  - reflexivity.
  - reflexivity.
Defined.

(** C6 on the body the simulator sends for the single record. *)
Lemma report_examples_witness :
  @gmp_lightning_report exact_libm sample_host_url
    (network_returning 200 "OK"
       (Ok (simulator_body (PList [strike_value (near_strike "strike_1234")]))))
  = Ok {| reply_status := 200;
          reply_body := PDict [("status", PStr "success");
                               ("report_for", PStr "Gimpo Airport (GMP)");
                               ("nearby_strikes_count", PInt 1);
                               ("strikes", PList [strike_value (near_strike "strike_1234")])] |}.
Proof.
  apply (proj2 (proj2 (proj2 (proj2
           (@report_examples exact_libm sample_host_url
              (network_returning 200 "OK"
                 (Ok (simulator_body (PList [strike_value (near_strike "strike_1234")])))))))))
    with (resp := {| status_code := 200; reason := "OK";
                     url := kma_api_url sample_host_url;
                     json := Ok (simulator_body
                                   (PList [strike_value (near_strike "strike_1234")])) |})
         (d := [("status", PStr "success");
                ("source", PStr "KMA Virtual Lightning Detector");
                ("data", PList [strike_value (near_strike "strike_1234")])]).
  - reflexivity.
  - unfold status_2xx. cbn. lia.
  - reflexivity.
  - reflexivity.
Defined.

(** C3 (amended) on a network that is down, and on a 200 answer whose body is
    not JSON, with the [requests] package from its version 2.27 on. *)
Lemma report_error_path_witness :
  @gmp_lightning_report exact_libm sample_host_url network_down
  = Ok {| reply_status := 500;
          reply_body := PDict [("status", PStr "error");
                               ("message",
                                PStr "Failed to call KMA API: Connection refused")] |} /\
  @gmp_lightning_report exact_libm sample_host_url
    (network_returning 200 "OK"
       (Raise (JSONDecodeError "Expecting value: line 1 column 1 (char 0)")))
  = Ok {| reply_status := 500;
          reply_body :=
            PDict [("status", PStr "error");
                   ("message",
                    PStr "Failed to call KMA API: Expecting value: line 1 column 1 (char 0)")] |}.
Proof.
  split.
  - apply (proj1 (@report_error_path exact_libm sample_host_url network_down)
             (ConnectionError "Connection refused")); reflexivity.
  - apply (proj1 (proj2 (proj2
                    (@report_error_path exact_libm sample_host_url
                       (network_returning 200 "OK"
                          (Raise (JSONDecodeError
                                    "Expecting value: line 1 column 1 (char 0)"))))))
             {| status_code := 200; reason := "OK"; url := kma_api_url sample_host_url;
                json := Raise (JSONDecodeError
                                 "Expecting value: line 1 column 1 (char 0)") |}
             (JSONDecodeError "Expecting value: line 1 column 1 (char 0)"));
      reflexivity.
Defined.

(** C3 as stated fails: on a 200 response whose only record lacks its latitude
    the outbound call has not failed, and yet the handler produces no success
    response; it raises [KeyError]. *)
Lemma report_raises_on_record_without_latitude :
  raise_for_status {| status_code := 200; reason := "OK";
                      url := kma_api_url sample_host_url;
                      json := Ok (simulator_body (PList [strike_without_latitude])) |}
  = Ok tt /\
  forall libm : Libm,
    @gmp_lightning_report libm sample_host_url
      (network_returning 200 "OK" (Ok (simulator_body (PList [strike_without_latitude]))))
    = Raise (KeyError "latitude").
Proof.
  split; [reflexivity|]. intros libm.
  rewrite report_on_network by lia. reflexivity.
Qed.

(** C10 on three responses with the status 200: a body that is not JSON, a
    record without latitude, a record without longitude. *)
Lemma report_catches_only_request_exceptions_witness :
  @gmp_lightning_report exact_libm sample_host_url
    (network_returning 200 "OK" (Raise (ValueError "Expecting value: line 1 column 1 (char 0)")))
  = Raise (ValueError "Expecting value: line 1 column 1 (char 0)") /\
  @gmp_lightning_report exact_libm sample_host_url
    (network_returning 200 "OK"
       (Ok (simulator_body
              (PList (map strike_value [near_strike "strike_1234"]
                      ++ strike_without_latitude :: [])))))
  = Raise (KeyError "latitude") /\
  @gmp_lightning_report exact_libm sample_host_url
    (network_returning 200 "OK"
       (Ok (simulator_body
              (PList (map strike_value [near_strike "strike_1234"]
                      ++ strike_without_longitude :: [])))))
  = Raise (KeyError "longitude").
Proof.
  pose proof (@report_catches_only_request_exceptions exact_libm sample_host_url)
    as (_ & Hjson & Hlat & Hlon).
  split; [|split].
  - apply Hjson. lia.
  - apply (Hlat 200 "OK" [near_strike "strike_1234"]
             [("id", PStr "strike_1000"); ("longitude", PFloat 126.795);
              ("intensity_kA", PInt 50)] []);
      [lia | vm_compute; reflexivity | reflexivity].
  - apply (Hlon 200 "OK" [near_strike "strike_1234"]
             [("id", PStr "strike_1000"); ("latitude", PFloat 37.560);
              ("intensity_kA", PInt 50)] [] (PFloat 37.560));
      [lia | vm_compute; reflexivity | reflexivity | reflexivity].
Defined.

(** ** Handlers that draw random numbers *)

Lemma runs_Ret_inv {A : Type} (a r : A) (t : list draw) :
  runs (Ret a) t r -> t = [] /\ r = a.
Proof. inversion 1; subst; auto. Qed.

Lemma runs_Randint_inv {A : Type} (a b : Z) (k : Z -> Rand A) (t : list draw) (r : A) :
  runs (Randint a b k) t r ->
  exists (n : Z) (t' : list draw),
    t = IntDraw a b n :: t' /\ a <= n <= b /\ runs (k n) t' r.
Proof. inversion 1; subst; eauto. Qed.

Lemma runs_Uniform_inv {A : Type} (a b : float) (k : float -> Rand A)
    (t : list draw) (r : A) :
  runs (Uniform a b k) t r ->
  exists (x : float) (t' : list draw),
    t = FloatDraw a b x :: t' /\
    ((a <=? x)%float = true /\ (x <=? b)%float = true) /\ runs (k x) t' r.
Proof. inversion 1; subst; eauto 6. Qed.

(** A run of [p] followed by [f] is a run of [p] and then a run of [f] on its
    result. *)
Lemma runs_rbind {A B : Type} (p : Rand A) (f : A -> Rand B) (t : list draw) (r : B) :
  runs (rbind p f) t r <->
  exists (a : A) (t1 t2 : list draw),
    runs p t1 a /\ runs (f a) t2 r /\ t = (t1 ++ t2)%list.
Proof.
  revert t. induction p as [a|a b k IH|a b k IH]; intros t; cbn [rbind].
  - split.
    + intros H. exists a, [], t. repeat split; [constructor|exact H].
    + intros (a' & t1 & t2 & H1 & H2 & ->).
      apply runs_Ret_inv in H1 as [-> ->]. exact H2.
  - split.
    + intros H. apply runs_Randint_inv in H as (n & t' & -> & Hn & H).
      apply IH in H as (x & t1 & t2 & H1 & H2 & ->).
      exists x, (IntDraw a b n :: t1), t2. repeat split; [|exact H2].
      now constructor.
    + intros (x & t1 & t2 & H1 & H2 & ->).
      apply runs_Randint_inv in H1 as (n & t' & -> & Hn & H1).
      cbn [app]. constructor; [exact Hn|]. apply IH. eauto 6.
  - split.
    + intros H. apply runs_Uniform_inv in H as (y & t' & -> & [Hl Hu] & H).
      apply IH in H as (x & t1 & t2 & H1 & H2 & ->).
      exists x, (FloatDraw a b y :: t1), t2. repeat split; [|exact H2].
      now constructor.
    + intros (x & t1 & t2 & H1 & H2 & ->).
      apply runs_Uniform_inv in H1 as (y & t' & -> & [Hl Hu] & H1).
      cbn [app]. constructor; [exact Hl|exact Hu|]. apply IH. eauto 6.
Qed.


(** ** Rounding of binary64 sums *)

Lemma digits2_pos_bounds (p : positive) :
  2 ^ (Zpos (digits2_pos p) - 1) <= Zpos p < 2 ^ Zpos (digits2_pos p).
Proof.
  induction p as [p IH|p IH|]; cbn [digits2_pos].
  - rewrite Pos2Z.inj_succ.
    replace (Z.succ (Zpos (digits2_pos p)) - 1) with (Z.succ (Zpos (digits2_pos p) - 1)) by lia.
    rewrite !Z.pow_succ_r by lia. lia.
  - rewrite Pos2Z.inj_succ.
    replace (Z.succ (Zpos (digits2_pos p)) - 1) with (Z.succ (Zpos (digits2_pos p) - 1)) by lia.
    rewrite !Z.pow_succ_r by lia. lia.
  - cbn. lia.
Qed.

Lemma digits2_pos_unique (p : positive) (k : Z) :
  2 ^ (k - 1) <= Zpos p < 2 ^ k -> Zpos (digits2_pos p) = k.
Proof.
  intros [Hlo Hhi]. pose proof (digits2_pos_bounds p) as [Dlo Dhi].
  assert (0 < k).
  { destruct (Z.lt_ge_cases 0 k) as [|Hk]; [assumption|].
    exfalso. destruct (Z.eq_dec k 0) as [->|]; [cbn in Hhi; lia|].
    rewrite Z.pow_neg_r in Hhi by lia. lia. }
  assert (k - 1 < Zpos (digits2_pos p)).
  { apply (Z.pow_lt_mono_r_iff 2); lia. }
  assert (Zpos (digits2_pos p) - 1 < k).
  { apply (Z.pow_lt_mono_r_iff 2); lia. }
  lia.
Qed.

Lemma shr_1_m (mrs : shr_record) :
  0 <= shr_m mrs -> shr_m (shr_1 mrs) = shr_m mrs / 2.
Proof.
  destruct mrs as [m r s]. unfold shr_m at 1. intros Hm.
  destruct m as [|[p|p|]|p]; unfold shr_1, shr_m; try lia; try reflexivity.
  - apply (Z.div_unique _ _ _ 1); [lia|]. rewrite Pos2Z.inj_xI. lia.
  - apply (Z.div_unique _ _ _ 0); [lia|]. rewrite Pos2Z.inj_xO. lia.
Qed.

Lemma iter_pos_shr_1_m (p : positive) (mrs : shr_record) :
  0 <= shr_m mrs ->
  shr_m (SpecFloat.iter_pos shr_1 p mrs) = shr_m mrs / 2 ^ Zpos p.
Proof.
  revert mrs. induction p as [p IH|p IH|]; intros mrs Hm; cbn [SpecFloat.iter_pos].
  - assert (Hpow : 0 < 2 ^ Zpos p) by (apply Z.pow_pos_nonneg; lia).
    assert (H1 : 0 <= shr_m (shr_1 mrs)).
    { rewrite shr_1_m by assumption. apply Z.div_pos; lia. }
    assert (H2 : 0 <= shr_m (SpecFloat.iter_pos shr_1 p (shr_1 mrs))).
    { rewrite IH by assumption. apply Z.div_pos; lia. }
    rewrite IH, IH, shr_1_m by assumption.
    rewrite !Z.div_div by (try lia; nia). f_equal.
    replace (2 * (2 ^ Z.pos p * 2 ^ Z.pos p)) with (2 ^ 1 * 2 ^ Z.pos p * 2 ^ Z.pos p)
      by (rewrite Z.pow_1_r; lia).
    rewrite <- !Z.pow_add_r by lia. f_equal. lia.
  - assert (Hpow : 0 < 2 ^ Zpos p) by (apply Z.pow_pos_nonneg; lia).
    assert (H2 : 0 <= shr_m (SpecFloat.iter_pos shr_1 p mrs)).
    { rewrite IH by assumption. apply Z.div_pos; lia. }
    rewrite IH, IH by assumption.
    rewrite !Z.div_div by (try lia; nia). f_equal.
    rewrite <- Z.pow_add_r by lia. f_equal. lia.
  - rewrite shr_1_m by assumption. reflexivity.
Qed.

Lemma round_nearest_even_bounds (m : Z) (l : location) :
  m <= round_nearest_even m l <= m + 1.
Proof.
  destruct l as [|[ | | ]]; cbn [round_nearest_even]; try lia.
  destruct (Z.even m); lia.
Qed.

Lemma Pos_iter_xO (m d : positive) :
  Zpos (Pos.iter xO m d) = Zpos m * 2 ^ Zpos d.
Proof.
  induction d as [|d IH] using Pos.peano_ind.
  - cbn. lia.
  - rewrite Pos.iter_succ, Pos2Z.inj_xO, IH, Pos2Z.inj_succ, Z.pow_succ_r by lia. lia.
Qed.

Lemma shl_align_down (mx : positive) (ex ex' : Z) :
  ex' < ex ->
  shl_align mx ex ex' = (Pos.iter xO mx (Z.to_pos (ex - ex')), ex').
Proof.
  unfold shl_align. intros H.
  destruct (ex' - ex) as [|d|d] eqn:E; try lia.
  replace (ex - ex') with (Zpos d) by lia. reflexivity.
Qed.

Lemma shl_align_up (mx : positive) (ex ex' : Z) :
  ex <= ex' -> shl_align mx ex ex' = (mx, ex).
Proof.
  unfold shl_align. intros H.
  destruct (ex' - ex) as [|d|d] eqn:E; try lia; reflexivity.
Qed.

Lemma fexp_normal (k : Z) : -1021 <= k -> fexp prec emax k = k - 53.
Proof. unfold fexp, emin, prec, emax. lia. Qed.

(** Rounding a positive mantissa that is [j] bits too long: the result is the
    quotient by [2 ^ j] or its successor. *)
Lemma binary_round_long (mz : positive) (e j : Z) :
  0 < j ->
  -1074 <= e + j <= 971 ->
  2 ^ (52 + j) <= Zpos mz ->
  Zpos mz < (2 ^ 53 - 1) * 2 ^ j ->
  exists q : positive,
    binary_round prec emax false mz e = S754_finite false q (e + j) /\
    Zpos mz / 2 ^ j <= Zpos q <= Zpos mz / 2 ^ j + 1.
Proof.
  intros Hj He Hlo Hhi.
  assert (Hpow : 0 < 2 ^ j) by (apply Z.pow_pos_nonneg; lia).
  assert (Hdig : Zpos (digits2_pos mz) = 53 + j).
  { apply digits2_pos_unique. split.
    - replace (53 + j - 1) with (52 + j) by lia. exact Hlo.
    - rewrite Z.pow_add_r by lia. lia. }
  assert (Hq0 : 2 ^ 52 <= Zpos mz / 2 ^ j < 2 ^ 53 - 1).
  { split.
    - apply Z.div_le_lower_bound; [lia|]. rewrite Z.pow_add_r in Hlo by lia. lia.
    - apply Z.div_lt_upper_bound; lia. }
  unfold binary_round. rewrite Hdig, fexp_normal by lia.
  rewrite shl_align_up by lia.
  destruct j as [|jp|jp]; try lia.
  set (mrs := SpecFloat.iter_pos shr_1 jp {| shr_m := Zpos mz; shr_r := false; shr_s := false |}).
  assert (H1 : shr_fexp prec emax (Zpos mz) e loc_Exact = (mrs, e + Zpos jp)).
  { unfold shr_fexp. cbn [Zdigits2 shr_record_of_loc].
    rewrite Hdig, fexp_normal by lia.
    replace (53 + Zpos jp + e - 53 - e) with (Zpos jp) by lia. reflexivity. }
  assert (Hm : shr_m mrs = Zpos mz / 2 ^ Zpos jp).
  { unfold mrs. rewrite iter_pos_shr_1_m; cbn [shr_m]; [reflexivity|lia]. }
  pose proof (round_nearest_even_bounds (shr_m mrs) (loc_of_shr_record mrs)) as Hr.
  remember (round_nearest_even (shr_m mrs) (loc_of_shr_record mrs)) as q1 eqn:Eq.
  symmetry in Eq. rewrite Hm in Hr.
  destruct q1 as [|q|q]; try lia.
  assert (Hdq : Zpos (digits2_pos q) = 53).
  { apply digits2_pos_unique. change (53 - 1) with 52. lia. }
  assert (H2 : shr_fexp prec emax (Zpos q) (e + Zpos jp) loc_Exact
               = ({| shr_m := Zpos q; shr_r := false; shr_s := false |}, e + Zpos jp)).
  { unfold shr_fexp. cbn [Zdigits2 shr_record_of_loc].
    rewrite Hdq, fexp_normal by lia.
    replace (53 + (e + Zpos jp) - 53 - (e + Zpos jp)) with 0 by lia. reflexivity. }
  unfold binary_round_aux. rewrite H1. cbv beta iota. rewrite Eq, H2.
  cbv beta iota. cbn [shr_m].
  replace (e + Zpos jp <=? emax - prec) with true
    by (symmetry; apply Z.leb_le; unfold emax, prec; lia).
  exists q. split; [reflexivity|lia].
Qed.

(** Adding to the positive double [M * 2 ^ E] a double of a smaller exponent
    and of magnitude below [K * 2 ^ E], when [M - K] and [M + K] are both
    53-bit mantissas: the sum keeps the exponent and its mantissa stays within
    [K] of [M]. *)
Lemma SF64add_near (M m : positive) (E e K : Z) (s : bool) :
  -1074 <= E <= 971 ->
  2 ^ 52 <= Zpos M - K -> Zpos M + K < 2 ^ 53 ->
  e < E ->
  Zpos m < K * 2 ^ (E - e) ->
  exists q : positive,
    SF64add (S754_finite false M E) (S754_finite s m e) = S754_finite false q E /\
    Zpos M - K <= Zpos q <= Zpos M + K.
Proof.
  intros HE Hlo Hhi He Hm.
  assert (Hpow : 0 < 2 ^ (E - e)) by (apply Z.pow_pos_nonneg; lia).
  unfold SF64add, SFadd. rewrite Z.min_r by lia.
  rewrite shl_align_down, shl_align_up by lia. cbn [fst].
  rewrite Pos_iter_xO, Z2Pos.id by lia.
  set (P := 2 ^ (E - e)) in *.
  assert (Hmz : (Zpos M - K) * P < cond_Zopp false (Zpos M * P) + cond_Zopp s (Zpos m)
                < (Zpos M + K) * P).
  { destruct s; cbn [cond_Zopp]; nia. }
  remember (cond_Zopp false (Zpos M * P) + cond_Zopp s (Zpos m)) as mz eqn:Emz.
  clear Emz. destruct mz as [|mz|mz]; try nia.
  cbn [binary_normalize].
  destruct (binary_round_long mz e (E - e)) as (q & Hq & Hqb).
  - lia.
  - lia.
  - rewrite Z.pow_add_r by lia. fold P. nia.
  - fold P. nia.
  - exists q. replace (e + (E - e)) with E in Hq by lia. split; [exact Hq|].
    fold P in Hqb.
    assert (Zpos M - K <= Zpos mz / P) by (apply Z.div_le_lower_bound; lia).
    assert (Zpos mz / P < Zpos M + K) by (apply Z.div_lt_upper_bound; lia).
    lia.
Qed.

Lemma Prim2SF_offset_bound : Prim2SF 0.06 = S754_finite false 8646911284551352 (-57).
Proof. vm_compute. reflexivity. Qed.

Lemma Prim2SF_offset_bound_opp : Prim2SF (- 0.06) = S754_finite true 8646911284551352 (-57).
Proof. vm_compute. reflexivity. Qed.

Lemma valid_mantissa_lt (s : bool) (m : positive) (e : Z) :
  valid_binary (S754_finite s m e) = true -> Zpos m < 2 ^ 53.
Proof.
  unfold valid_binary, SpecFloat.valid_binary, bounded, canonical_mantissa. intros H.
  apply andb_prop in H as [H _]. apply Z.eqb_eq in H.
  pose proof (digits2_pos_bounds m) as [_ Hd].
  assert (Zpos (digits2_pos m) <= 53).
  { unfold fexp, emin, prec, emax in H. lia. }
  apply (Z.lt_le_trans _ _ _ Hd). apply Z.pow_le_mono_r; lia.
Qed.

Lemma compare_cont_not_Gt (m n : positive) :
  match PosDef.Pos.compare_cont Eq m n with Gt => false | _ => true end = true ->
  Zpos m <= Zpos n.
Proof.
  intros H. apply Pos2Z.pos_le_pos. unfold Pos.le, Pos.compare.
  intros Hc.
  change (PosDef.Pos.compare_cont Eq m n) with (Pos.compare_cont Eq m n) in H.
  rewrite Hc in H. discriminate H.
Qed.

Lemma compare_cont_opp_not_Gt (m n : positive) :
  match CompOpp (PosDef.Pos.compare_cont Eq n m) with Gt => false | _ => true end = true ->
  Zpos m <= Zpos n.
Proof.
  intros H. apply Pos2Z.pos_le_pos. unfold Pos.le. rewrite Pos.compare_antisym.
  unfold Pos.compare.
  change (PosDef.Pos.compare_cont Eq n m) with (Pos.compare_cont Eq n m) in H.
  intros Hc. rewrite Hc in H. discriminate H.
Qed.

Lemma offset_cases (off : float) :
  (- 0.06 <=? off)%float = true -> (off <=? 0.06)%float = true ->
  (exists s : bool, Prim2SF off = S754_zero s) \/
  (exists (s : bool) (m : positive) (e : Z),
     Prim2SF off = S754_finite s m e /\ Zpos m < 2 ^ 53 /\
     (e < -57 \/ (e = -57 /\ Zpos m <= 8646911284551352))).
Proof.
  rewrite !FloatAxioms.leb_spec, Prim2SF_offset_bound, Prim2SF_offset_bound_opp.
  pose proof (Prim2SF_valid off) as Hvalid.
  destruct (Prim2SF off) as [s|s| |s m e]; unfold SFleb; cbn [SFcompare].
  - intros _ _. left. eauto.
  - destruct s; intros H1 H2; discriminate.
  - intros H; discriminate H.
  - intros H1 H2. right. exists s, m, e.
    split; [reflexivity|]. split; [exact (valid_mantissa_lt s m e Hvalid)|].
    clear Hvalid. destruct s.
    + clear H2. destruct (Z.compare_spec (-57) e) as [He|Hlt|Hgt];
        [|discriminate H1|left; lia].
      right. split; [symmetry; exact He|]. clear He.
      apply compare_cont_opp_not_Gt. exact H1.
    + clear H1. destruct (Z.compare_spec e (-57)) as [He|Hlt|Hgt];
        [|left; lia|discriminate H2].
      right. split; [exact He|]. clear He.
      apply compare_cont_not_Gt. exact H2.
Qed.

(** The sum of a positive double [c = M * 2 ^ E] and an offset in
    [[-0.06, 0.06]] keeps the exponent of [c], and its mantissa is within [K]
    of [M], where [K * 2 ^ E] is just above 0.06. *)
Lemma add_offset_mantissa (c off : float) (M : positive) (E K : Z) :
  Prim2SF c = S754_finite false M E ->
  -57 < E <= 971 ->
  2 ^ 52 <= Zpos M - K -> Zpos M + K < 2 ^ 53 ->
  8646911284551352 < K * 2 ^ (E + 57) ->
  (- 0.06 <=? off)%float = true -> (off <=? 0.06)%float = true ->
  exists q : positive,
    Prim2SF (c + off) = S754_finite false q E /\
    Zpos M - K <= Zpos q <= Zpos M + K.
Proof.
  intros Hc HE Hlo Hhi HK Hoff1 Hoff2.
  assert (Hp57 : 0 < 2 ^ (E + 57)) by (apply Z.pow_pos_nonneg; lia).
  assert (HK0 : 0 < K) by nia.
  rewrite FloatAxioms.add_spec, Hc.
  destruct (offset_cases off Hoff1 Hoff2) as [(s & ->)|(s & m & e & -> & Hm & He)].
  - exists M. split; [reflexivity|lia].
  - apply SF64add_near; try lia.
    destruct He as [He|[-> He]].
    + assert (Hmono : 2 ^ (E + 58) <= 2 ^ (E - e)) by (apply Z.pow_le_mono_r; lia).
      replace (E + 58) with (Z.succ (E + 57)) in Hmono by lia.
      rewrite Z.pow_succ_r in Hmono by lia.
      change (2 ^ 53) with 9007199254740992 in Hm. nia.
    + replace (E - -57) with (E + 57) by lia. lia.
Qed.

(** [round_half_even] grows with its numerator. *)
Lemma round_half_even_mono (a b d : Z) :
  0 < d -> a <= b -> round_half_even a d <= round_half_even b d.
Proof.
  intros Hd Hab. unfold round_half_even.
  pose proof (Z.div_le_mono a b d Hd Hab) as Hq.
  pose proof (Z.mod_pos_bound a d Hd) as Ha.
  pose proof (Z.mod_pos_bound b d Hd) as Hb.
  pose proof (Z.div_mod a d ltac:(lia)) as Ea.
  pose proof (Z.div_mod b d ltac:(lia)) as Eb.
  destruct (Z.eq_dec (a / d) (b / d)) as [Heq|Hne].
  - assert (a mod d <= b mod d) by nia.
    rewrite <- Heq.
    destruct (Z.compare_spec (2 * (a mod d)) d);
      destruct (Z.compare_spec (2 * (b mod d)) d);
      destruct (Z.even (a / d)); lia.
  - assert (a / d + 1 <= b / d) by lia.
    destruct (Z.compare_spec (2 * (a mod d)) d);
      destruct (Z.compare_spec (2 * (b mod d)) d);
      destruct (Z.even (a / d)); destruct (Z.even (b / d)); lia.
Qed.

(** [round] to 6 places of a positive double below 2 ^ 53. *)
Lemma py_round_6_finite (x : float) (q : positive) (E : Z) :
  Prim2SF x = S754_finite false q E -> E < 0 ->
  round_half_even (Zpos q * 10 ^ 6) (2 ^ (- E)) <> 0 ->
  py_round x 6 =
  SF2Prim (SF_of_ratio false (round_half_even (Zpos q * 10 ^ 6) (2 ^ (- E))) (10 ^ 6)).
Proof.
  intros Hx HE Hn. unfold py_round. rewrite Hx.
  change (323 <? 6) with false. cbv iota.
  replace (0 <=? E) with false by (symmetry; apply Z.leb_gt; lia).
  cbv zeta. apply Z.eqb_neq in Hn. rewrite Hn. reflexivity.
Qed.

Lemma ratio_quotient_mono (k a b : Z) :
  0 <= k -> a <= b -> ratio_quotient k a <= ratio_quotient k b.
Proof.
  intros Hk Hab. unfold ratio_quotient.
  assert (0 < 2 ^ k) by (apply Z.pow_pos_nonneg; lia).
  apply Z.div_le_mono; [reflexivity|nia].
Qed.

(** The double nearest to [n / 10 ^ 6] for [n] between [lo] and [hi], when
    the quotients of the whole interval have 64 bits. *)
Lemma SF_of_ratio_between (n lo hi L : Z) :
  lo <= n <= hi -> 0 < lo ->
  Z.log2 lo = L -> Z.log2 hi = L -> 0 <= L <= 83 ->
  2 ^ 64 <= 2 * ratio_quotient (83 - L) lo ->
  2 * ratio_quotient (83 - L) hi + 1 < (2 ^ 53 - 1) * 2 ^ 12 ->
  exists q : positive,
    SF_of_ratio false n (10 ^ 6) = S754_finite false q (L - 72) /\
    2 * ratio_quotient (83 - L) lo / 2 ^ 12 <= Zpos q
    <= (2 * ratio_quotient (83 - L) hi + 1) / 2 ^ 12 + 1.
Proof.
  intros Hn Hlo HLlo HLhi HL Hlow Hhigh.
  assert (HLn : Z.log2 n = L).
  { pose proof (Z.log2_le_mono lo n ltac:(lia)).
    pose proof (Z.log2_le_mono n hi ltac:(lia)). lia. }
  pose proof (ratio_quotient_mono (83 - L) lo n ltac:(lia) ltac:(lia)) as Hq1.
  pose proof (ratio_quotient_mono (83 - L) n hi ltac:(lia) ltac:(lia)) as Hq2.
  unfold SF_of_ratio. rewrite HLn.
  change (Z.log2 (10 ^ 6)) with 19.
  replace (Z.max 0 (64 + 19 - L)) with (83 - L) by lia.
  fold (ratio_quotient (83 - L) n).
  set (sticky := if (n * 2 ^ (83 - L)) mod 10 ^ 6 =? 0 then 0 else 1).
  assert (Hs : 0 <= sticky <= 1) by (unfold sticky; destruct (_ =? 0); lia).
  cbn [cond_Zopp].
  remember (2 * ratio_quotient (83 - L) n + sticky) as mz eqn:Emz.
  assert (Hmz : 2 * ratio_quotient (83 - L) lo <= mz
                <= 2 * ratio_quotient (83 - L) hi + 1) by lia.
  clear Emz. destruct mz as [|mz|mz]; try lia.
  cbn [binary_normalize].
  destruct (binary_round_long mz (- (83 - L) - 1) 12) as (q & Hq & Hqb); try lia.
  exists q. replace (- (83 - L) - 1 + 12) with (L - 72) in Hq by lia.
  split; [exact Hq|].
  pose proof (Z.div_le_mono _ _ (2 ^ 12) ltac:(lia) (proj1 Hmz)).
  pose proof (Z.div_le_mono _ _ (2 ^ 12) ltac:(lia) (proj2 Hmz)).
  lia.
Qed.

Lemma valid_binary_normal (q : positive) (E : Z) :
  2 ^ 52 <= Zpos q < 2 ^ 53 -> -1074 <= E <= 971 ->
  valid_binary (S754_finite false q E) = true.
Proof.
  intros Hq HE.
  unfold valid_binary, SpecFloat.valid_binary, bounded, canonical_mantissa.
  rewrite (digits2_pos_unique q 53) by (change (53 - 1) with 52; lia).
  rewrite fexp_normal by lia.
  apply andb_true_intro. split; [apply Z.eqb_eq; lia|].
  apply Z.leb_le. unfold emax, prec. lia.
Qed.

Lemma SFleb_same_exponent (m n : positive) (e : Z) :
  Zpos m <= Zpos n ->
  SFleb (S754_finite false m e) (S754_finite false n e) = true.
Proof.
  intros H. unfold SFleb, SFcompare. rewrite Z.compare_refl.
  change (PosDef.Pos.compare_cont Eq m n) with (Pos.compare m n).
  destruct (Pos.compare_spec m n) as [Heq|Hlt|Hgt]; try reflexivity.
  apply Pos2Z.pos_lt_pos in Hgt. lia.
Qed.

Lemma SF_is_true (sf : spec_float) (m : positive) (e : Z) :
  SF_is sf m e = true -> sf = S754_finite false m e.
Proof.
  destruct sf as [s|s| |[|] m' e']; cbn [SF_is]; try discriminate.
  intros H. apply andb_prop in H as [Hm He].
  apply Pos.eqb_eq in Hm. apply Z.eqb_eq in He. now subst.
Qed.

Ltac split_checks H :=
  repeat match type of H with
         | _ && _ = true =>
             let H' := fresh "Hc" in
             apply andb_prop in H as [H H']
         end.

Lemma rounded_offset_grid (c off : float) (M : positive) (K lo hi L : Z)
    (Mlo Mhi : positive) :
  Prim2SF c = S754_finite false M (L - 72) ->
  grid_check M K lo hi L Mlo Mhi = true ->
  (- 0.06 <=? off)%float = true -> (off <=? 0.06)%float = true ->
  exists q : positive,
    Prim2SF (py_round (c + off) 6) = S754_finite false q (L - 72) /\
    Zpos Mlo <= Zpos q <= Zpos Mhi.
Proof.
  intros Hc Hgrid Hoff1 Hoff2. unfold grid_check in Hgrid. cbv zeta in Hgrid.
  split_checks Hgrid.
  repeat match goal with
         | H : (_ <? _) = true |- _ => apply Z.ltb_lt in H
         | H : (_ <=? _) = true |- _ => apply Z.leb_le in H
         | H : (_ =? _) = true |- _ => apply Z.eqb_eq in H
         | H : SF_is _ _ _ = true |- _ => apply SF_is_true in H
         end.
  destruct (add_offset_mantissa c off M (L - 72) K Hc) as (q & Hq & Hqb);
    try assumption; try lia.
  assert (Hpow : 0 < 2 ^ (- (L - 72))) by (apply Z.pow_pos_nonneg; lia).
  set (n := round_half_even (Zpos q * 10 ^ 6) (2 ^ (- (L - 72)))).
  assert (Hn : lo <= n <= hi).
  { subst lo hi. unfold n. split; apply round_half_even_mono; lia. }
  rewrite (py_round_6_finite _ q (L - 72) Hq) by (fold n; lia).
  fold n.
  assert (Hsf : exists qq : positive,
             SF_of_ratio false n (10 ^ 6) = S754_finite false qq (L - 72) /\
             Zpos Mlo <= Zpos qq <= Zpos Mhi).
  { destruct (Z.eq_dec n lo) as [->|Hnlo]; [exists Mlo; split; [assumption|lia]|].
    destruct (Z.eq_dec n hi) as [->|Hnhi]; [exists Mhi; split; [assumption|lia]|].
    pose proof (Z.log2_le_mono lo (lo + 1) ltac:(lia)).
    pose proof (Z.log2_le_mono (lo + 1) hi ltac:(lia)).
    pose proof (Z.log2_le_mono lo (hi - 1) ltac:(lia)).
    pose proof (Z.log2_le_mono (hi - 1) hi ltac:(lia)).
    destruct (SF_of_ratio_between n (lo + 1) (hi - 1) L) as (qq & Hqq & Hqqb);
      try lia.
    exists qq. split; [exact Hqq|lia]. }
  destruct Hsf as (qq & Hqq & Hqqb). exists qq. rewrite Hqq.
  split; [|exact Hqqb].
  apply Prim2SF_SF2Prim. apply valid_binary_normal; lia.
Qed.

(** ** Floats far from overflow *)

Lemma SF_small_finite (B : Z) (s : bool) (m : positive) (e : Z) :
  SF_small B (S754_finite s m e) = true <-> Zpos m <= 2 ^ 53 /\ e <= B.
Proof.
  cbn [SF_small]. rewrite andb_true_iff, !Z.leb_le. reflexivity.
Qed.

Lemma SF_small_mono (B B' : Z) (x : spec_float) :
  B <= B' -> SF_small B x = true -> SF_small B' x = true.
Proof.
  intros HB. destruct x as [s|s| |s m e]; try (intros H; exact H).
  rewrite !SF_small_finite. lia.
Qed.

Lemma SF_small_opp (B : Z) (x : spec_float) :
  SF_small B (SFopp x) = SF_small B x.
Proof. destruct x; reflexivity. Qed.

Lemma fexp_mono (a b : Z) : a <= b -> fexp prec emax a <= fexp prec emax b.
Proof. unfold fexp, emin, prec, emax. lia. Qed.

Lemma Zdigits2_le (m k : Z) : 0 <= m < 2 ^ k -> 0 <= k -> Zdigits2 m <= k.
Proof.
  intros [H0 Hk] Hk0. destruct m as [|p|p]; cbn [Zdigits2]; try lia.
  pose proof (digits2_pos_bounds p) as [Dlo _].
  assert (Zpos (digits2_pos p) - 1 < k); [|lia].
  apply (Z.pow_lt_mono_r_iff 2); lia.
Qed.

Lemma shr_record_of_loc_m (m : Z) (l : location) : shr_m (shr_record_of_loc m l) = m.
Proof. destruct l as [|[ | | ]]; reflexivity. Qed.

(** The first step of a rounding: the mantissa is shifted to the exponent of its
    format and fits in 53 bits. *)
Lemma shr_fexp_bounds (m ex : Z) (l : location) :
  0 <= m ->
  exists mrs : shr_record,
    shr_fexp prec emax m ex l = (mrs, Z.max ex (fexp prec emax (Zdigits2 m + ex))) /\
    0 <= shr_m mrs <= m /\ shr_m mrs < 2 ^ 53.
Proof.
  intros Hm. unfold shr_fexp, shr.
  assert (Hd : 0 <= Zdigits2 m /\ m < 2 ^ Zdigits2 m).
  { destruct m as [|p|p]; cbn [Zdigits2]; try lia.
    pose proof (digits2_pos_bounds p). lia. }
  destruct Hd as [Hd0 Hd].
  destruct (fexp prec emax (Zdigits2 m + ex) - ex) as [|n|n] eqn:En.
  - exists (shr_record_of_loc m l). rewrite shr_record_of_loc_m.
    split; [f_equal; lia|]. split; [lia|].
    unfold fexp, emin, prec, emax in En.
    apply Z.lt_le_trans with (1 := Hd). apply Z.pow_le_mono_r; lia.
  - exists (SpecFloat.iter_pos shr_1 n (shr_record_of_loc m l)).
    rewrite iter_pos_shr_1_m by (rewrite shr_record_of_loc_m; lia).
    rewrite shr_record_of_loc_m.
    assert (Hpow : 0 < 2 ^ Zpos n) by (apply Z.pow_pos_nonneg; lia).
    split; [f_equal; lia|]. split.
    + split; [apply Z.div_pos; lia|].
      apply Z.div_le_upper_bound; [lia|]. nia.
    + apply Z.div_lt_upper_bound; [lia|].
      rewrite <- Z.pow_add_r by lia.
      apply Z.lt_le_trans with (1 := Hd). apply Z.pow_le_mono_r; [lia|].
      unfold fexp, emin, prec, emax in En. lia.
  - exists (shr_record_of_loc m l). rewrite shr_record_of_loc_m.
    split; [f_equal; lia|]. split; [lia|].
    unfold fexp, emin, prec, emax in En.
    apply Z.lt_le_trans with (1 := Hd). apply Z.pow_le_mono_r; lia.
Qed.

(** A rounding that starts from a positive mantissa ends in a zero or in a
    finite float whose exponent is at most one above the exponent of the
    format, unless that exponent is beyond the largest one. *)
Lemma binary_round_aux_small (s : bool) (mx : positive) (ex B : Z) :
  Z.max ex (fexp prec emax (Zpos (digits2_pos mx) + ex)) + 1 <= B -> B <= 971 ->
  SF_small B (binary_round_aux prec emax s (Zpos mx) ex loc_Exact) = true.
Proof.
  intros HF HB. unfold binary_round_aux.
  destruct (shr_fexp_bounds (Zpos mx) ex loc_Exact) as (mrs1 & -> & Hm1 & Hm1'); [lia|].
  cbn [Zdigits2] in *.
  set (F := Z.max ex (fexp prec emax (Zpos (digits2_pos mx) + ex))) in *.
  pose proof (round_nearest_even_bounds (shr_m mrs1) (loc_of_shr_record mrs1)) as Hr.
  set (m1 := round_nearest_even (shr_m mrs1) (loc_of_shr_record mrs1)) in *.
  destruct (shr_fexp_bounds m1 F loc_Exact) as (mrs2 & -> & Hm2 & _); [lia|].
  assert (Hd1 : Zdigits2 m1 <= 54) by (apply Zdigits2_le; lia).
  assert (HF0 : -1074 <= F) by (unfold F, fexp, emin, prec, emax; lia).
  assert (He : Z.max F (fexp prec emax (Zdigits2 m1 + F)) <= F + 1)
    by (unfold fexp, emin, prec, emax; lia).
  destruct (shr_m mrs2) as [|m|m] eqn:Em; [reflexivity| |lia].
  replace (Z.max F (fexp prec emax (Zdigits2 m1 + F)) <=? emax - prec) with true
    by (symmetry; apply Z.leb_le; change (emax - prec) with 971; lia).
  apply SF_small_finite. lia.
Qed.

Lemma digits2_pos_iter_xO (m d : positive) :
  digits2_pos (Pos.iter xO m d) = (digits2_pos m + d)%positive.
Proof.
  induction d as [|d IH] using Pos.peano_ind.
  - cbn. lia.
  - rewrite Pos.iter_succ. cbn [digits2_pos]. rewrite IH. lia.
Qed.

Lemma binary_round_small (s : bool) (mx : positive) (ex B : Z) :
  fexp prec emax (Zpos (digits2_pos mx) + ex) + 1 <= B -> B <= 971 ->
  SF_small B (binary_round prec emax s mx ex) = true.
Proof.
  intros HF HB. unfold binary_round.
  destruct (Z.lt_ge_cases (fexp prec emax (Zpos (digits2_pos mx) + ex)) ex) as [Hlt|Hge].
  - rewrite shl_align_down by assumption.
    set (F := fexp prec emax (Zpos (digits2_pos mx) + ex)) in *.
    apply binary_round_aux_small; [|exact HB].
    rewrite digits2_pos_iter_xO, Pos2Z.inj_add, Z2Pos.id by lia.
    replace (Zpos (digits2_pos mx) + (ex - F) + F) with (Zpos (digits2_pos mx) + ex) by lia.
    fold F. lia.
  - rewrite shl_align_up by lia.
    apply binary_round_aux_small; [|exact HB]. lia.
Qed.

(** Normalising an integer below [2 ^ k] in magnitude. *)
Lemma binary_normalize_small (m e k B : Z) :
  Z.abs m < 2 ^ k -> 0 <= k ->
  fexp prec emax (k + e) + 1 <= B -> B <= 971 ->
  SF_small B (binary_normalize prec emax m e false) = true.
Proof.
  intros Hm Hk HF HB.
  destruct m as [|p|p]; cbn [binary_normalize]; [reflexivity| |];
    (apply binary_round_small; [|exact HB];
     pose proof (Zdigits2_le (Zpos p) k ltac:(lia) Hk) as Hd; cbn [Zdigits2] in Hd;
     pose proof (fexp_mono (Zpos (digits2_pos p) + e) (k + e) ltac:(lia)); lia).
Qed.

Lemma shl_align_fst (mx : positive) (ex ex' : Z) :
  ex' <= ex -> Zpos (fst (shl_align mx ex ex')) = Zpos mx * 2 ^ (ex - ex').
Proof.
  intros H. destruct (Z.eq_dec ex' ex) as [->|Hne].
  - rewrite shl_align_up by lia. cbn [fst]. rewrite Z.sub_diag. cbn. lia.
  - rewrite shl_align_down by lia. cbn [fst]. rewrite Pos_iter_xO, Z2Pos.id by lia.
    reflexivity.
Qed.

(** The mantissas of two small floats, aligned on the smaller exponent. *)
Lemma aligned_mantissas (mx my : positive) (ex ey B : Z) :
  Zpos mx <= 2 ^ 53 -> ex <= B -> Zpos my <= 2 ^ 53 -> ey <= B ->
  Zpos (fst (shl_align mx ex (Z.min ex ey))) <= 2 ^ (53 + B - Z.min ex ey) /\
  Zpos (fst (shl_align my ey (Z.min ex ey))) <= 2 ^ (53 + B - Z.min ex ey).
Proof.
  intros Hmx Hex Hmy Hey.
  set (ez := Z.min ex ey).
  rewrite !shl_align_fst by (unfold ez; lia).
  replace (53 + B - ez) with (53 + (B - ez)) by lia.
  rewrite Z.pow_add_r by (unfold ez; lia).
  assert (0 < 2 ^ (ex - ez)) by (apply Z.pow_pos_nonneg; unfold ez; lia).
  assert (0 < 2 ^ (ey - ez)) by (apply Z.pow_pos_nonneg; unfold ez; lia).
  assert (2 ^ (ex - ez) <= 2 ^ (B - ez)) by (apply Z.pow_le_mono_r; lia).
  assert (2 ^ (ey - ez) <= 2 ^ (B - ez)) by (apply Z.pow_le_mono_r; lia).
  split; nia.
Qed.

Lemma sum_of_aligned_small (a b : Z) (sx sy : bool) (ez B : Z) (sub : bool) :
  0 < a <= 2 ^ (53 + B - ez) -> 0 < b <= 2 ^ (53 + B - ez) ->
  ez <= B -> -1074 <= B -> B + 3 <= 971 ->
  SF_small (B + 3)
    (binary_normalize prec emax
       (if sub then cond_Zopp sx a - cond_Zopp sy b else cond_Zopp sx a + cond_Zopp sy b)
       ez false) = true.
Proof.
  intros Ha Hb Hez HB HB'.
  apply (binary_normalize_small _ _ (55 + B - ez)); try lia.
  - replace (55 + B - ez) with (2 + (53 + B - ez)) by lia.
    rewrite Z.pow_add_r by lia. change (2 ^ 2) with 4.
    destruct sub, sx, sy; cbn [cond_Zopp]; lia.
  - replace (55 + B - ez + ez) with (55 + B) by lia.
    unfold fexp, emin, prec, emax. lia.
Qed.

Lemma SF64add_small (x y : spec_float) (B : Z) :
  SF_small B x = true -> SF_small B y = true -> -1074 <= B -> B + 3 <= 971 ->
  SF_small (B + 3) (SF64add x y) = true.
Proof.
  intros Hx Hy HB HB'. unfold SF64add, SFadd.
  destruct x as [sx|sx| |sx mx ex], y as [sy|sy| |sy my ey]; try discriminate.
  - destruct sx, sy; reflexivity.
  - apply SF_small_mono with (2 := Hy). lia.
  - apply SF_small_mono with (2 := Hx). lia.
  - apply SF_small_finite in Hx as [Hmx Hex]. apply SF_small_finite in Hy as [Hmy Hey].
    destruct (aligned_mantissas mx my ex ey B) as [H1 H2]; try assumption.
    apply (sum_of_aligned_small _ _ sx sy _ B false); lia.
Qed.

Lemma SF64sub_small (x y : spec_float) (B : Z) :
  SF_small B x = true -> SF_small B y = true -> -1074 <= B -> B + 3 <= 971 ->
  SF_small (B + 3) (SF64sub x y) = true.
Proof.
  intros Hx Hy HB HB'. unfold SF64sub, SFsub.
  destruct x as [sx|sx| |sx mx ex], y as [sy|sy| |sy my ey]; try discriminate.
  - destruct sx, sy; reflexivity.
  - apply SF_small_mono with (B := B); [lia|]. exact Hy.
  - apply SF_small_mono with (2 := Hx). lia.
  - apply SF_small_finite in Hx as [Hmx Hex]. apply SF_small_finite in Hy as [Hmy Hey].
    destruct (aligned_mantissas mx my ex ey B) as [H1 H2]; try assumption.
    apply (sum_of_aligned_small _ _ sx sy _ B true); lia.
Qed.

Lemma SF64mul_small (x y : spec_float) (B : Z) :
  SF_small B x = true -> SF_small B y = true -> -1074 <= 2 * B + 54 -> 2 * B + 55 <= 971 ->
  SF_small (2 * B + 55) (SF64mul x y) = true.
Proof.
  intros Hx Hy HB HB'. unfold SF64mul, SFmul.
  destruct x as [sx|sx| |sx mx ex], y as [sy|sy| |sy my ey]; try discriminate;
    try reflexivity.
  apply SF_small_finite in Hx as [Hmx Hex]. apply SF_small_finite in Hy as [Hmy Hey].
  apply binary_round_aux_small; [|lia].
  assert (Hd : Zdigits2 (Zpos (mx * my)) <= 107).
  { apply Zdigits2_le; [|lia]. rewrite Pos2Z.inj_mul.
    change (2 ^ 107) with (2 * (2 ^ 53 * 2 ^ 53)). nia. }
  cbn [Zdigits2] in Hd.
  pose proof (fexp_mono (Zpos (digits2_pos (mx * my)) + (ex + ey)) (107 + 2 * B) ltac:(lia)) as Hf.
  unfold fexp, emin, prec, emax in Hf |- *. lia.
Qed.

Lemma SFone_value : SFone prec emax = S754_finite false 4503599627370496 (-52).
Proof. vm_compute. reflexivity. Qed.

(** [2 ^ n] as a float. *)
Lemma SFldexp_one_small (n B : Z) :
  Z.max (n - 52) (-1074) + 1 <= B -> B <= 971 ->
  SF_small B (SFldexp prec emax (SFone prec emax) n) = true.
Proof.
  intros Hn HB. rewrite SFone_value. cbn [SFldexp].
  apply binary_round_small; [|exact HB].
  replace (Zpos (digits2_pos 4503599627370496)) with 53 by (vm_compute; reflexivity).
  unfold fexp, emin, prec, emax. lia.
Qed.

Lemma SFfrexp_snd (s : bool) (m : positive) (e : Z) :
  snd (SFfrexp prec emax (S754_finite s m e)) <= e + 53.
Proof.
  cbn [SFfrexp]. destruct (prec <=? Zpos (digits2_pos m)) eqn:E; cbn [snd].
  - unfold prec. lia.
  - apply Z.leb_gt in E. unfold prec in *. lia.
Qed.

Lemma SFulp_small (s : bool) (m : positive) (e B : Z) :
  e <= B -> -1073 <= B -> B <= 971 ->
  SF_small B (SFulp prec emax (S754_finite s m e)) = true.
Proof.
  intros He HB HB'. unfold SFulp. apply SFldexp_one_small; [|exact HB'].
  pose proof (SFfrexp_snd s m e) as H.
  apply fexp_mono in H. unfold fexp, emin, prec, emax in H |- *. lia.
Qed.

Lemma SFpred_pos_small (s : bool) (m : positive) (e B : Z) :
  Zpos m <= 2 ^ 53 -> e <= B -> -1073 <= B -> B + 3 <= 971 ->
  SF_small (B + 3) (SFpred_pos prec emax (S754_finite s m e)) = true.
Proof.
  intros Hm He HB HB'. unfold SFpred_pos.
  apply SF64sub_small; try lia.
  - apply SF_small_finite. lia.
  - destruct (Pos.eqb _ _).
    + apply SFldexp_one_small; [|lia].
      pose proof (SFfrexp_snd s m e) as H.
      pose proof (fexp_mono (snd (SFfrexp prec emax (S754_finite s m e)) - 1) (e + 53)
                    ltac:(lia)) as H'.
      unfold fexp, emin, prec, emax in H' |- *. lia.
    + apply SFulp_small; lia.
Qed.

Lemma SF64succ_small (x : spec_float) (B : Z) :
  SF_small B x = true -> -1073 <= B -> B + 3 <= 971 ->
  SF_small (B + 3) (SF64succ x) = true.
Proof.
  intros Hx HB HB'. unfold SF64succ, SFsucc.
  destruct x as [sx|sx| |[|] m e]; try discriminate.
  - apply SFldexp_one_small; [|lia]. unfold emin, emax, prec. lia.
  - apply SF_small_finite in Hx as [Hm He].
    rewrite SF_small_opp. cbn [SFopp negb].
    apply SFpred_pos_small; lia.
  - apply SF_small_finite in Hx as [Hm He].
    apply SF64add_small; try lia.
    + apply SF_small_finite. lia.
    + apply SFulp_small; lia.
Qed.

Lemma SF64pred_small (x : spec_float) (B : Z) :
  SF_small B x = true -> -1073 <= B -> B + 3 <= 971 ->
  SF_small (B + 3) (SF64pred x) = true.
Proof.
  intros Hx HB HB'. unfold SF64pred, SFpred.
  rewrite SF_small_opp. apply SF64succ_small; try lia.
  rewrite SF_small_opp. exact Hx.
Qed.

Lemma is_infinity_small (y : float) (B : Z) :
  SF_small B (Prim2SF y) = true -> is_infinity y = false.
Proof.
  intros H. unfold is_infinity.
  rewrite FloatAxioms.eqb_spec, FloatAxioms.abs_spec.
  replace (Prim2SF infinity) with (S754_infinity false) by (vm_compute; reflexivity).
  destruct (Prim2SF y) as [s|s| |s m e]; try discriminate; reflexivity.
Qed.

(** ** The coordinates of the simulator *)

(** The latitude of a record of the simulator is a double of the exponent of
    the origin's latitude, with a mantissa between those of 37.498 and 37.618. *)
Lemma latitude_grid (off : float) :
  (- 0.06 <=? off)%float = true -> (off <=? 0.06)%float = true ->
  exists q : positive,
    Prim2SF (py_round (37.558 + off) 6) = S754_finite false q (25 - 72) /\
    5277374338348089 <= Zpos q <= 5294262836950729.
Proof.
  intros H1 H2.
  exact (rounded_offset_grid 37.558 off 5285818587649409 8444249301320
           37498000 37618000 25 5277374338348089 5294262836950729
           ltac:(vm_compute; reflexivity) ltac:(vm_compute; reflexivity) H1 H2).
Qed.

Lemma longitude_grid (off : float) :
  (- 0.06 <=? off)%float = true -> (off <=? 0.06)%float = true ->
  exists q : positive,
    Prim2SF (py_round (126.794 + off) 6) = S754_finite false q (26 - 72) /\
    8918112424612069 <= Zpos q <= 8926556673913389.
Proof.
  intros H1 H2.
  exact (rounded_offset_grid 126.794 off 8922334549262729 4222124650660
           126734000 126854000 26 8918112424612069 8926556673913389
           ltac:(vm_compute; reflexivity) ltac:(vm_compute; reflexivity) H1 H2).
Qed.

Lemma latitude_between (off : float) :
  (- 0.06 <=? off)%float = true -> (off <=? 0.06)%float = true ->
  (37.498 <=? py_round (37.558 + off) 6)%float = true /\
  (py_round (37.558 + off) 6 <=? 37.618)%float = true.
Proof.
  intros H1 H2. destruct (latitude_grid off H1 H2) as (q & Hq & Hqb).
  rewrite !FloatAxioms.leb_spec, Hq.
  replace (Prim2SF 37.498) with (S754_finite false 5277374338348089 (25 - 72))
    by (vm_compute; reflexivity).
  replace (Prim2SF 37.618) with (S754_finite false 5294262836950729 (25 - 72))
    by (vm_compute; reflexivity).
  split; apply SFleb_same_exponent; lia.
Qed.

Lemma longitude_between (off : float) :
  (- 0.06 <=? off)%float = true -> (off <=? 0.06)%float = true ->
  (126.734 <=? py_round (126.794 + off) 6)%float = true /\
  (py_round (126.794 + off) 6 <=? 126.854)%float = true.
Proof.
  intros H1 H2. destruct (longitude_grid off H1 H2) as (q & Hq & Hqb).
  rewrite !FloatAxioms.leb_spec, Hq.
  replace (Prim2SF 126.734) with (S754_finite false 8918112424612069 (26 - 72))
    by (vm_compute; reflexivity).
  replace (Prim2SF 126.854) with (S754_finite false 8926556673913389 (26 - 72))
    by (vm_compute; reflexivity).
  split; apply SFleb_same_exponent; lia.
Qed.

(** ** The simulator *)

(** The loop draws four numbers in range for each record and appends the
    records to the list in the order of the draws. *)
Lemma runs_simulate_strikes (todo : nat) (acc : list pyval) (t : list draw)
    (out : list pyval) :
  runs (simulate_strikes todo acc) t out <->
  exists ds : list strike_draws,
    List.length ds = todo /\ Forall draws_in_range ds /\
    t = flat_map trace_of_draws ds /\ out = (acc ++ map strike_json ds)%list.
Proof.
  revert acc t. induction todo as [|todo IH]; intros acc t.
  - cbn [simulate_strikes]. split.
    + intros H. apply runs_Ret_inv in H as [-> ->].
      exists []. cbn. rewrite app_nil_r. auto.
    + intros (ds & Hlen & _ & -> & ->).
      destruct ds; [|discriminate Hlen]. cbn. rewrite app_nil_r. constructor.
  - cbn [simulate_strikes rbind uniform randint]. split.
    + intros H.
      apply runs_Uniform_inv in H as (lat & t1 & -> & Hlat & H).
      apply runs_Uniform_inv in H as (lon & t2 & -> & Hlon & H).
      apply runs_Randint_inv in H as (idn & t3 & -> & Hid & H).
      apply runs_Randint_inv in H as (c & t4 & -> & Hc & H).
      apply IH in H as (ds & Hlen & Hds & -> & ->).
      exists ({| lat_offset := lat; lon_offset := lon; id_number := idn;
                 intensity := c |} :: ds).
      split; [cbn; now rewrite Hlen|]. split; [constructor; [|exact Hds]|].
      * unfold draws_in_range. cbn. auto.
      * split; [reflexivity|]. now rewrite <- app_assoc.
    + intros (ds & Hlen & Hds & -> & ->).
      destruct ds as [|d ds]; [discriminate Hlen|].
      injection Hlen as Hlen. inversion Hds as [|? ? Hd Hds']; subst.
      destruct Hd as ((Hl1 & Hl2) & (Hn1 & Hn2) & Hid & Hc).
      cbn [flat_map trace_of_draws app].
      constructor; [exact Hl1|exact Hl2|].
      constructor; [exact Hn1|exact Hn2|].
      constructor; [exact Hid|]. constructor; [exact Hc|].
      apply IH. exists ds. repeat split; [exact Hds'|].
      rewrite <- app_assoc. reflexivity.
Qed.

(** The runs of the simulator: a number of records from 0 to 5, then the draws
    of each record, and the answer that lists the records. *)
Lemma runs_kma_lightning_simulator (t : list draw) (r : reply) :
  runs kma_lightning_simulator t r <->
  exists ds : list strike_draws,
    (List.length ds <= 5)%nat /\ Forall draws_in_range ds /\
    t = IntDraw 0 5 (Z.of_nat (List.length ds)) :: flat_map trace_of_draws ds /\
    r = simulator_reply (map strike_json ds).
Proof.
  unfold kma_lightning_simulator. cbn [rbind randint]. split.
  - intros H. apply runs_Randint_inv in H as (n & t' & -> & Hn & H).
    apply runs_rbind in H as (strikes & t1 & t2 & H1 & H2 & ->).
    apply runs_Ret_inv in H2 as [-> ->].
    apply runs_simulate_strikes in H1 as (ds & Hlen & Hds & -> & ->).
    exists ds. rewrite Hlen, Z2Nat.id, app_nil_r by lia.
    repeat split; [lia|exact Hds].
  - intros (ds & Hlen & Hds & -> & ->).
    constructor; [lia|]. apply runs_rbind.
    exists (map strike_json ds), (flat_map trace_of_draws ds), [].
    rewrite app_nil_r. repeat split; [|constructor].
    apply runs_simulate_strikes. exists ds. rewrite Nat2Z.id. auto.
Qed.

(** C4 (amended).  Every answer of the simulator lists at most 5 records, and
    each record has an integer intensity from 10 to 100, a latitude that is
    [round(37.558 + offset, 6)] for an offset with [-0.06 <= offset <= 0.06],
    and a longitude that is [round(126.794 + offset, 6)] for such an offset.
    The latitude is between the doubles 37.498 and 37.618 and the longitude
    between the doubles 126.734 and 126.854, the 6-place roundings of the
    origin moved by 0.06 either way.  Every choice of at most 5 records' draws
    in range is a run. *)
Theorem simulator_records_in_range :
  (forall (t : list draw) (r : reply),
     runs kma_lightning_simulator t r ->
     exists records : list StrikeRecord,
       r = {| reply_status := 200;
              reply_body := PDict [("status", PStr "success");
                                   ("source", PStr "KMA Virtual Lightning Detector");
                                   ("data", PList (map strike_value records))] |} /\
       (0 <= List.length records <= 5)%nat /\
       Forall (fun s : StrikeRecord =>
                 10 <= intensity_kA s <= 100 /\
                 (exists offset : float,
                    (- 0.06 <=? offset)%float = true /\ (offset <=? 0.06)%float = true /\
                    latitude s = py_round (37.558 + offset)%float 6) /\
                 (exists offset : float,
                    (- 0.06 <=? offset)%float = true /\ (offset <=? 0.06)%float = true /\
                    longitude s = py_round (126.794 + offset)%float 6) /\
                 ((37.498 <=? latitude s)%float = true /\
                  (latitude s <=? 37.618)%float = true) /\
                 ((126.734 <=? longitude s)%float = true /\
                  (longitude s <=? 126.854)%float = true))
              records) /\
  (forall ds : list strike_draws,
     (List.length ds <= 5)%nat -> Forall draws_in_range ds ->
     runs kma_lightning_simulator
       (IntDraw 0 5 (Z.of_nat (List.length ds)) :: flat_map trace_of_draws ds)
       (simulator_reply (map strike_json ds))).
Proof.
  split.
  - intros t r H. apply runs_kma_lightning_simulator in H as (ds & Hlen & Hds & -> & ->).
    exists (map strike_of_draws ds).
    split; [unfold simulator_reply, simulator_body, strike_json; now rewrite map_map|].
    rewrite length_map. split; [lia|].
    apply Forall_map. eapply Forall_impl; [|exact Hds].
    intros d ((Hl1 & Hl2) & (Hn1 & Hn2) & _ & Hc). cbn.
    split; [exact Hc|]. split; [eauto|]. split; [eauto|].
    split; [exact (latitude_between _ Hl1 Hl2)|exact (longitude_between _ Hn1 Hn2)].
  - intros ds Hlen Hds. apply runs_kma_lightning_simulator. eauto.
Qed.

(** C4 on the run that draws one record with [sample_draws]. *)
Lemma simulator_records_in_range_witness :
  runs kma_lightning_simulator
    (IntDraw 0 5 1 :: trace_of_draws sample_draws)
    (simulator_reply [strike_json sample_draws]).
Proof.
  apply (proj2 simulator_records_in_range [sample_draws]).
  - cbn. lia.
  - repeat constructor; vm_compute; (reflexivity || discriminate).
Defined.

(** C4 as stated fails in its last inference: on the run that draws one record
    with the latitude offset [sample_offset], which is in range, the latitude
    is the double 37.618, and its distance from the double 37.558 is more than
    0.06, in the arithmetic of doubles and in exact arithmetic alike (the two
    doubles are 5294262836950729 and 5285818587649409 times 2^-47). *)
Lemma simulator_latitude_beyond_offset_bound :
  runs kma_lightning_simulator
    (IntDraw 0 5 1 :: trace_of_draws sample_draws)
    (simulator_reply [strike_value (strike_of_draws sample_draws)]) /\
  ((- 0.06 <=? sample_offset)%float = true /\ (sample_offset <=? 0.06)%float = true) /\
  latitude (strike_of_draws sample_draws) = 37.618%float /\
  (abs (latitude (strike_of_draws sample_draws) - 37.558) <=? 0.06)%float = false /\
  Prim2SF (latitude (strike_of_draws sample_draws))
  = S754_finite false 5294262836950729 (-47) /\
  Prim2SF 37.558 = S754_finite false 5285818587649409 (-47) /\
  (5294262836950729 - 5285818587649409) * 100 > 6 * 2 ^ 47.
Proof.
  split.
  - apply runs_kma_lightning_simulator. exists [sample_draws].
    repeat split; [cbn; lia|].
    repeat constructor; vm_compute; (reflexivity || discriminate).
  - repeat split; vm_compute; reflexivity.
Qed.

(** ** The report on the answers of the simulator *)

Section SmallSquares.
Context {libm : Libm}.

(** The square of a float far from overflow is computed without
    [OverflowError], whichever neighbour of the product the library returns. *)
Lemma float_pow2_small (x : float) :
  SF_small 400 (Prim2SF x) = true -> exists v : float, float_pow2 x = Ok v.
Proof.
  intros Hx. unfold float_pow2.
  destruct (is_nan x); [eauto|]. destruct (is_infinity x); [eauto|].
  destruct (x =? 0)%float; [eauto|]. cbv zeta.
  set (iv := if (x <? 0)%float then (- x)%float else x).
  destruct (iv =? 1)%float; [eauto|].
  assert (Hiv : SF_small 400 (Prim2SF iv) = true).
  { unfold iv. destruct (x <? 0)%float; [|exact Hx].
    rewrite FloatAxioms.opp_spec, SF_small_opp. exact Hx. }
  assert (Hp : SF_small 855 (Prim2SF (iv * iv)) = true).
  { rewrite FloatAxioms.mul_spec. apply (SF64mul_small _ _ 400); try assumption; lia. }
  destruct (libm_pow2_faithful iv) as [E|[E|E]]; rewrite E.
  - rewrite (is_infinity_small _ 855 Hp). eauto.
  - rewrite (is_infinity_small (next_up (iv * iv)) 858); [eauto|].
    rewrite FloatAxioms.next_up_spec. apply (SF64succ_small _ 855); try assumption; lia.
  - rewrite (is_infinity_small (next_down (iv * iv)) 858); [eauto|].
    rewrite FloatAxioms.next_down_spec. apply (SF64pred_small _ 855); try assumption; lia.
Qed.

(** A record whose coordinates are at most [2 ^ 53] in magnitude has
    representable squares. *)
Lemma squares_representable_small (s : StrikeRecord) :
  SF_small 0 (Prim2SF (latitude s)) = true ->
  SF_small 0 (Prim2SF (longitude s)) = true ->
  squares_representable s = true.
Proof.
  intros Hlat Hlon. unfold squares_representable.
  destruct (float_pow2_small (latitude s - GMP_LATITUDE)) as [v ->].
  { rewrite FloatAxioms.sub_spec.
    apply SF_small_mono with (B := 0 + 3); [lia|].
    apply SF64sub_small; try lia; [exact Hlat|vm_compute; reflexivity]. }
  destruct (float_pow2_small (longitude s - GMP_LONGITUDE)) as [w ->].
  { rewrite FloatAxioms.sub_spec.
    apply SF_small_mono with (B := 0 + 3); [lia|].
    apply SF64sub_small; try lia; [exact Hlon|vm_compute; reflexivity]. }
  reflexivity.
Qed.

(** The records of the simulator have representable squares. *)
Lemma strike_of_draws_representable (d : strike_draws) :
  draws_in_range d -> squares_representable (strike_of_draws d) = true.
Proof.
  intros ((Hl1 & Hl2) & (Hn1 & Hn2) & _ & _).
  apply squares_representable_small; cbn [strike_of_draws latitude longitude].
  - destruct (latitude_grid _ Hl1 Hl2) as (q & -> & Hq).
    apply SF_small_finite. lia.
  - destruct (longitude_grid _ Hn1 Hn2) as (q & -> & Hq).
    apply SF_small_finite. lia.
Qed.

Lemma simulator_strikes_representable (ds : list strike_draws) :
  Forall draws_in_range ds ->
  forallb squares_representable (map strike_of_draws ds) = true.
Proof.
  induction 1 as [|d ds Hd _ IH]; [reflexivity|].
  cbn [map forallb]. now rewrite (strike_of_draws_representable d Hd), IH.
Qed.

(** C2 (amended).  When the call returns a 2xx response whose [data] is a
    sequence of strike records, and the squared offsets of every record are
    representable, the handler answers with the success response: status
    ["success"], the fixed label, [strikes] the records inside the radius, in
    their order and unchanged, and [nearby_strikes_count] their number.  The
    records that the simulator produces are of this kind: on a 2xx response
    that carries an answer of the simulator, the handler answers with that
    success response on the records of the answer. *)
Theorem report_filters_representable_strikes (host_url : string)
    (requests_get : string -> result Response) (resp : Response) :
  requests_get (kma_api_url host_url) = Ok resp ->
  status_2xx resp ->
  (forall (d : list (string * pyval)) (recs : list StrikeRecord),
     json resp = Ok (PDict d) ->
     dict_lookup "data" d = Some (PList (map strike_value recs)) ->
     forallb squares_representable recs = true ->
     let kept := map strike_value (filter strike_inside recs) in
     gmp_lightning_report host_url requests_get =
     Ok {| reply_status := 200;
           reply_body := PDict [("status", PStr "success");
                                ("report_for", PStr "Gimpo Airport (GMP)");
                                ("nearby_strikes_count", PInt (Z.of_nat (List.length kept)));
                                ("strikes", PList kept)] |}) /\
  (forall (t : list draw) (answer : reply),
     runs kma_lightning_simulator t answer ->
     json resp = Ok (reply_body answer) ->
     exists recs : list StrikeRecord,
       reply_body answer = simulator_body (PList (map strike_value recs)) /\
       let kept := map strike_value (filter strike_inside recs) in
       gmp_lightning_report host_url requests_get =
       Ok {| reply_status := 200;
             reply_body := PDict [("status", PStr "success");
                                  ("report_for", PStr "Gimpo Airport (GMP)");
                                  ("nearby_strikes_count", PInt (Z.of_nat (List.length kept)));
                                  ("strikes", PList kept)] |}).
Proof.
  intros Hget Hstatus.
  assert (Hrecs : forall (d : list (string * pyval)) (recs : list StrikeRecord),
             json resp = Ok (PDict d) ->
             dict_lookup "data" d = Some (PList (map strike_value recs)) ->
             forallb squares_representable recs = true ->
             gmp_lightning_report host_url requests_get =
             Ok (success_reply (map strike_value (filter strike_inside recs)))).
  { intros d recs Hjson Hdata Hrep.
    rewrite (report_on_list host_url requests_get resp d _ Hget
               (raise_for_status_2xx resp Hstatus) Hjson Hdata).
    rewrite (nearby_strike_values recs Hrep). reflexivity. }
  split; [exact Hrecs|].
  intros t answer Hrun Hjson.
  apply runs_kma_lightning_simulator in Hrun as (ds & _ & Hds & _ & ->).
  exists (map strike_of_draws ds).
  assert (Hmap : map strike_value (map strike_of_draws ds) = map strike_json ds)
    by (rewrite map_map; reflexivity).
  split; [cbn [simulator_reply reply_body]; now rewrite Hmap|].
  apply (Hrecs [("status", PStr "success");
                ("source", PStr "KMA Virtual Lightning Detector");
                ("data", PList (map strike_json ds))]).
  - exact Hjson.
  - cbn. now rewrite Hmap.
  - exact (simulator_strikes_representable ds Hds).
Qed.

Lemma far_strike_overflows :
  strike_within_radius (strike_value far_strike) = Raise OverflowError.
Proof.
  rewrite strike_within_radius_value, is_within_radius_floats.
  cbv -[libm_pow2].
  match goal with
  | |- context [libm_pow2 ?x] =>
      rewrite (libm_pow2_range x) by (vm_compute; reflexivity)
  end.
  vm_compute. reflexivity.
Qed.

End SmallSquares.

(** C2 (amended) on a response with one record inside and one outside, and on
    a response that carries the answer of the simulator's run with
    [sample_draws]. *)
Lemma report_filters_representable_strikes_witness :
  @gmp_lightning_report exact_libm sample_host_url
    (network_returning 200 "OK"
       (Ok (simulator_body
              (PList (map strike_value [near_strike "strike_1234"; north_strike])))))
  = Ok {| reply_status := 200;
          reply_body := PDict [("status", PStr "success");
                               ("report_for", PStr "Gimpo Airport (GMP)");
                               ("nearby_strikes_count", PInt 1);
                               ("strikes", PList [strike_value (near_strike "strike_1234")])] |} /\
  exists recs : list StrikeRecord,
    simulator_body (PList [strike_json sample_draws])
    = simulator_body (PList (map strike_value recs)) /\
    @gmp_lightning_report exact_libm sample_host_url
      (network_returning 200 "OK" (Ok (simulator_body (PList [strike_json sample_draws]))))
    = Ok (success_reply (map strike_value (filter (@strike_inside exact_libm) recs))).
Proof.
  split.
  - apply (proj1 (@report_filters_representable_strikes exact_libm sample_host_url
                    (network_returning 200 "OK"
                       (Ok (simulator_body
                              (PList (map strike_value
                                        [near_strike "strike_1234"; north_strike])))))
                    {| status_code := 200; reason := "OK";
                       url := kma_api_url sample_host_url;
                       json := Ok (simulator_body
                                     (PList (map strike_value
                                               [near_strike "strike_1234"; north_strike]))) |}
                    eq_refl ltac:(unfold status_2xx; cbn; lia))
             [("status", PStr "success");
              ("source", PStr "KMA Virtual Lightning Detector");
              ("data", PList (map strike_value [near_strike "strike_1234"; north_strike]))]
             [near_strike "strike_1234"; north_strike]).
    + reflexivity.
    + reflexivity.
    + vm_compute. reflexivity.
  - apply (proj2 (@report_filters_representable_strikes exact_libm sample_host_url
                    (network_returning 200 "OK"
                       (Ok (simulator_body (PList [strike_json sample_draws]))))
                    {| status_code := 200; reason := "OK";
                       url := kma_api_url sample_host_url;
                       json := Ok (simulator_body (PList [strike_json sample_draws])) |}
                    eq_refl ltac:(unfold status_2xx; cbn; lia))
             (IntDraw 0 5 1 :: trace_of_draws sample_draws)
             (simulator_reply [strike_json sample_draws])).
    + apply runs_kma_lightning_simulator. exists [sample_draws].
      repeat split; [cbn; lia|].
      repeat constructor; vm_compute; (reflexivity || discriminate).
    + reflexivity.
Defined.

(** C2 as stated fails: a 2xx response whose only record has the finite
    coordinates (1e200, 126.794) makes the handler raise [OverflowError],
    whatever the C library, so no success response is produced. *)
Lemma report_raises_on_far_strike :
  is_finite (latitude far_strike) = true /\
  is_finite (longitude far_strike) = true /\
  forall libm : Libm,
    @gmp_lightning_report libm sample_host_url
      (network_returning 200 "OK" (Ok (simulator_body (PList [strike_value far_strike]))))
    = Raise OverflowError.
Proof.
  split; [vm_compute; reflexivity|]. split; [vm_compute; reflexivity|].
  intros libm. rewrite report_on_network by lia.
  rewrite nearby_cons, far_strike_overflows. reflexivity.
Qed.

(** ** The identifiers of the simulator *)

Lemma Zrange_In (a : Z) (len : nat) (n : Z) :
  a <= n < a + Z.of_nat len -> In n (Zrange a len).
Proof.
  revert a. induction len as [|len IH]; intros a H; [lia|].
  cbn [Zrange]. destruct (Z.eq_dec a n) as [->|Hne]; [now left|].
  right. apply IH. lia.
Qed.

Lemma str_of_int_four_digits (n : Z) :
  1000 <= n <= 9999 -> String.length (str_of_int n) = 4%nat.
Proof.
  intros H.
  assert (Hall : forallb (fun n => Nat.eqb (String.length (str_of_int n)) 4)
                   (Zrange 1000 (Z.to_nat 9000)) = true) by (vm_compute; reflexivity).
  rewrite forallb_forall in Hall.
  apply Nat.eqb_eq. apply Hall. apply Zrange_In. rewrite Z2Nat.id; lia.
Qed.

Lemma str_of_int_inj (n m : Z) : str_of_int n = str_of_int m -> n = m.
Proof.
  unfold str_of_int. intros H.
  assert (Hnonnil : forall z : Z, Z.to_int z <> Decimal.Pos Decimal.Nil /\
                                  Z.to_int z <> Decimal.Neg Decimal.Nil).
  { intros [|p|p]; cbn; split; try discriminate;
      intros E; injection E as E; revert E; apply DecimalPos.Unsigned.to_uint_nonnil. }
  assert (E : Some (Z.to_int n) = Some (Z.to_int m)).
  { rewrite <- (NilZero.isi (Z.to_int n)), <- (NilZero.isi (Z.to_int m));
      try apply Hnonnil. now rewrite H. }
  injection E as E.
  rewrite <- (DecimalZ.of_to n), <- (DecimalZ.of_to m). now rewrite E.
Qed.

(** ** Probabilities *)

Lemma Qc_of_nat_S (n : nat) : Qc_of_nat (S n) = (Qc_of_nat n + 1)%Qc.
Proof.
  unfold Qc_of_nat. apply Qc_is_canon.
  unfold Qcplus, Q2Qc. cbn [this].
  rewrite !Qred_correct. rewrite Nat2Z.inj_succ. unfold Z.succ.
  rewrite inject_Z_plus. reflexivity.
Qed.

Lemma Qc_of_nat_S_nonzero (n : nat) : Qc_of_nat (S n) <> 0%Qc.
Proof.
  unfold Qc_of_nat. change 0%Qc with (Q2Qc 0). rewrite Q2Qc_eq_iff.
  unfold Qeq, inject_Z. cbn [Qnum Qden]. lia.
Qed.

Lemma sum_constant (c : Qc) (l : list Qc) :
  Forall (fun x => x = c) l ->
  fold_right Qcplus 0%Qc l = (c * Qc_of_nat (List.length l))%Qc.
Proof.
  induction 1 as [|x l Hx _ IH]; cbn [fold_right List.length].
  - change (Qc_of_nat 0) with 0%Qc. ring.
  - rewrite IH, Hx, Qc_of_nat_S. ring.
Qed.

Lemma mean_constant (c : Qc) (l : list Qc) :
  l <> [] -> Forall (fun x => x = c) l -> mean l = c.
Proof.
  intros Hne Hall. unfold mean. rewrite (sum_constant c l Hall).
  destruct l as [|x l]; [contradiction|].
  field. apply Qc_of_nat_S_nonzero.
Qed.

Section ExpectationProperties.
Variable uniform_support : float -> float -> list float.

Lemma expect_ext {A : Type} (p : Rand A) (h h' : A -> Qc) :
  (forall a, h a = h' a) -> expect uniform_support p h = expect uniform_support p h'.
Proof.
  intros Hh. induction p as [a|a b k IH|a b k IH]; cbn [expect].
  - apply Hh.
  - f_equal. apply map_ext. exact IH.
  - f_equal. apply map_ext. exact IH.
Qed.

Lemma expect_rbind {A B : Type} (p : Rand A) (f : A -> Rand B) (h : B -> Qc) :
  expect uniform_support (rbind p f) h = expect uniform_support p (fun a => expect uniform_support (f a) h).
Proof.
  induction p as [a|a b k IH|a b k IH]; cbn [expect rbind].
  - reflexivity.
  - f_equal. apply map_ext. exact IH.
  - f_equal. apply map_ext. exact IH.
Qed.

Lemma Zrange_length (a : Z) (len : nat) : List.length (Zrange a len) = len.
Proof. revert a. induction len as [|len IH]; intros a; cbn; [reflexivity|now rewrite IH]. Qed.

Lemma Zrange_bounds (a : Z) (len : nat) (n : Z) :
  In n (Zrange a len) -> a <= n < a + Z.of_nat len.
Proof.
  revert a. induction len as [|len IH]; intros a; cbn [Zrange In]; [contradiction|].
  intros [<-|H]; [lia|]. apply IH in H. lia.
Qed.

Lemma sum_indicator (c : Qc) (n a : Z) (len : nat) :
  fold_right Qcplus 0%Qc
    (map (fun m => if m =? n then c else 0%Qc) (Zrange a len))
  = if (a <=? n) && (n <? a + Z.of_nat len) then c else 0%Qc.
Proof.
  revert a. induction len as [|len IH]; intros a; cbn [Zrange map fold_right].
  - replace ((a <=? n) && (n <? a + Z.of_nat 0)) with false; [reflexivity|].
    symmetry. apply andb_false_iff.
    destruct (Z.leb_spec a n); [right; apply Z.ltb_ge; lia|now left].
  - rewrite IH. destruct (Z.eqb_spec a n) as [->|Hne].
    + replace (n + 1 <=? n) with false by (symmetry; apply Z.leb_gt; lia).
      replace (n <=? n) with true by (symmetry; apply Z.leb_le; lia).
      replace (n <? n + Z.of_nat (S len)) with true by (symmetry; apply Z.ltb_lt; lia).
      cbn [andb]. ring.
    + destruct (Z.leb_spec (a + 1) n) as [Hle|Hgt].
      * replace (a <=? n) with true by (symmetry; apply Z.leb_le; lia).
        replace (n <? a + 1 + Z.of_nat len) with (n <? a + Z.of_nat (S len))
          by (f_equal; lia).
        cbn [andb]. ring.
      * replace (a <=? n) with false by (symmetry; apply Z.leb_gt; lia).
        cbn [andb]. ring.
Qed.

Lemma mean_indicator (c : Qc) (n a : Z) (len : nat) :
  a <= n < a + Z.of_nat len ->
  mean (map (fun m => if m =? n then c else 0%Qc) (Zrange a len))
  = (c / Qc_of_nat len)%Qc.
Proof.
  intros H. unfold mean. rewrite sum_indicator, length_map, Zrange_length.
  replace (a <=? n) with true by (symmetry; apply Z.leb_le; lia).
  replace (n <? a + Z.of_nat len) with true by (symmetry; apply Z.ltb_lt; lia).
  reflexivity.
Qed.

Lemma mean_map_constant {X : Type} (f : X -> Qc) (c : Qc) (l : list X) :
  l <> [] -> (forall x, In x l -> f x = c) -> mean (map f l) = c.
Proof.
  intros Hne Hall. apply mean_constant.
  - destruct l; [contradiction|discriminate].
  - apply Forall_map. apply Forall_forall. exact Hall.
Qed.

Lemma Zrange_nonempty (a : Z) (len : nat) : (0 < len)%nat -> Zrange a len <> [].
Proof. destruct len; [lia|discriminate]. Qed.

End ExpectationProperties.

Section Probabilities.
Variable uniform_support : float -> float -> list float.
Hypothesis uniform_support_nonempty : forall a b : float, uniform_support a b <> [].

Lemma probability_random_number (n : Z) :
  1 <= n <= 99 ->
  probability uniform_support random_number (answers_number n) = Q2Qc (1 # 99).
Proof.
  intros Hn. unfold probability, random_number. cbn [rbind randint expect].
  change (Z.to_nat (99 - 1 + 1)) with 99%nat.
  rewrite (map_ext _ (fun m => if m =? n then 1%Qc else 0%Qc)) by reflexivity.
  rewrite mean_indicator by lia.
  apply Qc_is_canon. vm_compute. reflexivity.
Qed.


Lemma strike_has_id_drawn (n : Z) (lat lon : float) (idn c : Z) :
  strike_has_id ("strike_" ++ str_of_int n)
    (PDict [("id", PStr ("strike_" ++ str_of_int idn));
            ("latitude", PFloat lat); ("longitude", PFloat lon);
            ("intensity_kA", PInt c)])
  = (idn =? n).
Proof.
  cbn [strike_has_id dict_lookup]. change (String.eqb "id" "id") with true. cbv iota.
  destruct (Z.eqb_spec idn n) as [->|Hne].
  - apply String.eqb_refl.
  - apply String.eqb_neq. intros H. apply Hne.
    injection H as H. now apply str_of_int_inj.
Qed.

(** The probability, from inside the loop, that the finished list has [k]
    records and that its record [i] carries the identifier of the number [n]. *)
Lemma expect_simulate_strikes (k i : nat) (n : Z) (todo : nat) (acc : list pyval) :
  (i < k)%nat -> 1000 <= n <= 9999 ->
  expect uniform_support (simulate_strikes todo acc)
    (fun strikes =>
       if lists_id_at k i ("strike_" ++ str_of_int n) strikes then 1%Qc else 0%Qc)
  = if negb (Nat.eqb (List.length acc + todo) k) then 0%Qc
    else if Nat.ltb i (List.length acc) then
           match nth_error acc i with
           | Some v => if strike_has_id ("strike_" ++ str_of_int n) v then 1%Qc else 0%Qc
           | None => 0%Qc
           end
         else Q2Qc (1 # 9000).
Proof.
  intros Hi Hn. revert acc. induction todo as [|todo IH]; intros acc.
  - cbn [simulate_strikes expect]. unfold lists_id_at.
    rewrite Nat.add_0_r.
    destruct (Nat.eqb_spec (List.length acc) k) as [Hk|Hk]; cbn [negb andb];
      [|reflexivity].
    replace (Nat.ltb i (List.length acc)) with true
      by (symmetry; apply Nat.ltb_lt; lia).
    destruct (nth_error acc i); reflexivity.
  - cbn [simulate_strikes rbind uniform randint expect].
    set (value := if negb (Nat.eqb (List.length acc + S todo) k) then 0%Qc
                  else if Nat.ltb i (List.length acc) then
                         match nth_error acc i with
                         | Some v =>
                             if strike_has_id ("strike_" ++ str_of_int n) v
                             then 1%Qc else 0%Qc
                         | None => 0%Qc
                         end
                       else Q2Qc (1 # 9000)).
    apply mean_map_constant; [apply uniform_support_nonempty|]. intros lat _.
    apply mean_map_constant; [apply uniform_support_nonempty|]. intros lon _.
    (* the value after the identifier is drawn *)
    rewrite (map_ext_in _
               (fun idn => if negb (Nat.eqb (List.length acc + S todo) k) then 0%Qc
                           else if Nat.ltb i (List.length acc) then value
                           else if Nat.eqb i (List.length acc) then
                                  (if idn =? n then 1%Qc else 0%Qc)
                                else Q2Qc (1 # 9000))).
    2:{ intros idn _. apply mean_map_constant; [apply Zrange_nonempty; cbn; lia|].
        intros c _. rewrite IH. rewrite length_app. cbn [List.length].
        replace (List.length acc + 1 + todo)%nat with (List.length acc + S todo)%nat
          by lia.
        destruct (Nat.eqb (List.length acc + S todo) k) eqn:Ek; cbn [negb];
          [|reflexivity].
        destruct (Nat.ltb_spec i (List.length acc)) as [Hlt|Hge].
        - replace (Nat.ltb i (List.length acc + 1)) with true
            by (symmetry; apply Nat.ltb_lt; lia).
          rewrite nth_error_app1 by exact Hlt.
          unfold value. try rewrite Ek. cbn [negb].
          replace (Nat.ltb i (List.length acc)) with true
            by (symmetry; apply Nat.ltb_lt; lia).
          reflexivity.
        - destruct (Nat.eqb_spec i (List.length acc)) as [->|Hne].
          + replace (Nat.ltb (List.length acc) (List.length acc + 1)) with true
              by (symmetry; apply Nat.ltb_lt; lia).
            rewrite nth_error_app2, Nat.sub_diag by lia. cbn [nth_error].
            rewrite strike_has_id_drawn. reflexivity.
          + replace (Nat.ltb i (List.length acc + 1)) with false
              by (symmetry; apply Nat.ltb_ge; lia).
            reflexivity. }
    unfold value.
    destruct (Nat.eqb (List.length acc + S todo) k) eqn:Ek; cbn [negb].
    2:{ apply mean_map_constant; [apply Zrange_nonempty; cbn; lia|reflexivity]. }
    destruct (Nat.ltb i (List.length acc)) eqn:Elt.
    { apply mean_map_constant; [apply Zrange_nonempty; cbn; lia|reflexivity]. }
    destruct (Nat.eqb i (List.length acc)) eqn:Eeq.
    + rewrite mean_indicator by (change (Z.to_nat (9999 - 1000 + 1)) with (Z.to_nat 9000);
                                  rewrite Z2Nat.id; lia).
      apply Qc_is_canon. vm_compute. reflexivity.
    + apply mean_map_constant; [apply Zrange_nonempty; cbn; lia|reflexivity].
Qed.

Lemma probability_identifier (k i : nat) (n : Z) :
  (i < k <= 5)%nat -> 1000 <= n <= 9999 ->
  probability uniform_support kma_lightning_simulator
    (fun r => lists_id_at k i ("strike_" ++ str_of_int n) (reply_strikes r))
  = Q2Qc (1 # 54000).
Proof.
  intros Hik Hn. unfold probability, kma_lightning_simulator.
  cbn [rbind randint expect].
  change (Z.to_nat (5 - 0 + 1)) with 6%nat.
  rewrite (map_ext_in _
             (fun num => if num =? Z.of_nat k then Q2Qc (1 # 9000) else 0%Qc)).
  - rewrite mean_indicator by lia. apply Qc_is_canon. vm_compute. reflexivity.
  - intros num Hnum. apply Zrange_bounds in Hnum.
    rewrite expect_rbind. cbn [expect].
    rewrite (expect_ext _ _ _
               (fun strikes =>
                  if lists_id_at k i ("strike_" ++ str_of_int n) strikes
                  then 1%Qc else 0%Qc)) by reflexivity.
    rewrite expect_simulate_strikes by lia.
    cbn [List.length Nat.add]. change (Nat.ltb i 0) with false.
    destruct (Z.eqb_spec num (Z.of_nat k)) as [->|Hne].
    + rewrite Nat2Z.id, Nat.eqb_refl. reflexivity.
    + replace (Nat.eqb (Z.to_nat num) k) with false; [reflexivity|].
      symmetry. apply Nat.eqb_neq. lia.
Qed.

End Probabilities.

(** C7.  The random-number handler takes no input and makes one call,
    [random.randint(1, 99)]; it answers [{number: n}] with the integer [n] of
    that call, so [1 <= n <= 99]; each of the 99 integers is the answer of
    exactly one outcome of the call and has the probability 1/99; and there is
    no run without an answer. *)
Theorem random_number_in_range :
  (forall (t : list draw) (r : reply),
     runs random_number t r ->
     exists n : Z,
       1 <= n <= 99 /\ t = [IntDraw 1 99 n] /\
       r = {| reply_status := 200; reply_body := PDict [("number", PInt n)] |}) /\
  (forall n : Z,
     1 <= n <= 99 ->
     runs random_number [IntDraw 1 99 n]
       {| reply_status := 200; reply_body := PDict [("number", PInt n)] |}) /\
  (forall n m : Z, number_reply n = number_reply m -> n = m) /\
  (forall (uniform_support : float -> float -> list float) (n : Z),
     1 <= n <= 99 ->
     probability uniform_support random_number (answers_number n) = Q2Qc (1 # 99)).
Proof.
  split; [|split; [|split]].
  - intros t r H. unfold random_number in H. cbn [rbind randint] in H.
    apply runs_Randint_inv in H as (n & t' & -> & Hn & H).
    apply runs_Ret_inv in H as [-> ->]. eauto.
  - intros n Hn. unfold random_number. cbn [rbind randint].
    constructor; [exact Hn|constructor].
  - intros n m H. injection H as H. exact H.
  - exact probability_random_number.
Qed.

(** C9.  In every answer of the simulator the identifier of each record is the
    prefix ["strike_"] followed by the decimal digits of the integer that the
    record's own call [random.randint(1000, 9999)] returned, which has four
    digits, and two numbers give two identifiers; so, whatever the number of
    records, each of the 9000 identifiers is as likely as another at each
    position: an answer with [k] records whose record [i] carries a given
    identifier has the probability 1/6 * 1/9000.  Nothing removes duplicates:
    for every number of the range there is an answer in which two records carry
    its identifier. *)
Theorem simulator_identifiers :
  (forall (t : list draw) (r : reply),
     runs kma_lightning_simulator t r ->
     exists ds : list strike_draws,
       t = IntDraw 0 5 (Z.of_nat (List.length ds)) :: flat_map trace_of_draws ds /\
       r = simulator_reply (map (fun d => strike_value (strike_of_draws d)) ds) /\
       Forall (fun d : strike_draws =>
                 In (IntDraw 1000 9999 (id_number d)) (trace_of_draws d) /\
                 1000 <= id_number d <= 9999 /\
                 String.length (str_of_int (id_number d)) = 4%nat /\
                 strike_id (strike_of_draws d) = "strike_" ++ str_of_int (id_number d))
              ds) /\
  (forall n m : Z, "strike_" ++ str_of_int n = "strike_" ++ str_of_int m -> n = m) /\
  (forall (uniform_support : float -> float -> list float) (k i : nat) (n : Z),
     (forall a b : float, uniform_support a b <> []) ->
     (i < k <= 5)%nat -> 1000 <= n <= 9999 ->
     probability uniform_support kma_lightning_simulator
       (fun r => lists_id_at k i ("strike_" ++ str_of_int n) (reply_strikes r))
     = (Q2Qc (1 # 6) * Q2Qc (1 # 9000))%Qc) /\
  (forall n : Z,
     1000 <= n <= 9999 ->
     strike_id (strike_of_draws (draws_with_id n 10))
     = strike_id (strike_of_draws (draws_with_id n 20)) /\
     runs kma_lightning_simulator
       (IntDraw 0 5 2 :: trace_of_draws (draws_with_id n 10)
                         ++ trace_of_draws (draws_with_id n 20))%list
       (simulator_reply [strike_value (strike_of_draws (draws_with_id n 10));
                         strike_value (strike_of_draws (draws_with_id n 20))])).
Proof.
  split; [|split; [|split]].
  - intros t r H. apply runs_kma_lightning_simulator in H as (ds & _ & Hds & -> & ->).
    exists ds. repeat split. eapply Forall_impl; [|exact Hds].
    intros d (_ & _ & Hid & _). repeat split; try lia.
    + cbn. auto.
    + now apply str_of_int_four_digits.
  - intros n m H. injection H as H. now apply str_of_int_inj.
  - intros uniform_support k i n Hne Hik Hn.
    rewrite (probability_identifier uniform_support Hne k i n Hik Hn).
    apply Qc_is_canon. vm_compute. reflexivity.
  - intros n Hn. split; [reflexivity|].
    apply runs_kma_lightning_simulator.
    exists [draws_with_id n 10; draws_with_id n 20].
    split; [cbn; lia|]. split; [|split; reflexivity].
    repeat constructor; cbn; try lia; vm_compute; reflexivity.
Qed.

(** C9 on the identifier number 4242: an answer in which two records carry
    it, and its probability at the second of two records when
    [random.uniform(a, b)] always returns [a]. *)
Lemma simulator_identifiers_witness :
  runs kma_lightning_simulator
    (IntDraw 0 5 2 :: trace_of_draws (draws_with_id 4242 10)
                      ++ trace_of_draws (draws_with_id 4242 20))%list
    (simulator_reply [strike_value (strike_of_draws (draws_with_id 4242 10));
                      strike_value (strike_of_draws (draws_with_id 4242 20))]) /\
  probability (fun a _ => [a]) kma_lightning_simulator
    (fun r => lists_id_at 2 1 ("strike_" ++ str_of_int 4242) (reply_strikes r))
  = (Q2Qc (1 # 6) * Q2Qc (1 # 9000))%Qc.
Proof.
  pose proof simulator_identifiers as (_ & _ & Hprob & Hdup).
  split.
  - apply (Hdup 4242). lia.
  - apply (Hprob (fun a _ => [a]) 2%nat 1%nat 4242); [discriminate|lia|lia].
Defined.

(** C7 on the number 42. *)
Lemma random_number_in_range_witness :
  runs random_number [IntDraw 1 99 42] (number_reply 42) /\
  probability (fun a _ => [a]) random_number (answers_number 42) = Q2Qc (1 # 99).
Proof.
  pose proof random_number_in_range as (_ & Hrun & _ & Hprob).
  split.
  - apply (Hrun 42). lia.
  - apply (Hprob (fun a _ => [a]) 42). lia.
Defined.

(** ** Operand types and special values of the radius predicate *)

Lemma Prim2SF_nan_is_nan (x : float) : Prim2SF x = S754_nan -> is_nan x = true.
Proof.
  intros H. unfold is_nan. rewrite FloatAxioms.eqb_spec, H. reflexivity.
Qed.

Lemma Prim2SF_infinity_is_infinity (x : float) (s : bool) :
  Prim2SF x = S754_infinity s -> is_nan x = false /\ is_infinity x = true.
Proof.
  intros H. unfold is_nan, is_infinity.
  rewrite !FloatAxioms.eqb_spec, FloatAxioms.abs_spec, H.
  change (Prim2SF infinity) with (S754_infinity false).
  destruct s; split; reflexivity.
Qed.

Section Operands.
Context {libm : Libm}.

(** The square of a NaN is the NaN, and the square of an infinity is
    [+infinity]; neither raises. *)
Lemma float_pow2_not_finite (x : float) :
  not_finite x = true -> exists v : float, float_pow2 x = Ok v /\ pinf_or_nan v.
Proof.
  unfold not_finite, float_pow2. intros H.
  destruct (is_nan x) eqn:En.
  - exists x. split; [reflexivity|]. right. now apply is_nan_Prim2SF.
  - cbn [orb] in H. rewrite H. exists (abs x). split; [reflexivity|]. left.
    destruct (is_infinity_Prim2SF x H) as [s Hs].
    rewrite FloatAxioms.abs_spec, Hs. reflexivity.
Qed.

(** Subtracting a finite constant from a NaN or an infinity leaves one. *)
Lemma sub_not_finite (x c : float) :
  not_finite x = true -> is_finite c = true -> not_finite (x - c) = true.
Proof.
  unfold not_finite, is_finite. intros Hx Hc.
  apply negb_true_iff in Hc. apply orb_false_iff in Hc as [Hc1 Hc2].
  assert (Hcf : match Prim2SF c with
                | S754_nan | S754_infinity _ => False
                | _ => True
                end).
  { destruct (Prim2SF c) as [s|s| |s m e] eqn:E; try exact I.
    - destruct (Prim2SF_infinity_is_infinity c s E). congruence.
    - rewrite (Prim2SF_nan_is_nan c E) in Hc1. discriminate. }
  destruct (is_nan x) eqn:En.
  - apply orb_true_iff. left. apply Prim2SF_nan_is_nan.
    rewrite FloatAxioms.sub_spec, (is_nan_Prim2SF x En). reflexivity.
  - cbn [orb] in Hx. destruct (is_infinity_Prim2SF x Hx) as [s Hs].
    apply orb_true_iff. right.
    apply (Prim2SF_infinity_is_infinity _ s).
    rewrite FloatAxioms.sub_spec, Hs.
    destruct (Prim2SF c) as [sc|sc| |sc mc ec]; try contradiction; reflexivity.
Qed.

(** X2.  A NaN or an infinite coordinate never makes the predicate raise by
    itself and is never inside: when the latitude is not finite the call
    returns [False] unless the square of the longitude's offset overflows,
    likewise with the two coordinates exchanged, and when neither is finite it
    returns [False]. *)
Theorem is_within_radius_not_finite (lat lon : float) :
  (not_finite lat = true ->
   is_within_radius (PFloat lat) (PFloat lon)
   = (_ <- float_pow2 (lon - GMP_LONGITUDE)%float ;; Ok false)) /\
  (not_finite lon = true ->
   is_within_radius (PFloat lat) (PFloat lon)
   = (_ <- float_pow2 (lat - GMP_LATITUDE)%float ;; Ok false)) /\
  (not_finite lat = true -> not_finite lon = true ->
   is_within_radius (PFloat lat) (PFloat lon) = Ok false).
Proof.
  assert (Hlat : not_finite lat = true ->
                 is_within_radius (PFloat lat) (PFloat lon)
                 = (_ <- float_pow2 (lon - GMP_LONGITUDE)%float ;; Ok false)).
  { intros H. rewrite is_within_radius_floats.
    destruct (float_pow2_not_finite (lat - GMP_LATITUDE)) as (v & -> & Hv).
    { apply sub_not_finite; [exact H|vm_compute; reflexivity]. }
    cbn [bind]. destruct (float_pow2 (lon - GMP_LONGITUDE)) as [w|e]; [|reflexivity].
    cbn [bind]. destruct float_pow2_radius as (r2 & -> & _). cbn [bind].
    now rewrite (pinf_or_nan_ltb _ r2 (add_pinf_or_nan_l v w Hv)). }
  assert (Hlon : not_finite lon = true ->
                 is_within_radius (PFloat lat) (PFloat lon)
                 = (_ <- float_pow2 (lat - GMP_LATITUDE)%float ;; Ok false)).
  { intros H. rewrite is_within_radius_floats.
    destruct (float_pow2_not_finite (lon - GMP_LONGITUDE)) as (w & -> & Hw).
    { apply sub_not_finite; [exact H|vm_compute; reflexivity]. }
    destruct (float_pow2 (lat - GMP_LATITUDE)) as [v|e]; [|reflexivity].
    cbn [bind]. destruct float_pow2_radius as (r2 & -> & _). cbn [bind].
    now rewrite (pinf_or_nan_ltb _ r2 (add_pinf_or_nan_r v w Hw)). }
  split; [exact Hlat|]. split; [exact Hlon|].
  intros H1 H2. rewrite (Hlat H1).
  destruct (float_pow2_not_finite (lon - GMP_LONGITUDE)) as (w & -> & _);
    [|reflexivity].
  apply sub_not_finite; [exact H2|vm_compute; reflexivity].
Qed.

(** X1.  The operands of [is_within_radius]: a latitude that is not a number
    (None, a string, a list, a dict) is a [TypeError], whatever the longitude;
    so is such a longitude once the latitude's square is computed; an [int] is
    converted to the nearest double, an [OverflowError] when it is beyond the
    doubles; and a [bool] counts as 1 or 0. *)
Theorem is_within_radius_operand_types :
  (forall lat lon : pyval,
     is_number lat = false -> is_within_radius lat lon = Raise TypeError) /\
  (forall (lat : float) (lon : pyval) (v : float),
     float_pow2 (lat - GMP_LATITUDE)%float = Ok v ->
     is_number lon = false ->
     is_within_radius (PFloat lat) lon = Raise TypeError) /\
  (forall (z : Z) (lon : pyval),
     is_within_radius (PInt z) lon =
     if is_infinity (Z2float z) then Raise OverflowError
     else is_within_radius (PFloat (Z2float z)) lon) /\
  (forall (lat : float) (z : Z) (v : float),
     float_pow2 (lat - GMP_LATITUDE)%float = Ok v ->
     is_within_radius (PFloat lat) (PInt z) =
     if is_infinity (Z2float z) then Raise OverflowError
     else is_within_radius (PFloat lat) (PFloat (Z2float z))) /\
  (forall (b : bool) (lon : pyval),
     is_within_radius (PBool b) lon =
     is_within_radius (PFloat (if b then 1 else 0)%float) lon) /\
  (forall (lat : pyval) (b : bool),
     is_within_radius lat (PBool b) =
     is_within_radius lat (PFloat (if b then 1 else 0)%float)).
Proof.
  repeat split.
  - intros lat lon H. destruct lat; try discriminate H; reflexivity.
  - intros lat lon v Hv H. unfold is_within_radius. cbn [py_sub_float bind].
    rewrite Hv. cbn [bind]. destruct lon; try discriminate H; reflexivity.
  - intros z lon. unfold is_within_radius, py_sub_float, py_float_of_int.
    cbv zeta. destruct (is_infinity (Z2float z)); reflexivity.
  - intros lat z v Hv. unfold is_within_radius, py_float_of_int.
    cbn [py_sub_float bind]. rewrite Hv. cbn [bind].
    unfold py_float_of_int. destruct (is_infinity (Z2float z)); reflexivity.
  - intros [|] lon; reflexivity.
  - intros lat [|]; reflexivity.
Qed.

End Operands.

(** A float of magnitude at most that of the finite float [c] is far from
    overflow, as far as [c] is. *)
Lemma abs_leb_small (x c : float) (mc : positive) (ec : Z) :
  Prim2SF c = S754_finite false mc ec ->
  (abs x <=? c)%float = true -> SF_small ec (Prim2SF x) = true.
Proof.
  intros Hc. rewrite FloatAxioms.leb_spec, FloatAxioms.abs_spec, Hc.
  pose proof (FloatAxioms.Prim2SF_valid x) as Hv.
  destruct (Prim2SF x) as [s|s| |s m e]; cbn [SFabs]; intros H.
  - reflexivity.
  - discriminate H.
  - discriminate H.
  - apply valid_mantissa_lt in Hv. apply SF_small_finite. split; [lia|].
    unfold SFleb, SFcompare in H.
    destruct (Z.compare_spec e ec); lia.
Qed.

Section Moderate.
Context {libm : Libm}.

Lemma float_pow2_sub_moderate (x c : float) :
  SF_small 397 (Prim2SF x) = true -> SF_small 397 (Prim2SF c) = true ->
  exists v : float, float_pow2 (x - c) = Ok v.
Proof.
  intros Hx Hc. apply float_pow2_small.
  rewrite FloatAxioms.sub_spec.
  apply (SF64sub_small _ _ 397); try assumption; lia.
Qed.

(** X3.  On two float coordinates of magnitude at most 1e100, which covers
    every latitude and longitude on Earth, no square overflows: the predicate
    raises nothing and returns a boolean, whichever neighbour of a product the
    C library returns. *)
Theorem is_within_radius_moderate (lat lon : float) :
  (abs lat <=? 1e100)%float = true ->
  (abs lon <=? 1e100)%float = true ->
  exists b : bool, is_within_radius (PFloat lat) (PFloat lon) = Ok b.
Proof.
  intros Hlat Hlon.
  assert (H100 : Prim2SF 1e100 = S754_finite false 5147557589468029 280)
    by (vm_compute; reflexivity).
  apply (abs_leb_small _ _ _ _ H100) in Hlat, Hlon.
  apply (SF_small_mono 280 397) in Hlat, Hlon; try lia.
  destruct (float_pow2_sub_moderate lat GMP_LATITUDE Hlat) as [v Hv];
    [vm_compute; reflexivity|].
  destruct (float_pow2_sub_moderate lon GMP_LONGITUDE Hlon) as [w Hw];
    [vm_compute; reflexivity|].
  destruct float_pow2_radius as (r2 & Hr & _).
  rewrite is_within_radius_floats, Hv, Hw. cbn [bind]. rewrite Hr. cbn [bind].
  eauto.
Qed.

End Moderate.

Section Mirror.
Context {libm : Libm}.

(** The square of a float is the square of its opposite. *)
Lemma float_pow2_opp (x : float) : float_pow2 (- x) = float_pow2 x.
Proof.
  unfold float_pow2, is_nan, is_infinity.
  rewrite !FloatAxioms.eqb_spec, !FloatAxioms.ltb_spec, !FloatAxioms.abs_spec,
    !FloatAxioms.opp_spec.
  change (Prim2SF 0) with (S754_zero false).
  change (Prim2SF infinity) with (S754_infinity false).
  destruct (Prim2SF x) as [s|s| |s m e] eqn:Ex.
  - destruct s; reflexivity.
  - assert (Habs : abs (- x) = abs x).
    { apply Prim2SF_inj. now rewrite !FloatAxioms.abs_spec, FloatAxioms.opp_spec, Ex. }
    rewrite Habs. destruct s; reflexivity.
  - assert (Hnan : (- x)%float = x).
    { apply Prim2SF_inj. now rewrite FloatAxioms.opp_spec, Ex. }
    rewrite Hnan. reflexivity.
  - assert (Hrefl : forall b : bool,
               SFeqb (S754_finite b m e) (S754_finite b m e) = true).
    { intros b. unfold SFeqb, SFcompare. rewrite Z.compare_refl.
      change (PosDef.Pos.compare_cont Eq m m) with (Pos.compare m m).
      rewrite Pos.compare_refl. destruct b; reflexivity. }
    assert (Hopp : (- - x)%float = x).
    { apply Prim2SF_inj. rewrite !FloatAxioms.opp_spec, Ex. cbn. now destruct s. }
    cbn [SFopp SFabs]. rewrite !Hrefl. cbn [negb].
    destruct s; cbn [negb]; rewrite ?Hopp; reflexivity.
Qed.

(** X4.  The predicate reads each offset from the origin through its square,
    so it does not tell a point from its mirror images: when the offsets of
    [lat'] and [lon'] are the opposites of those of [lat] and [lon], the calls
    on the four pairs return, or raise, alike. *)
Theorem is_within_radius_mirror (lat lat' lon lon' : float) :
  (lat' - GMP_LATITUDE = - (lat - GMP_LATITUDE))%float ->
  (lon' - GMP_LONGITUDE = - (lon - GMP_LONGITUDE))%float ->
  is_within_radius (PFloat lat') (PFloat lon') = is_within_radius (PFloat lat) (PFloat lon) /\
  is_within_radius (PFloat lat') (PFloat lon) = is_within_radius (PFloat lat) (PFloat lon) /\
  is_within_radius (PFloat lat) (PFloat lon') = is_within_radius (PFloat lat) (PFloat lon).
Proof.
  intros Hlat Hlon. rewrite !is_within_radius_floats, Hlat, Hlon, !float_pow2_opp.
  auto.
Qed.

End Mirror.

(** X3 on the point (37.560, 126.795). *)
Lemma is_within_radius_moderate_witness :
  exists b : bool, @is_within_radius exact_libm (PFloat 37.560) (PFloat 126.795) = Ok b.
Proof.
  apply (@is_within_radius_moderate exact_libm 37.560 126.795);
    vm_compute; reflexivity.
Defined.

(** X4 on the points at [2 ^ -9] degrees on either side of the origin, whose
    offsets are exact. *)
Lemma is_within_radius_mirror_witness :
  @is_within_radius exact_libm (PFloat 37.556046875) (PFloat 126.792046875)
  = @is_within_radius exact_libm (PFloat 37.559953125) (PFloat 126.795953125).
Proof.
  apply (proj1 (@is_within_radius_mirror exact_libm 37.559953125 37.556046875
                  126.795953125 126.792046875
                  ltac:(vm_compute; reflexivity) ltac:(vm_compute; reflexivity))).
Defined.

(** ** The comprehension and the handler on any answer *)

Section Comprehension.
Context {libm : Libm}.

Lemma nearby_decided (xs : list pyval) :
  forallb decides xs = true -> nearby xs = Ok (filter keeps xs).
Proof.
  induction xs as [|x xs IH]; intros H; [reflexivity|].
  cbn [forallb] in H. apply andb_prop in H as [Hx Hxs].
  rewrite nearby_cons, (IH Hxs). cbn [filter]. unfold decides in Hx. unfold keeps.
  destruct (strike_within_radius x) as [[|]|e]; try discriminate Hx; reflexivity.
Qed.

Lemma nearby_first_raise (pre : list pyval) (bad : pyval) (post : list pyval) (e : exn) :
  forallb decides pre = true -> strike_within_radius bad = Raise e ->
  nearby (pre ++ bad :: post) = Raise e.
Proof.
  intros Hpre Hbad. induction pre as [|x pre IH].
  - cbn [app]. rewrite nearby_cons, Hbad. reflexivity.
  - cbn [forallb] in Hpre. apply andb_prop in Hpre as [Hx Hpre].
    cbn [app]. rewrite nearby_cons, (IH Hpre). unfold decides in Hx.
    destruct (strike_within_radius x); [reflexivity|discriminate Hx].
Qed.

Lemma nearby_split (xs : list pyval) :
  forallb decides xs = true \/
  exists (pre : list pyval) (bad : pyval) (post : list pyval) (e : exn),
    xs = (pre ++ bad :: post)%list /\ forallb decides pre = true /\
    strike_within_radius bad = Raise e.
Proof.
  induction xs as [|x xs IH]; [now left|].
  destruct (strike_within_radius x) as [b|e] eqn:Ex.
  - destruct IH as [IH|(pre & bad & post & e & -> & Hpre & Hbad)].
    + left. cbn [forallb]. unfold decides at 1. now rewrite Ex.
    + right. exists (x :: pre), bad, post, e. split; [reflexivity|].
      split; [|exact Hbad]. cbn [forallb]. unfold decides at 1. now rewrite Ex.
  - right. exists [], x, xs, e. auto.
Qed.

(** X5.  The comprehension returns exactly when the condition returns on every
    item, and then with the items on which it is [True], in their order; it
    raises exactly when the condition raises on some item, and then with the
    exception of the first such item, the items before it being decided. *)
Theorem nearby_outcome (xs : list pyval) :
  (forall ys : list pyval,
     nearby xs = Ok ys <-> forallb decides xs = true /\ ys = filter keeps xs) /\
  (forall e : exn,
     nearby xs = Raise e <->
     exists (pre : list pyval) (bad : pyval) (post : list pyval),
       xs = (pre ++ bad :: post)%list /\ forallb decides pre = true /\
       strike_within_radius bad = Raise e).
Proof.
  split.
  - intros ys. split.
    + intros H. destruct (nearby_split xs) as [Hall|(pre & bad & post & e & -> & Hp & Hb)].
      * rewrite (nearby_decided xs Hall) in H. split; [exact Hall|congruence].
      * rewrite (nearby_first_raise pre bad post e Hp Hb) in H. discriminate H.
    + intros [Hall ->]. now apply nearby_decided.
  - intros e. split.
    + intros H. destruct (nearby_split xs) as [Hall|(pre & bad & post & e' & -> & Hp & Hb)].
      * rewrite (nearby_decided xs Hall) in H. discriminate H.
      * rewrite (nearby_first_raise pre bad post e' Hp Hb) in H.
        exists pre, bad, post. repeat split; congruence.
    + intros (pre & bad & post & -> & Hp & Hb). now apply nearby_first_raise.
Qed.

Lemma filter_length_le {A : Type} (f : A -> bool) (l : list A) :
  (List.length (filter f l) <= List.length l)%nat.
Proof.
  induction l as [|a l IH]; [reflexivity|]. cbn [filter].
  destruct (f a); cbn [List.length]; lia.
Qed.

Lemma raise_for_status_passes (r : Response) :
  status_passes r -> raise_for_status r = Ok tt.
Proof.
  unfold status_passes, raise_for_status. intros [H|H].
  - replace (400 <=? status_code r) with false by (symmetry; apply Z.leb_gt; lia).
    replace (500 <=? status_code r) with false by (symmetry; apply Z.leb_gt; lia).
    reflexivity.
  - replace (status_code r <? 500) with false by (symmetry; apply Z.ltb_ge; lia).
    replace (status_code r <? 600) with false by (symmetry; apply Z.ltb_ge; lia).
    rewrite !andb_false_r. reflexivity.
Qed.

Variable host_url : string.
Variable requests_get : string -> result Response.

(** X6.  The status check lets through every code that is not 4xx or 5xx, not
    only 200; on such a response whose [data] is a list of items on each of
    which the condition returns, whatever other keys the items and the body
    have, the handler answers with the success response: [strikes] holds the
    items on which the condition is [True], unchanged and in their order, and
    [nearby_strikes_count] is their number, at most the number of items
    received. *)
Theorem report_on_passing_status (resp : Response) (d : list (string * pyval))
    (items : list pyval) :
  requests_get (kma_api_url host_url) = Ok resp ->
  status_passes resp ->
  json resp = Ok (PDict d) ->
  dict_lookup "data" d = Some (PList items) ->
  forallb decides items = true ->
  gmp_lightning_report host_url requests_get
  = Ok {| reply_status := 200;
          reply_body :=
            PDict [("status", PStr "success");
                   ("report_for", PStr "Gimpo Airport (GMP)");
                   ("nearby_strikes_count",
                    PInt (Z.of_nat (List.length (filter keeps items))));
                   ("strikes", PList (filter keeps items))] |} /\
  0 <= Z.of_nat (List.length (filter keeps items)) <= Z.of_nat (List.length items).
Proof.
  intros Hget Hstatus Hjson Hdata Hall. split.
  - rewrite (report_on_list host_url requests_get resp d items Hget
               (raise_for_status_passes resp Hstatus) Hjson Hdata).
    rewrite (nearby_decided items Hall). reflexivity.
  - pose proof (filter_length_le keeps items). lia.
Qed.

(** X7.  The first item on which the condition raises ends the handler with
    that exception, which is never a [RequestException] and so is not caught:
    no response is built from the items decided before it, and the items after
    it are not looked at. *)
Theorem report_stops_at_first_raise (resp : Response) (d : list (string * pyval))
    (pre : list pyval) (bad : pyval) (post : list pyval) (e : exn) :
  requests_get (kma_api_url host_url) = Ok resp ->
  status_passes resp ->
  json resp = Ok (PDict d) ->
  dict_lookup "data" d = Some (PList (pre ++ bad :: post)) ->
  forallb decides pre = true ->
  strike_within_radius bad = Raise e ->
  gmp_lightning_report host_url requests_get = Raise e /\
  is_RequestException e = false.
Proof.
  intros Hget Hstatus Hjson Hdata Hpre Hbad.
  pose proof (strike_within_radius_raises bad e Hbad) as He.
  split; [|exact He].
  rewrite (report_on_list host_url requests_get resp d _ Hget
             (raise_for_status_passes resp Hstatus) Hjson Hdata).
  rewrite (nearby_first_raise pre bad post e Hpre Hbad).
  unfold report_except. now rewrite He.
Qed.

(** X8.  A body that decodes to anything but a JSON object (an array, a
    string, a number, a boolean, null) has no [get]: the handler ends in an
    [AttributeError], which it does not catch. *)
Theorem report_on_non_object_body (resp : Response) (body : pyval) :
  requests_get (kma_api_url host_url) = Ok resp ->
  status_passes resp ->
  json resp = Ok body ->
  is_dict body = false ->
  gmp_lightning_report host_url requests_get = Raise AttributeError.
Proof.
  intros Hget Hstatus Hjson Hbody.
  unfold gmp_lightning_report, report_try.
  change (urljoin host_url "api/kma/lightning-strikes") with (kma_api_url host_url).
  rewrite Hget. cbn [bind]. rewrite (raise_for_status_passes resp Hstatus).
  cbn [bind]. rewrite Hjson. cbn [bind].
  destruct body as [ |b|z|f|s|l|d]; try reflexivity.
  discriminate Hbody.
Qed.

(** X9.  The default of [get] stands in for a missing [data] only.  A [data]
    that is present and is null, a boolean or a number is not iterable, and a
    non-empty string or object yields strings, which cannot be indexed by
    ['latitude']: the handler ends in a [TypeError], which it does not catch.
    An empty string or an empty object yields nothing and gives the success
    response with no strikes. *)
Theorem report_on_non_list_data (resp : Response) (d : list (string * pyval))
    (data : pyval) :
  requests_get (kma_api_url host_url) = Ok resp ->
  status_passes resp ->
  json resp = Ok (PDict d) ->
  dict_lookup "data" d = Some data ->
  is_list data = false ->
  gmp_lightning_report host_url requests_get =
  match data with
  | PStr "" | PDict [] => Ok (success_reply [])
  | _ => Raise TypeError
  end.
Proof.
  intros Hget Hstatus Hjson Hdata Hnl.
  unfold gmp_lightning_report, report_try.
  change (urljoin host_url "api/kma/lightning-strikes") with (kma_api_url host_url).
  rewrite Hget. cbn [bind]. rewrite (raise_for_status_passes resp Hstatus).
  cbn [bind]. rewrite Hjson. cbn [bind py_get]. rewrite Hdata. cbn [bind].
  destruct data as [ |b|z|f|s|l|kv]; try reflexivity.
  - destruct s as [|c s]; reflexivity.
  - discriminate Hnl.
  - destruct kv as [|[k v] kv]; reflexivity.
Qed.

End Comprehension.

(** X6 on a 304 response with one record inside and one outside. *)
Lemma report_on_passing_status_witness :
  @gmp_lightning_report exact_libm sample_host_url
    (network_returning 304 "Not Modified"
       (Ok (simulator_body
              (PList [strike_value (near_strike "strike_1234");
                      strike_value north_strike]))))
  = Ok (success_reply [strike_value (near_strike "strike_1234")]).
Proof.
  apply (proj1 (@report_on_passing_status exact_libm sample_host_url
                  (network_returning 304 "Not Modified"
                     (Ok (simulator_body
                            (PList [strike_value (near_strike "strike_1234");
                                    strike_value north_strike]))))
                  {| status_code := 304; reason := "Not Modified";
                     url := kma_api_url sample_host_url;
                     json := Ok (simulator_body
                                   (PList [strike_value (near_strike "strike_1234");
                                           strike_value north_strike])) |}
                  [("status", PStr "success");
                   ("source", PStr "KMA Virtual Lightning Detector");
                   ("data", PList [strike_value (near_strike "strike_1234");
                                   strike_value north_strike])]
                  [strike_value (near_strike "strike_1234"); strike_value north_strike]
                  eq_refl ltac:(left; cbn; lia) eq_refl eq_refl
                  ltac:(vm_compute; reflexivity))).
Defined.

(** X7 on a list whose second record has a string for its latitude. *)
Lemma report_stops_at_first_raise_witness :
  @gmp_lightning_report exact_libm sample_host_url
    (network_returning 200 "OK"
       (Ok (simulator_body
              (PList [strike_value (near_strike "strike_1234");
                      strike_with_text_latitude;
                      strike_value north_strike]))))
  = Raise TypeError.
Proof.
  apply (proj1 (@report_stops_at_first_raise exact_libm sample_host_url
                  (network_returning 200 "OK"
                     (Ok (simulator_body
                            (PList [strike_value (near_strike "strike_1234");
                                    strike_with_text_latitude;
                                    strike_value north_strike]))))
                  {| status_code := 200; reason := "OK";
                     url := kma_api_url sample_host_url;
                     json := Ok (simulator_body
                                   (PList [strike_value (near_strike "strike_1234");
                                           strike_with_text_latitude;
                                           strike_value north_strike])) |}
                  [("status", PStr "success");
                   ("source", PStr "KMA Virtual Lightning Detector");
                   ("data", PList [strike_value (near_strike "strike_1234");
                                   strike_with_text_latitude;
                                   strike_value north_strike])]
                  [strike_value (near_strike "strike_1234")]
                  strike_with_text_latitude [strike_value north_strike] TypeError
                  eq_refl ltac:(left; cbn; lia) eq_refl eq_refl
                  ltac:(vm_compute; reflexivity) eq_refl)).
Defined.

(** X8 on a body that is a JSON array. *)
Lemma report_on_non_object_body_witness :
  @gmp_lightning_report exact_libm sample_host_url
    (network_returning 200 "OK" (Ok (PList [])))
  = Raise AttributeError.
Proof.
  apply (@report_on_non_object_body exact_libm sample_host_url
           (network_returning 200 "OK" (Ok (PList [])))
           {| status_code := 200; reason := "OK"; url := kma_api_url sample_host_url;
              json := Ok (PList []) |}
           (PList []) eq_refl ltac:(left; cbn; lia) eq_refl eq_refl).
Defined.

(** X9 on a body whose [data] is null. *)
Lemma report_on_non_list_data_witness :
  @gmp_lightning_report exact_libm sample_host_url
    (network_returning 200 "OK" (Ok (simulator_body PNone)))
  = Raise TypeError.
Proof.
  apply (@report_on_non_list_data exact_libm sample_host_url
           (network_returning 200 "OK" (Ok (simulator_body PNone)))
           {| status_code := 200; reason := "OK"; url := kma_api_url sample_host_url;
              json := Ok (simulator_body PNone) |}
           [("status", PStr "success");
            ("source", PStr "KMA Virtual Lightning Detector");
            ("data", PNone)]
           PNone eq_refl ltac:(left; cbn; lia) eq_refl eq_refl eq_refl).
Defined.

(** ** The decimals of the simulated coordinates *)

(** [round_half_even a d] is the integer whose multiple of [d] is at less than
    [d / 2] from [a]. *)
Lemma round_half_even_near (a d n : Z) :
  0 < d -> 2 * Z.abs (a - n * d) < d -> round_half_even a d = n.
Proof.
  intros Hd Hn. unfold round_half_even.
  pose proof (Z.mod_pos_bound a d Hd) as Hr.
  pose proof (Z.div_mod a d ltac:(lia)) as Ea.
  destruct (Z.le_gt_cases (n * d) a) as [Hle|Hgt].
  - assert (Hq : a / d = n) by (symmetry; apply (Z.div_unique a d n (a - n * d)); lia).
    assert (Hm : a mod d = a - n * d) by (rewrite Hq in Ea; lia).
    rewrite Hq, Hm. destruct (Z.compare_spec (2 * (a - n * d)) d); lia.
  - assert (Hq : a / d = n - 1)
      by (symmetry; apply (Z.div_unique a d (n - 1) (a - (n - 1) * d)); lia).
    assert (Hm : a mod d = a - (n - 1) * d) by (rewrite Hq in Ea; lia).
    rewrite Hq, Hm. destruct (Z.compare_spec (2 * (a - (n - 1) * d)) d); lia.
Qed.

(** The double that [SF_of_ratio] gives for [n / 10 ^ 6] is a normal double
    at less than two units of its last place from the ratio. *)
Lemma SF_of_ratio_near (n lo hi L : Z) :
  lo <= n <= hi -> 0 < lo ->
  Z.log2 lo = L -> Z.log2 hi = L -> 0 <= L <= 72 ->
  2 ^ 64 <= 2 * ratio_quotient (83 - L) lo ->
  2 * ratio_quotient (83 - L) hi + 1 < (2 ^ 53 - 1) * 2 ^ 12 ->
  exists q : positive,
    SF_of_ratio false n (10 ^ 6) = S754_finite false q (L - 72) /\
    2 ^ 52 <= Zpos q < 2 ^ 53 /\
    Z.abs (Zpos q * 10 ^ 6 - n * 2 ^ (72 - L)) < 2 * 10 ^ 6.
Proof.
  intros Hn Hlo HLlo HLhi HL Hlow Hhigh.
  assert (HLn : Z.log2 n = L).
  { pose proof (Z.log2_le_mono lo n ltac:(lia)).
    pose proof (Z.log2_le_mono n hi ltac:(lia)). lia. }
  pose proof (ratio_quotient_mono (83 - L) lo n ltac:(lia) ltac:(lia)) as Hq1.
  pose proof (ratio_quotient_mono (83 - L) n hi ltac:(lia) ltac:(lia)) as Hq2.
  destruct (SF_of_ratio_between n n n L) as (q & Hq & Hqb); try lia.
  exists q. split; [exact Hq|].
  set (A := ratio_quotient (83 - L) n) in *.
  assert (HP : 0 < 2 ^ (72 - L)) by (apply Z.pow_pos_nonneg; lia).
  assert (Hk : n * 2 ^ (83 - L) = n * 2 ^ (72 - L) * 2 ^ 11).
  { replace (83 - L) with (72 - L + 11) by lia. rewrite Z.pow_add_r by lia. ring. }
  assert (HA : A * 10 ^ 6 <= n * 2 ^ (72 - L) * 2 ^ 11 < (A + 1) * 10 ^ 6).
  { rewrite <- Hk. unfold A, ratio_quotient.
    pose proof (Z.div_mod (n * 2 ^ (83 - L)) (10 ^ 6) ltac:(lia)) as E.
    pose proof (Z.mod_pos_bound (n * 2 ^ (83 - L)) (10 ^ 6) ltac:(lia)). lia. }
  pose proof (Z.div_mod (2 * A) (2 ^ 12) ltac:(lia)) as E1.
  pose proof (Z.mod_pos_bound (2 * A) (2 ^ 12) ltac:(lia)) as B1.
  pose proof (Z.div_mod (2 * A + 1) (2 ^ 12) ltac:(lia)) as E2.
  pose proof (Z.mod_pos_bound (2 * A + 1) (2 ^ 12) ltac:(lia)) as B2.
  remember (2 * A / 2 ^ 12) as a1. remember ((2 * A + 1) / 2 ^ 12) as a2.
  remember (n * 2 ^ (72 - L)) as X.
  change (2 ^ 12) with 4096 in *. change (2 ^ 11) with 2048 in *.
  change (10 ^ 6) with 1000000 in *.
  change (2 ^ 64) with 18446744073709551616 in *.
  change (2 ^ 53) with 9007199254740992 in *.
  change (2 ^ 52) with 4503599627370496 in *.
  split; lia.
Qed.

(** The decimal behind a rounded coordinate: [round(c + off, 6)] is a double at
    less than two units of its last place from [n / 10 ^ 6] for an integer [n]
    between [lo] and [hi], and rounding it again returns it. *)
Lemma rounded_offset_decimal (c off : float) (M : positive) (K lo hi L : Z)
    (Mlo Mhi : positive) :
  Prim2SF c = S754_finite false M (L - 72) ->
  grid_check M K lo hi L Mlo Mhi = true ->
  2 ^ 64 <= 2 * ratio_quotient (83 - L) lo ->
  2 * ratio_quotient (83 - L) hi + 1 < (2 ^ 53 - 1) * 2 ^ 12 ->
  4 * 10 ^ 6 < 2 ^ (72 - L) ->
  (- 0.06 <=? off)%float = true -> (off <=? 0.06)%float = true ->
  exists (n : Z) (q : positive),
    lo <= n <= hi /\
    Prim2SF (py_round (c + off) 6) = S754_finite false q (L - 72) /\
    Z.abs (Zpos q * 10 ^ 6 - n * 2 ^ (72 - L)) < 2 * 10 ^ 6 /\
    py_round (py_round (c + off) 6) 6 = py_round (c + off) 6.
Proof.
  intros Hc Hgrid Hlow Hhigh Hulp Hoff1 Hoff2.
  unfold grid_check in Hgrid. cbv zeta in Hgrid.
  split_checks Hgrid.
  repeat match goal with
         | H : (_ <? _) = true |- _ => apply Z.ltb_lt in H
         | H : (_ <=? _) = true |- _ => apply Z.leb_le in H
         | H : (_ =? _) = true |- _ => apply Z.eqb_eq in H
         | H : SF_is _ _ _ = true |- _ => apply SF_is_true in H
         end.
  destruct (add_offset_mantissa c off M (L - 72) K Hc) as (q0 & Hq0 & Hq0b);
    try assumption; try lia.
  assert (Hpow : 0 < 2 ^ (- (L - 72))) by (apply Z.pow_pos_nonneg; lia).
  set (n := round_half_even (Zpos q0 * 10 ^ 6) (2 ^ (- (L - 72)))).
  assert (Hn : lo <= n <= hi).
  { subst lo hi. unfold n. split; apply round_half_even_mono; lia. }
  assert (Hround : py_round (c + off) 6 = SF2Prim (SF_of_ratio false n (10 ^ 6))).
  { rewrite (py_round_6_finite _ q0 (L - 72) Hq0) by (fold n; lia). reflexivity. }
  destruct (SF_of_ratio_near n lo hi L) as (q & Hq & Hqb & Hnear); try lia.
  assert (Hsf : Prim2SF (py_round (c + off) 6) = S754_finite false q (L - 72)).
  { rewrite Hround, Hq. apply Prim2SF_SF2Prim. apply valid_binary_normal; lia. }
  exists n, q. split; [exact Hn|]. split; [exact Hsf|]. split; [exact Hnear|].
  replace (72 - L) with (- (L - 72)) in Hnear, Hulp by lia.
  assert (Hagain : round_half_even (Zpos q * 10 ^ 6) (2 ^ (- (L - 72))) = n).
  { apply round_half_even_near; [exact Hpow|].
    change (10 ^ 6) with 1000000 in *. lia. }
  rewrite (py_round_6_finite _ q (L - 72) Hsf) by (rewrite ?Hagain; lia).
  rewrite Hagain. symmetry. exact Hround.
Qed.

Lemma latitude_decimal (off : float) :
  (- 0.06 <=? off)%float = true -> (off <=? 0.06)%float = true ->
  exists (n : Z) (q : positive),
    37498000 <= n <= 37618000 /\
    Prim2SF (py_round (37.558 + off) 6) = S754_finite false q (-47) /\
    Z.abs (Zpos q * 10 ^ 6 - n * 2 ^ 47) < 2 * 10 ^ 6 /\
    py_round (py_round (37.558 + off) 6) 6 = py_round (37.558 + off) 6.
Proof.
  intros H1 H2.
  exact (rounded_offset_decimal 37.558 off 5285818587649409 8444249301320
           37498000 37618000 25 5277374338348089 5294262836950729
           ltac:(vm_compute; reflexivity) ltac:(vm_compute; reflexivity)
           ltac:(vm_compute; discriminate) ltac:(vm_compute; reflexivity)
           ltac:(vm_compute; reflexivity) H1 H2).
Qed.

Lemma longitude_decimal (off : float) :
  (- 0.06 <=? off)%float = true -> (off <=? 0.06)%float = true ->
  exists (n : Z) (q : positive),
    126734000 <= n <= 126854000 /\
    Prim2SF (py_round (126.794 + off) 6) = S754_finite false q (-46) /\
    Z.abs (Zpos q * 10 ^ 6 - n * 2 ^ 46) < 2 * 10 ^ 6 /\
    py_round (py_round (126.794 + off) 6) 6 = py_round (126.794 + off) 6.
Proof.
  intros H1 H2.
  exact (rounded_offset_decimal 126.794 off 8922334549262729 4222124650660
           126734000 126854000 26 8918112424612069 8926556673913389
           ltac:(vm_compute; reflexivity) ltac:(vm_compute; reflexivity)
           ltac:(vm_compute; discriminate) ltac:(vm_compute; reflexivity)
           ltac:(vm_compute; reflexivity) H1 H2).
Qed.

(** X10.  The coordinates of every record of the simulator carry six decimal
    places: the latitude is a double [q * 2 ^ -47] at less than two units of
    its last place from [n / 10 ^ 6] for an integer [n] from 37498000 to
    37618000, and the longitude a double [q * 2 ^ -46] at less than two units
    of its last place from [n / 10 ^ 6] for an integer [n] from 126734000 to
    126854000. *)
Theorem simulator_coordinates_decimal (t : list draw) (r : reply) :
  runs kma_lightning_simulator t r ->
  exists records : list StrikeRecord,
    r = simulator_reply (map strike_value records) /\
    Forall (fun s : StrikeRecord =>
              (exists (n : Z) (q : positive),
                 37498000 <= n <= 37618000 /\
                 Prim2SF (latitude s) = S754_finite false q (-47) /\
                 Z.abs (Zpos q * 10 ^ 6 - n * 2 ^ 47) < 2 * 10 ^ 6) /\
              (exists (n : Z) (q : positive),
                 126734000 <= n <= 126854000 /\
                 Prim2SF (longitude s) = S754_finite false q (-46) /\
                 Z.abs (Zpos q * 10 ^ 6 - n * 2 ^ 46) < 2 * 10 ^ 6))
           records.
Proof.
  intros H. apply runs_kma_lightning_simulator in H as (ds & _ & Hds & _ & ->).
  exists (map strike_of_draws ds).
  split; [unfold strike_json; now rewrite map_map|].
  apply Forall_map. eapply Forall_impl; [|exact Hds].
  intros d ((Hl1 & Hl2) & (Hn1 & Hn2) & _). cbn [strike_of_draws latitude longitude].
  destruct (latitude_decimal _ Hl1 Hl2) as (n & q & Hn & Hq & Hnear & _).
  destruct (longitude_decimal _ Hn1 Hn2) as (n' & q' & Hn' & Hq' & Hnear' & _).
  split; [exists n, q|exists n', q']; auto.
Qed.

(** X11.  Rounding is idempotent on the simulator's output: for every record
    of every answer, [round(latitude, 6)] is the latitude and
    [round(longitude, 6)] the longitude. *)
Theorem simulator_coordinates_round_trip (t : list draw) (r : reply) :
  runs kma_lightning_simulator t r ->
  exists records : list StrikeRecord,
    r = simulator_reply (map strike_value records) /\
    Forall (fun s : StrikeRecord =>
              py_round (latitude s) 6 = latitude s /\
              py_round (longitude s) 6 = longitude s)
           records.
Proof.
  intros H. apply runs_kma_lightning_simulator in H as (ds & _ & Hds & _ & ->).
  exists (map strike_of_draws ds).
  split; [unfold strike_json; now rewrite map_map|].
  apply Forall_map. eapply Forall_impl; [|exact Hds].
  intros d ((Hl1 & Hl2) & (Hn1 & Hn2) & _). cbn [strike_of_draws latitude longitude].
  destruct (latitude_decimal _ Hl1 Hl2) as (n & q & _ & _ & _ & Hlat).
  destruct (longitude_decimal _ Hn1 Hn2) as (n' & q' & _ & _ & _ & Hlon).
  auto.
Qed.

(** X10 on the run that draws one record with [sample_draws]. *)
Lemma simulator_coordinates_decimal_witness :
  exists records : list StrikeRecord,
    simulator_reply [strike_json sample_draws]
    = simulator_reply (map strike_value records) /\
    Forall (fun s : StrikeRecord =>
              (exists (n : Z) (q : positive),
                 37498000 <= n <= 37618000 /\
                 Prim2SF (latitude s) = S754_finite false q (-47) /\
                 Z.abs (Zpos q * 10 ^ 6 - n * 2 ^ 47) < 2 * 10 ^ 6) /\
              (exists (n : Z) (q : positive),
                 126734000 <= n <= 126854000 /\
                 Prim2SF (longitude s) = S754_finite false q (-46) /\
                 Z.abs (Zpos q * 10 ^ 6 - n * 2 ^ 46) < 2 * 10 ^ 6))
           records.
Proof.
  apply (simulator_coordinates_decimal (IntDraw 0 5 1 :: trace_of_draws sample_draws)).
  apply runs_kma_lightning_simulator. exists [sample_draws].
  repeat split; [cbn; lia|].
  repeat constructor; vm_compute; (reflexivity || discriminate).
Defined.

(** X11 on the run that draws one record with [sample_draws]. *)
Lemma simulator_coordinates_round_trip_witness :
  exists records : list StrikeRecord,
    simulator_reply [strike_json sample_draws]
    = simulator_reply (map strike_value records) /\
    Forall (fun s : StrikeRecord =>
              py_round (latitude s) 6 = latitude s /\
              py_round (longitude s) 6 = longitude s)
           records.
Proof.
  apply (simulator_coordinates_round_trip (IntDraw 0 5 1 :: trace_of_draws sample_draws)).
  apply runs_kma_lightning_simulator. exists [sample_draws].
  repeat split; [cbn; lia|].
  repeat constructor; vm_compute; (reflexivity || discriminate).
Defined.

(** ** The simulator and the report end to end *)

Section EndToEnd.
Context {libm : Libm}.

Lemma draws_inside_kept : strike_within_radius (strike_json draws_inside) = Ok true.
Proof.
  unfold strike_json. rewrite strike_within_radius_value.
  replace (latitude (strike_of_draws draws_inside)) with 37.558%float
    by (vm_compute; reflexivity).
  replace (longitude (strike_of_draws draws_inside)) with 126.794%float
    by (vm_compute; reflexivity).
  exact origin_is_inside.
Qed.

Lemma draws_outside_dropped : strike_within_radius (strike_json draws_outside) = Ok false.
Proof.
  unfold strike_json. rewrite strike_within_radius_value.
  replace (latitude (strike_of_draws draws_outside)) with 37.618%float
    by (vm_compute; reflexivity).
  replace (longitude (strike_of_draws draws_outside)) with 126.794%float
    by (vm_compute; reflexivity).
  rewrite is_within_radius_floats. cbv -[libm_pow2]. libm_cases; vm_compute; reflexivity.
Qed.

Lemma pattern_draws_in_range (pattern : list bool) :
  Forall draws_in_range (draws_of_pattern pattern).
Proof.
  apply Forall_map. apply Forall_forall. intros [|] _;
    repeat split; vm_compute; (reflexivity || discriminate).
Qed.

Lemma pattern_decided (pattern : list bool) :
  forallb decides (map strike_json (draws_of_pattern pattern)) = true.
Proof.
  induction pattern as [|[|] pattern IH]; [reflexivity| |];
    cbn [draws_of_pattern map forallb]; unfold decides at 1;
    rewrite ?draws_inside_kept, ?draws_outside_dropped; exact IH.
Qed.

Lemma pattern_keeps (pattern : list bool) :
  map keeps (map strike_json (draws_of_pattern pattern)) = pattern.
Proof.
  induction pattern as [|[|] pattern IH]; [reflexivity| |];
    cbn [draws_of_pattern map]; unfold keeps at 1;
    rewrite ?draws_inside_kept, ?draws_outside_dropped; f_equal; exact IH.
Qed.

Lemma filter_length_map {A : Type} (f : A -> bool) (l : list A) :
  List.length (filter f l) = List.length (filter (fun b : bool => b) (map f l)).
Proof.
  induction l as [|a l IH]; [reflexivity|]. cbn [filter map].
  destruct (f a); cbn [List.length]; now rewrite IH.
Qed.

(** X12.  The simulator scatters its records over an area wider than the
    radius: for every sequence of at most five inside and outside marks there
    is a run whose records fall inside and outside the radius in exactly that
    pattern, and the report on a 2xx response with that answer keeps exactly
    the records marked inside, as many as there are such marks. *)
Theorem simulator_inside_outside_patterns (host_url : string) (pattern : list bool) :
  (List.length pattern <= 5)%nat ->
  exists (t : list draw) (strikes : list pyval),
    runs kma_lightning_simulator t (simulator_reply strikes) /\
    map keeps strikes = pattern /\
    forall (code : Z) (phrase : string),
      200 <= code < 300 ->
      gmp_lightning_report host_url
        (network_returning code phrase (Ok (reply_body (simulator_reply strikes))))
      = Ok (success_reply (filter keeps strikes)) /\
      List.length (filter keeps strikes)
      = List.length (filter (fun inside : bool => inside) pattern).
Proof.
  intros Hlen.
  exists (IntDraw 0 5 (Z.of_nat (List.length (draws_of_pattern pattern)))
            :: flat_map trace_of_draws (draws_of_pattern pattern)),
         (map strike_json (draws_of_pattern pattern)).
  split; [|split].
  - apply runs_kma_lightning_simulator. exists (draws_of_pattern pattern).
    repeat split; [|apply pattern_draws_in_range].
    unfold draws_of_pattern. now rewrite length_map.
  - apply pattern_keeps.
  - intros code phrase Hcode. split.
    + cbn [simulator_reply reply_body]. rewrite report_on_network by exact Hcode.
      now rewrite (nearby_decided _ (pattern_decided pattern)).
    + now rewrite filter_length_map, pattern_keeps.
Qed.

Variable host_url : string.
Variable requests_get : string -> result Response.

(** X13.  The two handlers composed: on a response that passes the status
    check and carries an answer of the simulator, the report is the success
    response with the records of the answer on which the condition is [True];
    these are among the records of the answer, and their number is at most the
    number of records, which is at most 5. *)
Theorem report_on_simulator_answer (t : list draw) (answer : reply) (resp : Response) :
  runs kma_lightning_simulator t answer ->
  requests_get (kma_api_url host_url) = Ok resp ->
  status_passes resp ->
  json resp = Ok (reply_body answer) ->
  gmp_lightning_report host_url requests_get
  = Ok (success_reply (filter keeps (reply_strikes answer))) /\
  (List.length (filter keeps (reply_strikes answer))
   <= List.length (reply_strikes answer) <= 5)%nat /\
  incl (filter keeps (reply_strikes answer)) (reply_strikes answer).
Proof.
  intros Hrun Hget Hstatus Hjson.
  apply runs_kma_lightning_simulator in Hrun as (ds & Hlen & Hds & _ & ->).
  cbn [simulator_reply reply_body] in Hjson.
  change (reply_strikes (simulator_reply (map strike_json ds))) with (map strike_json ds).
  split; [|split].
  - rewrite (report_on_list host_url requests_get resp _ (map strike_json ds) Hget
               (raise_for_status_passes resp Hstatus) Hjson eq_refl).
    rewrite nearby_decided; [reflexivity|].
    apply forallb_forall. intros v Hv. apply in_map_iff in Hv as (d & <- & Hd).
    rewrite Forall_forall in Hds. unfold decides, strike_json.
    now rewrite (strike_within_radius_representable _
                   (strike_of_draws_representable d (Hds d Hd))).
  - split; [apply filter_length_le|]. now rewrite length_map.
  - apply incl_filter.
Qed.

End EndToEnd.

(** X12 on the pattern of one record inside followed by one outside. *)
Lemma simulator_inside_outside_patterns_witness :
  exists (t : list draw) (strikes : list pyval),
    runs kma_lightning_simulator t (simulator_reply strikes) /\
    map (@keeps exact_libm) strikes = [true; false] /\
    forall (code : Z) (phrase : string),
      200 <= code < 300 ->
      @gmp_lightning_report exact_libm sample_host_url
        (network_returning code phrase (Ok (reply_body (simulator_reply strikes))))
      = Ok (success_reply (filter (@keeps exact_libm) strikes)) /\
      List.length (filter (@keeps exact_libm) strikes)
      = List.length (filter (fun inside : bool => inside) [true; false]).
Proof.
  apply (@simulator_inside_outside_patterns exact_libm sample_host_url [true; false]).
  cbn. lia.
Defined.

(** X13 on the answer of the run that draws one record with [sample_draws]. *)
Lemma report_on_simulator_answer_witness :
  @gmp_lightning_report exact_libm sample_host_url
    (network_returning 200 "OK" (Ok (reply_body (simulator_reply [strike_json sample_draws]))))
  = Ok (success_reply
          (filter (@keeps exact_libm)
             (reply_strikes (simulator_reply [strike_json sample_draws])))).
Proof.
  refine (proj1 (@report_on_simulator_answer exact_libm sample_host_url
                  (network_returning 200 "OK"
                     (Ok (reply_body (simulator_reply [strike_json sample_draws]))))
                  (IntDraw 0 5 1 :: trace_of_draws sample_draws)
                  (simulator_reply [strike_json sample_draws])
                  {| status_code := 200; reason := "OK";
                     url := kma_api_url sample_host_url;
                     json := Ok (reply_body (simulator_reply [strike_json sample_draws])) |}
                  _ eq_refl _ eq_refl)).
  - apply runs_kma_lightning_simulator. exists [sample_draws].
    repeat split; [cbn; lia|].
    repeat constructor; vm_compute; (reflexivity || discriminate).
  - left. cbn. lia.
Defined.

(** ** The number of records and the intensities *)

Section SimulatorProbabilities.
Variable uniform_support : float -> float -> list float.
Hypothesis uniform_support_nonempty : forall a b : float, uniform_support a b <> [].

(** An event on the number of records. *)
Lemma expect_simulate_strikes_length (g : nat -> Qc) (todo : nat) (acc : list pyval) :
  expect uniform_support (simulate_strikes todo acc)
    (fun strikes => g (List.length strikes))
  = g (List.length acc + todo)%nat.
Proof.
  revert acc. induction todo as [|todo IH]; intros acc.
  - cbn [simulate_strikes expect]. now rewrite Nat.add_0_r.
  - cbn [simulate_strikes rbind uniform randint expect].
    apply mean_map_constant; [apply uniform_support_nonempty|]. intros lat _.
    apply mean_map_constant; [apply uniform_support_nonempty|]. intros lon _.
    apply mean_map_constant; [apply Zrange_nonempty; cbn; lia|]. intros idn _.
    apply mean_map_constant; [apply Zrange_nonempty; cbn; lia|]. intros c _.
    rewrite IH, length_app. cbn [List.length]. f_equal. lia.
Qed.

(** X14.  The number of records of an answer is uniform on 0 to 5: each of
    these six numbers has the probability 1/6, whatever the distribution of
    the float draws, and no other number of records occurs. *)
Theorem simulator_count_uniform (k : nat) :
  probability uniform_support kma_lightning_simulator
    (fun r => Nat.eqb (List.length (reply_strikes r)) k)
  = if (k <=? 5)%nat then Q2Qc (1 # 6) else 0%Qc.
Proof.
  unfold probability, kma_lightning_simulator.
  cbn [rbind randint expect].
  change (Z.to_nat (5 - 0 + 1)) with 6%nat.
  assert (Hin : forall num : Z,
             In num (Zrange 0 6) ->
             expect uniform_support
               (strikes <~ simulate_strikes (Z.to_nat num) [] ;;
                Ret {| reply_status := 200;
                       reply_body := PDict [("status", PStr "success");
                                            ("source", PStr "KMA Virtual Lightning Detector");
                                            ("data", PList strikes)] |})
               (fun r => if Nat.eqb (List.length (reply_strikes r)) k then 1%Qc else 0%Qc)
             = if num =? Z.of_nat k then 1%Qc else 0%Qc).
  { intros num Hnum. apply Zrange_bounds in Hnum.
    rewrite expect_rbind. cbn [expect].
    rewrite (expect_ext _ _ _
               (fun strikes => if Nat.eqb (List.length strikes) k then 1%Qc else 0%Qc))
      by reflexivity.
    rewrite (expect_simulate_strikes_length
               (fun n => if Nat.eqb n k then 1%Qc else 0%Qc)).
    cbn [List.length Nat.add].
    destruct (Z.eqb_spec num (Z.of_nat k)) as [->|Hne].
    - now rewrite Nat2Z.id, Nat.eqb_refl.
    - replace (Nat.eqb (Z.to_nat num) k) with false; [reflexivity|].
      symmetry. apply Nat.eqb_neq. lia. }
  rewrite (map_ext_in _ _ _ Hin).
  destruct (Nat.leb_spec k 5) as [Hk|Hk].
  - rewrite mean_indicator by lia. apply Qc_is_canon. vm_compute. reflexivity.
  - apply mean_map_constant; [discriminate|].
    intros num Hnum. apply Zrange_bounds in Hnum.
    destruct (Z.eqb_spec num (Z.of_nat k)); [lia|reflexivity].
Qed.

(** An event on the record at one position, for a test that a freshly drawn
    record passes with the probability [p] whatever its coordinates. *)
Lemma expect_simulate_strikes_at (test : pyval -> bool) (p : Qc) (k i : nat)
    (todo : nat) (acc : list pyval) :
  (forall lat lon : float,
     mean (map (fun idn =>
                  mean (map (fun c => if test (drawn_strike lat lon idn c) then 1%Qc else 0%Qc)
                          (Zrange 10 (Z.to_nat (100 - 10 + 1)))))
             (Zrange 1000 (Z.to_nat (9999 - 1000 + 1)))) = p) ->
  (i < k)%nat ->
  expect uniform_support (simulate_strikes todo acc)
    (fun strikes => if lists_at k i test strikes then 1%Qc else 0%Qc)
  = if negb (Nat.eqb (List.length acc + todo) k) then 0%Qc
    else if Nat.ltb i (List.length acc) then
           match nth_error acc i with
           | Some v => if test v then 1%Qc else 0%Qc
           | None => 0%Qc
           end
         else p.
Proof.
  intros Hp Hi. revert acc. induction todo as [|todo IH]; intros acc.
  - cbn [simulate_strikes expect]. unfold lists_at.
    rewrite Nat.add_0_r.
    destruct (Nat.eqb_spec (List.length acc) k) as [Hk|Hk]; cbn [negb andb];
      [|reflexivity].
    replace (Nat.ltb i (List.length acc)) with true
      by (symmetry; apply Nat.ltb_lt; lia).
    destruct (nth_error acc i); reflexivity.
  - cbn [simulate_strikes rbind uniform randint expect].
    apply mean_map_constant; [apply uniform_support_nonempty|]. intros lat _.
    apply mean_map_constant; [apply uniform_support_nonempty|]. intros lon _.
    set (value := if negb (Nat.eqb (List.length acc + S todo) k) then 0%Qc
                  else if Nat.ltb i (List.length acc) then
                         match nth_error acc i with
                         | Some v => if test v then 1%Qc else 0%Qc
                         | None => 0%Qc
                         end
                       else p).
    transitivity
      (mean (map (fun idn =>
                    mean (map (fun c =>
                                 if negb (Nat.eqb (List.length acc + S todo) k) then 0%Qc
                                 else if Nat.ltb i (List.length acc) then value
                                 else if Nat.eqb i (List.length acc) then
                                        (if test (drawn_strike lat lon idn c) then 1%Qc else 0%Qc)
                                      else p)
                            (Zrange 10 (Z.to_nat (100 - 10 + 1)))))
               (Zrange 1000 (Z.to_nat (9999 - 1000 + 1))))).
    { f_equal. apply map_ext. intros idn. f_equal. apply map_ext. intros c.
      rewrite IH, length_app. cbn [List.length].
      replace (List.length acc + 1 + todo)%nat with (List.length acc + S todo)%nat by lia.
      unfold value.
      destruct (Nat.eqb (List.length acc + S todo) k); cbn [negb]; [|reflexivity].
      destruct (Nat.ltb_spec i (List.length acc)) as [Hlt|Hge].
      - replace (Nat.ltb i (List.length acc + 1)) with true
          by (symmetry; apply Nat.ltb_lt; lia).
        now rewrite nth_error_app1 by exact Hlt.
      - destruct (Nat.eqb_spec i (List.length acc)) as [->|Hne].
        + replace (Nat.ltb (List.length acc) (List.length acc + 1)) with true
            by (symmetry; apply Nat.ltb_lt; lia).
          rewrite nth_error_app2, Nat.sub_diag by lia. reflexivity.
        + replace (Nat.ltb i (List.length acc + 1)) with false
            by (symmetry; apply Nat.ltb_ge; lia).
          reflexivity. }
    unfold value.
    destruct (Nat.eqb (List.length acc + S todo) k); cbn [negb].
    2:{ apply mean_map_constant; [apply Zrange_nonempty; cbn; lia|]. intros idn _.
        apply mean_map_constant; [apply Zrange_nonempty; cbn; lia|reflexivity]. }
    destruct (Nat.ltb i (List.length acc)).
    { apply mean_map_constant; [apply Zrange_nonempty; cbn; lia|]. intros idn _.
      apply mean_map_constant; [apply Zrange_nonempty; cbn; lia|reflexivity]. }
    destruct (Nat.eqb i (List.length acc)).
    + apply Hp.
    + apply mean_map_constant; [apply Zrange_nonempty; cbn; lia|]. intros idn _.
      apply mean_map_constant; [apply Zrange_nonempty; cbn; lia|reflexivity].
Qed.

Lemma probability_at (test : pyval -> bool) (p : Qc) (k i : nat) :
  (forall lat lon : float,
     mean (map (fun idn =>
                  mean (map (fun c => if test (drawn_strike lat lon idn c) then 1%Qc else 0%Qc)
                          (Zrange 10 (Z.to_nat (100 - 10 + 1)))))
             (Zrange 1000 (Z.to_nat (9999 - 1000 + 1)))) = p) ->
  (i < k <= 5)%nat ->
  probability uniform_support kma_lightning_simulator
    (fun r => lists_at k i test (reply_strikes r))
  = (Q2Qc (1 # 6) * p)%Qc.
Proof.
  intros Hp Hik. unfold probability, kma_lightning_simulator.
  cbn [rbind randint expect].
  change (Z.to_nat (5 - 0 + 1)) with 6%nat.
  rewrite (map_ext_in _ (fun num => if num =? Z.of_nat k then p else 0%Qc)).
  - rewrite mean_indicator by lia. change (Qc_of_nat 6) with (Q2Qc 6).
    change (Q2Qc (1 # 6)) with (/ Q2Qc 6)%Qc. unfold Qcdiv. ring.
  - intros num Hnum. apply Zrange_bounds in Hnum.
    rewrite expect_rbind. cbn [expect].
    rewrite (expect_ext _ _ _
               (fun strikes => if lists_at k i test strikes then 1%Qc else 0%Qc))
      by reflexivity.
    rewrite (expect_simulate_strikes_at test p k i _ _ Hp) by lia.
    cbn [List.length Nat.add]. change (Nat.ltb i 0) with false.
    destruct (Z.eqb_spec num (Z.of_nat k)) as [->|Hne].
    + rewrite Nat2Z.id, Nat.eqb_refl. reflexivity.
    + replace (Nat.eqb (Z.to_nat num) k) with false; [reflexivity|].
      symmetry. apply Nat.eqb_neq. lia.
Qed.

(** X15.  The intensity of each record is uniform on the integers from 10 to
    100: an answer with [k] records whose record [i] has a given intensity of
    that range has the probability 1/6 * 1/91, whatever the number of records
    and the position. *)
Theorem simulator_intensity_uniform (k i : nat) (c : Z) :
  (i < k <= 5)%nat -> 10 <= c <= 100 ->
  probability uniform_support kma_lightning_simulator
    (fun r => lists_at k i (strike_has_intensity c) (reply_strikes r))
  = (Q2Qc (1 # 6) * Q2Qc (1 # 91))%Qc.
Proof.
  intros Hik Hc. apply probability_at; [|exact Hik].
  intros lat lon.
  apply mean_map_constant; [apply Zrange_nonempty; cbn; lia|]. intros idn _.
  rewrite (map_ext _ (fun m => if m =? c then 1%Qc else 0%Qc)) by reflexivity.
  change (Z.to_nat (100 - 10 + 1)) with 91%nat.
  rewrite mean_indicator by lia.
  apply Qc_is_canon. vm_compute. reflexivity.
Qed.

End SimulatorProbabilities.

(** X14 on answers with two records, when [random.uniform(a, b)] always
    returns [a]. *)
Lemma simulator_count_uniform_witness :
  probability (fun a _ => [a]) kma_lightning_simulator
    (fun r => Nat.eqb (List.length (reply_strikes r)) 2)
  = Q2Qc (1 # 6).
Proof.
  apply (simulator_count_uniform (fun a _ => [a]) ltac:(discriminate) 2%nat).
Defined.

(** X15 on the intensity 50 at the second of two records, when
    [random.uniform(a, b)] always returns [a]. *)
Lemma simulator_intensity_uniform_witness :
  probability (fun a _ => [a]) kma_lightning_simulator
    (fun r => lists_at 2 1 (strike_has_intensity 50) (reply_strikes r))
  = (Q2Qc (1 # 6) * Q2Qc (1 # 91))%Qc.
Proof.
  apply (simulator_intensity_uniform (fun a _ => [a]) ltac:(discriminate) 2%nat 1%nat 50);
    lia.
Defined.
